(** * gcode-rapid-move: the simulator and the G1 -> G0 converter of [converter.py]

    A shallow embedding of [MachineState], [GCodeSimulator] and
    [GCodeConverter], and the properties of the specification settled on it.

    Conventions of the embedding.
    - Text is a list of characters; a character is a code point below 256.
      The classes [\s], [\d], [\w] and [str.strip] are Python's on that range.
    - The regular expressions of the source are kept as data ([Re.item] lists)
      and run by a backtracking matcher with Python's priorities (leftmost
      start, greedy quantifiers first, lazy ones last).
    - Python floats are idealised as exact numbers, as the specification does
      ("real-valued"): everything read from the text and every position is a
      rational ([Q], a decimal literal denotes its exact value), the square
      root of the distance formula lives in [R], and so do the distances and
      times derived from it.  Rounding, overflow and NaN are not modelled.
    - Python ints are [Z].
    - [self] is passed explicitly and returned when the method mutates it. *)

From Stdlib Require Import List Ascii String Bool Arith NArith ZArith.
From Stdlib Require Import QArith Reals Qreals Lia Lra.
From Stdlib Require Import Sorted.
From Stdlib Require Lqa.
Import ListNotations.

(* ================================================================= *)
(** ** Text *)

Module Text.

Definition str := list ascii.

(** A literal of the source, as text. *)
Definition s2l (s : string) : str := list_ascii_of_string s.

Definition code (c : ascii) : N := N_of_ascii c.

Definition chr_eqb (a b : ascii) : bool := Ascii.eqb a b.

(** ['\n'] and ['\r']. *)
Definition LF : ascii := ascii_of_N 10.
Definition CR : ascii := ascii_of_N 13.

Definition between (lo hi n : N) : bool := ((lo <=? n) && (n <=? hi))%N.

(** [str.isspace], which is also [\s] of [re] on [str] patterns. *)
Definition isspace (c : ascii) : bool :=
  let n := code c in
  (between 9 13 n || between 28 32 n || (n =? 133) || (n =? 160))%N.

(** [\d]: the decimal digits. *)
Definition isdigit (c : ascii) : bool := between 48 57 (code c).

(** [\w]: [str.isalnum] or an underscore. *)
Definition isword (c : ascii) : bool :=
  let n := code c in
  (between 48 57 n || between 65 90 n || (n =? 95) || between 97 122 n
   || (n =? 170) || (n =? 178) || (n =? 179) || (n =? 181) || (n =? 185)
   || (n =? 186) || between 188 190 n || between 192 214 n
   || between 216 246 n || between 248 255 n)%N.

(** A letter of a pattern compiled with [re.IGNORECASE]: [u] is the upper
    case letter, its lower case form is 32 code points above. *)
Definition ci (u : ascii) (c : ascii) : bool :=
  (chr_eqb c u || (code c =? code u + 32)%N).

(** A literal character of a pattern. *)
Definition lit (a : ascii) (c : ascii) : bool := chr_eqb c a.

(** [.] without [re.DOTALL]. *)
Definition dot (c : ascii) : bool := negb (chr_eqb c LF).

(** [[-+]] *)
Definition sign (c : ascii) : bool := chr_eqb c "-" || chr_eqb c "+".

Fixpoint lstrip (s : str) : str :=
  match s with
  | [] => []
  | c :: s' => if isspace c then lstrip s' else s
  end.

Definition rstrip (s : str) : str := rev (lstrip (rev s)).

(** [str.strip()] *)
Definition strip (s : str) : str := rstrip (lstrip s).

(** [s.endswith('\n')] *)
Fixpoint endswith_nl (s : str) : bool :=
  match s with
  | [] => false
  | [c] => chr_eqb c LF
  | _ :: s' => endswith_nl s'
  end.

End Text.
Import Text.

(* ================================================================= *)
(** ** The regular expressions of the source *)

Module Re.

Inductive quant : Type :=
| One       (* c   *)
| Opt       (* c?  *)
| Star      (* c*  *)
| Plus      (* c+  *)
| LazyStar. (* c*? *)

(** The patterns of [converter.py] are sequences of quantified character
    classes and of the assertions [\b] and [$]; their only group, when
    there is one, is a run of those items ([cap] marks them). *)
Inductive item : Type :=
| Cls (cap : bool) (q : quant) (c : ascii -> bool)
| WordB
| EndS.

Definition pattern := list item.

Record rmatch : Type := mkMatch
  { m_text : str;    (* group(0) *)
    m_group : str;   (* group(1) *)
    m_rest : str }.  (* the text after the match *)

Definition take (cap : bool) (x : ascii) (m : rmatch) : rmatch :=
  {| m_text := x :: m_text m;
     m_group := if cap then x :: m_group m else m_group m;
     m_rest := m_rest m |}.

Definition orelse {A} (a b : option A) : option A :=
  match a with Some _ => a | None => b end.

Definition wordopt (c : option ascii) : bool :=
  match c with Some x => isword x | None => false end.

(** [\b] between [prev] and the head of [s]. *)
Definition at_boundary (prev : option ascii) (s : str) : bool :=
  xorb (wordopt prev) (wordopt (hd_error s)).

(** [$] without [re.MULTILINE]: the end, or just before a final newline. *)
Definition at_end (s : str) : bool :=
  match s with
  | [] => true
  | [c] => chr_eqb c LF
  | _ => false
  end.

(** The match of [p] that starts exactly at [s]; [prev] is the character
    before [s], if any. *)
Fixpoint match_here (p : pattern) (prev : option ascii) (s : str)
  {struct p} : option rmatch :=
  match p with
  | [] => Some {| m_text := []; m_group := []; m_rest := s |}
  | WordB :: p' => if at_boundary prev s then match_here p' prev s else None
  | EndS :: p' => if at_end s then match_here p' prev s else None
  | Cls cap q c :: p' =>
      let greedy :=
        fix greedy (prev : option ascii) (s : str) {struct s} : option rmatch :=
          match s with
          | x :: s' =>
              if c x
              then orelse (option_map (take cap x) (greedy (Some x) s'))
                          (match_here p' prev s)
              else match_here p' prev s
          | [] => match_here p' prev s
          end in
      let lazy_ :=
        fix lazy_ (prev : option ascii) (s : str) {struct s} : option rmatch :=
          orelse (match_here p' prev s)
                 (match s with
                  | x :: s' =>
                      if c x then option_map (take cap x) (lazy_ (Some x) s')
                      else None
                  | [] => None
                  end) in
      match q with
      | One =>
          match s with
          | x :: s' =>
              if c x then option_map (take cap x) (match_here p' (Some x) s')
              else None
          | [] => None
          end
      | Opt =>
          match s with
          | x :: s' =>
              if c x
              then orelse (option_map (take cap x) (match_here p' (Some x) s'))
                          (match_here p' prev s)
              else match_here p' prev s
          | [] => match_here p' prev s
          end
      | Star => greedy prev s
      | Plus =>
          match s with
          | x :: s' =>
              if c x then option_map (take cap x) (greedy (Some x) s')
              else None
          | [] => None
          end
      | LazyStar => lazy_ prev s
      end
  end.

(** [re.search]: the first position where [p] matches. *)
Fixpoint search_from (p : pattern) (prev : option ascii) (s : str)
  : option rmatch :=
  match match_here p prev s with
  | Some m => Some m
  | None =>
      match s with
      | [] => None
      | x :: s' => search_from p (Some x) s'
      end
  end.

Definition search (p : pattern) (s : str) : option rmatch :=
  search_from p None s.

(** [re.sub(p, repl, s)], scanning [s] from left to right. [skip] counts the
    characters of the current match that are still to be dropped. An empty
    match emits [repl] and lets the scan advance by one character (no pattern
    of the source has an empty match). *)
Fixpoint sub_from (p : pattern) (repl : str) (prev : option ascii)
  (skip : nat) (s : str) : str :=
  match skip with
  | S k =>
      match s with
      | x :: s' => sub_from p repl (Some x) k s'
      | [] => []
      end
  | O =>
      match match_here p prev s with
      | Some m =>
          repl ++
          match List.length (m_text m), s with
          | S k, x :: s' => sub_from p repl (Some x) k s'
          | O, x :: s' => x :: sub_from p repl (Some x) O s'
          | _, [] => []
          end
      | None =>
          match s with
          | x :: s' => x :: sub_from p repl (Some x) O s'
          | [] => []
          end
      end
  end.

Definition sub (p : pattern) (repl : str) (s : str) : str :=
  sub_from p repl None O s.

End Re.
Import Re.

(* ================================================================= *)
(** ** Numbers read from the text *)

Definition digit_val (c : ascii) : Z := Z.of_N (code c) - 48.

(** [int(ds)] for a run of decimal digits. *)
Definition int_of_digits (ds : str) : Z :=
  fold_left (fun acc c => 10 * acc + digit_val c)%Z ds 0%Z.

Fixpoint split_dot (s : str) : str * str :=
  match s with
  | [] => ([], [])
  | c :: s' =>
      if chr_eqb c "." then ([], s')
      else let '(a, b) := split_dot s' in (c :: a, b)
  end.

Fixpoint pow10 (n : nat) : positive :=
  match n with
  | O => 1%positive
  | S k => (10 * pow10 k)%positive
  end.

(** [float(t)] for a text matched by [[-+]?\d*\.?\d+], as the exact value of
    the decimal literal: sign, integer digits, fraction digits. *)
Definition float_of_text (t : str) : Q :=
  let '(neg, body) :=
    match t with
    | c :: t' =>
        if chr_eqb c "-" then (true, t')
        else if chr_eqb c "+" then (false, t') else (false, t)
    | [] => (false, t)
    end in
  let '(ip, fp) := split_dot body in
  let n := int_of_digits (ip ++ fp) in
  Qmake (if neg then Z.opp n else n) (pow10 (List.length fp)).

(* ================================================================= *)
(** ** [MachineState] *)

Inductive Plane : Type := XY | XZ | YZ.

(** The values [f'G{g}'] takes for [g] in [54..59]. *)
Inductive WorkCoordinate : Type := G54 | G55 | G56 | G57 | G58 | G59.

Record MachineState : Type := mkState
  { x : Q;
    y : Q;
    z : Q;
    current_g : option Z;
    feed_rate : option Q;
    spindle_speed : option Z;
    absolute_mode : bool;
    units_mm : bool;
    plane : Plane;
    work_coordinate : WorkCoordinate;
    total_time_seconds : R }.

(** [MachineState()] *)
Definition MachineState_default : MachineState :=
  {| x := 0; y := 0; z := 0;
     current_g := None; feed_rate := None; spindle_speed := None;
     absolute_mode := true; units_mm := true;
     plane := XY; work_coordinate := G54;
     total_time_seconds := 0%R |}.

(** [MachineState.copy()]: states are values here, a copy is the state. *)
Definition copy (s : MachineState) : MachineState :=
  mkState (x s) (y s) (z s) (current_g s) (feed_rate s) (spindle_speed s)
    (absolute_mode s) (units_mm s) (plane s) (work_coordinate s)
    (total_time_seconds s).

(** Assignments to one attribute of the state. *)
Definition set_xyz (nx ny nz : Q) (s : MachineState) : MachineState :=
  mkState nx ny nz (current_g s) (feed_rate s) (spindle_speed s)
    (absolute_mode s) (units_mm s) (plane s) (work_coordinate s)
    (total_time_seconds s).

Definition set_z (v : Q) (s : MachineState) : MachineState :=
  set_xyz (x s) (y s) v s.

Definition set_current_g (g : Z) (s : MachineState) : MachineState :=
  mkState (x s) (y s) (z s) (Some g) (feed_rate s) (spindle_speed s)
    (absolute_mode s) (units_mm s) (plane s) (work_coordinate s)
    (total_time_seconds s).

Definition set_feed_rate (f : Q) (s : MachineState) : MachineState :=
  mkState (x s) (y s) (z s) (current_g s) (Some f) (spindle_speed s)
    (absolute_mode s) (units_mm s) (plane s) (work_coordinate s)
    (total_time_seconds s).

Definition set_spindle_speed (v : Z) (s : MachineState) : MachineState :=
  mkState (x s) (y s) (z s) (current_g s) (feed_rate s) (Some v)
    (absolute_mode s) (units_mm s) (plane s) (work_coordinate s)
    (total_time_seconds s).

Definition set_absolute_mode (b : bool) (s : MachineState) : MachineState :=
  mkState (x s) (y s) (z s) (current_g s) (feed_rate s) (spindle_speed s)
    b (units_mm s) (plane s) (work_coordinate s) (total_time_seconds s).

Definition set_units_mm (b : bool) (s : MachineState) : MachineState :=
  mkState (x s) (y s) (z s) (current_g s) (feed_rate s) (spindle_speed s)
    (absolute_mode s) b (plane s) (work_coordinate s) (total_time_seconds s).

Definition set_plane (p : Plane) (s : MachineState) : MachineState :=
  mkState (x s) (y s) (z s) (current_g s) (feed_rate s) (spindle_speed s)
    (absolute_mode s) (units_mm s) p (work_coordinate s)
    (total_time_seconds s).

Definition set_work_coordinate (w : WorkCoordinate) (s : MachineState)
  : MachineState :=
  mkState (x s) (y s) (z s) (current_g s) (feed_rate s) (spindle_speed s)
    (absolute_mode s) (units_mm s) (plane s) w (total_time_seconds s).

Definition set_total_time_seconds (t : R) (s : MachineState) : MachineState :=
  mkState (x s) (y s) (z s) (current_g s) (feed_rate s) (spindle_speed s)
    (absolute_mode s) (units_mm s) (plane s) (work_coordinate s) t.

(* ================================================================= *)
(** ** [GCodeSimulator.parse_line] *)

Inductive LineType : Type := Empty | Command.

(** The dict [parse_line] returns: a key that is absent is [None]. The key
    ['original'] is absent from an empty parse and never read back. *)
Record Parsed : Type := mkParsed
  { p_type : LineType;
    p_original : str;
    pG : option Z;
    pM : option Z;
    pX : option Q;
    pY : option Q;
    pZ : option Q;
    pI : option Q;
    pJ : option Q;
    pK : option Q;
    pR : option Q;
    pF : option Q;
    pS : option Z }.

(** [{'type': 'empty'}] *)
Definition parsed_empty : Parsed :=
  mkParsed Empty [] None None None None None None None None None None None.

Module Pat.

(** [r'\(.*?\)'] *)
Definition paren_comment : pattern :=
  [Cls false One (lit "("); Cls false LazyStar dot; Cls false One (lit ")")].

(** [r';.*$'] *)
Definition semi_comment : pattern :=
  [Cls false One (lit ";"); Cls false Star dot; EndS].

(** [r'G0*(\d+)'], [re.IGNORECASE] *)
Definition g_code : pattern :=
  [Cls false One (ci "G"); Cls false Star (lit "0"); Cls true Plus isdigit].

(** [r'M(\d+)'], [r'S(\d+)'], [re.IGNORECASE] *)
Definition letter_int (u : ascii) : pattern :=
  [Cls false One (ci u); Cls true Plus isdigit].

(** [rf'{axis}([-+]?\d*\.?\d+)'], [re.IGNORECASE]; also the pattern of F. *)
Definition letter_float (u : ascii) : pattern :=
  [Cls false One (ci u); Cls true Opt sign; Cls true Star isdigit;
   Cls true Opt (lit "."); Cls true Plus isdigit].

(** [r'\bG0*\d+'], [re.IGNORECASE] *)
Definition has_g : pattern :=
  [WordB; Cls false One (ci "G"); Cls false Star (lit "0");
   Cls false Plus isdigit].

(** [r'\bG0*1\b'], [re.IGNORECASE] *)
Definition g1_token : pattern :=
  [WordB; Cls false One (ci "G"); Cls false Star (lit "0");
   Cls false One (lit "1"); WordB].

(** [r'\s*F[-+]?\d*\.?\d+'], [re.IGNORECASE] *)
Definition feed_token : pattern :=
  [Cls false Star isspace; Cls false One (ci "F"); Cls false Opt sign;
   Cls false Star isdigit; Cls false Opt (lit "."); Cls false Plus isdigit].

End Pat.

Definition find_int (p : pattern) (line : str) : option Z :=
  option_map (fun m => int_of_digits (m_group m)) (Re.search p line).

Definition find_float (p : pattern) (line : str) : option Q :=
  option_map (fun m => float_of_text (m_group m)) (Re.search p line).

Definition parse_line (line0 : str) : Parsed :=
  let line := strip line0 in
  let line := Re.sub Pat.paren_comment [] line in
  let line := Re.sub Pat.semi_comment [] line in
  let line := strip line in
  match line with
  | [] => parsed_empty
  | _ =>
      {| p_type := Command;
         p_original := line;
         pG := find_int Pat.g_code line;
         pM := find_int (Pat.letter_int "M") line;
         pX := find_float (Pat.letter_float "X") line;
         pY := find_float (Pat.letter_float "Y") line;
         pZ := find_float (Pat.letter_float "Z") line;
         pI := find_float (Pat.letter_float "I") line;
         pJ := find_float (Pat.letter_float "J") line;
         pK := find_float (Pat.letter_float "K") line;
         pR := find_float (Pat.letter_float "R") line;
         pF := find_float (Pat.letter_float "F") line;
         pS := find_int (Pat.letter_int "S") line |}
  end.

(* ================================================================= *)
(** ** [GCodeSimulator] *)

Inductive MoveType : Type := rapid | feed.

(** The dict [move_info]. *)
Record MoveRecord : Type := mkMove
  { mv_type : MoveType;
    mv_from : Q * Q * Q;
    mv_to : Q * Q * Q;
    mv_feed_rate : option Q;
    mv_distance : R;
    mv_time_s : R }.

Record GCodeSimulator : Type := mkSim
  { state : MachineState;
    move_history : list MoveRecord;
    rapid_traverse_rate : Q }.

(** [GCodeSimulator(rapid_rate)] *)
Definition GCodeSimulator_init (rapid_rate : Q) : GCodeSimulator :=
  {| state := MachineState_default;
     move_history := [];
     rapid_traverse_rate := rapid_rate |}.

Definition with_state (s : MachineState) (self : GCodeSimulator)
  : GCodeSimulator :=
  mkSim s (move_history self) (rapid_traverse_rate self).

(** [a > b] and [a >= b] on numbers. *)
Definition Qgtb (a b : Q) : bool := negb (Qle_bool a b).
Definition Qgeb (a b : Q) : bool := Qle_bool b a.

(** [g in [0, 1, 2, 3]] *)
Definition is_motion_code (g : Z) : bool :=
  ((g =? 0) || (g =? 1) || (g =? 2) || (g =? 3))%Z.

(** [self.state.current_g in [0, 1, 2, 3]] *)
Definition in_motion_mode (s : MachineState) : bool :=
  match current_g s with
  | Some g => is_motion_code g
  | None => false
  end.

(** The [if]/[elif] chain on [parsed['G']]. *)
Definition update_modal (g : Z) (s : MachineState) : MachineState :=
  if is_motion_code g then set_current_g g s
  else if (g =? 90)%Z then set_absolute_mode true s
  else if (g =? 91)%Z then set_absolute_mode false s
  else if (g =? 21)%Z then set_units_mm true s
  else if (g =? 20)%Z then set_units_mm false s
  else if (g =? 17)%Z then set_plane XY s
  else if (g =? 18)%Z then set_plane XZ s
  else if (g =? 19)%Z then set_plane YZ s
  else if (g =? 54)%Z then set_work_coordinate G54 s
  else if (g =? 55)%Z then set_work_coordinate G55 s
  else if (g =? 56)%Z then set_work_coordinate G56 s
  else if (g =? 57)%Z then set_work_coordinate G57 s
  else if (g =? 58)%Z then set_work_coordinate G58 s
  else if (g =? 59)%Z then set_work_coordinate G59 s
  else s.

(** The state after the three modal updates of [execute_line]. *)
Definition apply_settings (parsed : Parsed) (s : MachineState) : MachineState :=
  let s := match pG parsed with Some g => update_modal g s | None => s end in
  let s := match pF parsed with Some f => set_feed_rate f s | None => s end in
  match pS parsed with Some v => set_spindle_speed v s | None => s end.

(** [parsed[axis] if absolute_mode else cur + parsed[axis]], or [cur] when the
    axis is absent. *)
Definition target_axis (absolute : bool) (cur : Q) (field : option Q) : Q :=
  match field with
  | Some v => if absolute then v else cur + v
  | None => cur
  end.

(** [(dx**2 + dy**2 + dz**2)**0.5] *)
Definition distance3 (dx dy dz : Q) : R :=
  sqrt (Q2R (dx ^ 2 + dy ^ 2 + dz ^ 2)).

(** [rate_per_minute], for the state [s] after the modal updates. *)
Definition rate_per_minute (rapid_rate : Q) (s : MachineState) : Q :=
  match current_g s with
  | Some g =>
      if (g =? 0)%Z then rapid_rate
      else if ((g =? 1) || (g =? 2) || (g =? 3))%Z
           then match feed_rate s with Some f => f | None => 1 end
           else 0
  | None => 0
  end.

(** [distance / rate_per_minute if rate_per_minute > 0 else 0.0], times 60. *)
Definition time_in_seconds (distance : R) (rate : Q) : R :=
  ((if Qgtb rate 0 then distance / Q2R rate else 0) * 60)%R.

(** The test [parsed['G'] == 10 and 'Z' in parsed], with the value of Z. *)
Definition probe_z (parsed : Parsed) : option Q :=
  match pG parsed, pZ parsed with
  | Some g, Some v => if (g =? 10)%Z then Some v else None
  | _, _ => None
  end.

(** [execute_line] on a line already parsed. ([old_state], the copy taken
    before the modal updates, is never read in the source.) *)
Definition execute_parsed (self : GCodeSimulator) (parsed : Parsed)
  : GCodeSimulator * option MoveRecord :=
  match probe_z parsed with
  | Some v => (with_state (set_z v (state self)) self, None)
  | None =>
      let s := apply_settings parsed (state self) in
      if in_motion_mode s then
        let new_x := target_axis (absolute_mode s) (x s) (pX parsed) in
        let new_y := target_axis (absolute_mode s) (y s) (pY parsed) in
        let new_z := target_axis (absolute_mode s) (z s) (pZ parsed) in
        if negb (Qeq_bool new_x (x s)) || negb (Qeq_bool new_y (y s))
           || negb (Qeq_bool new_z (z s))
        then
          let distance := distance3 (new_x - x s) (new_y - y s) (new_z - z s) in
          let rate := rate_per_minute (rapid_traverse_rate self) s in
          let time_s := time_in_seconds distance rate in
          let s1 := set_total_time_seconds (total_time_seconds s + time_s)%R s in
          let move_info :=
            {| mv_type := match current_g s with
                          | Some 0%Z => rapid
                          | _ => feed
                          end;
               mv_from := (x s, y s, z s);
               mv_to := (new_x, new_y, new_z);
               mv_feed_rate := match current_g s with
                               | Some 0%Z => None
                               | _ => feed_rate s
                               end;
               mv_distance := distance;
               mv_time_s := time_s |} in
          (mkSim (set_xyz new_x new_y new_z s1)
                 (move_history self ++ [move_info])
                 (rapid_traverse_rate self),
           Some move_info)
        else (with_state s self, None)
      else (with_state s self, None)
  end.

(** [GCodeSimulator.execute_line]: the simulator after the line, and the
    [move_info] it returns. *)
Definition execute_line (self : GCodeSimulator) (line : str)
  : GCodeSimulator * option MoveRecord :=
  execute_parsed self (parse_line line).

(* ================================================================= *)
(** ** [GCodeConverter] *)

Record GCodeConverter : Type := mkConv
  { z_safe : Q;
    conservative : bool;
    simulator : GCodeSimulator }.

(** [GCodeConverter(z_safe, conservative, rapid_rate)] *)
Definition GCodeConverter_init (zs : Q) (cons : bool) (rapid_rate : Q)
  : GCodeConverter :=
  {| z_safe := zs; conservative := cons;
     simulator := GCodeSimulator_init rapid_rate |}.

(** [GCodeConverter()] with the defaults of the constructor. *)
Definition GCodeConverter_default : GCodeConverter :=
  GCodeConverter_init 17 true 5000.

Definition with_simulator (sim : GCodeSimulator) (self : GCodeConverter)
  : GCodeConverter :=
  mkConv (z_safe self) (conservative self) sim.

(** [parsed.get('G', state.current_g)] *)
Definition effective_g (parsed : Parsed) (st : MachineState) : option Z :=
  match pG parsed with
  | Some g => Some g
  | None => current_g st
  end.

Definition is_some {A} (o : option A) : bool :=
  match o with Some _ => true | None => false end.

(** [any(k in parsed for k in ['X', 'Y', 'Z'])] *)
Definition has_xyz (parsed : Parsed) : bool :=
  is_some (pX parsed) || is_some (pY parsed) || is_some (pZ parsed).

(** [target_z] of [should_convert_to_rapid]. *)
Definition target_z (parsed : Parsed) (st : MachineState) : Q :=
  match pZ parsed with
  | Some v => if absolute_mode st then v else z st + v
  | None => z st
  end.

Definition should_convert_to_rapid (self : GCodeConverter) (parsed : Parsed)
  (st : MachineState) : bool :=
  match effective_g parsed st with
  | Some 1%Z =>
      if negb (has_xyz parsed) then false
      else
        let tz := target_z parsed st in
        if Qgeb (z st) (z_safe self) && Qgeb tz (z_safe self) then
          if conservative self && negb (is_some (pZ parsed)) then true
          else if is_some (pZ parsed) && Qgeb tz (z st) then true
          else if negb (conservative self) then true
          else false
        else false
  | _ => false
  end.

Definition G0_ : str := s2l "G0".
Definition G0_sp : str := s2l "G0 ".
Definition G1_sp : str := s2l "G1 ".

(** [new_line += '\n'] when [line.endswith('\n')]. *)
Definition keep_newline (line new_line : str) : str :=
  if endswith_nl line then new_line ++ [LF] else new_line.

(** The text [convert_line] builds once it has decided to convert. *)
Definition rewrite_rapid (line : str) : str :=
  let stripped := strip line in
  let new_line :=
    match Re.search Pat.has_g stripped with
    | Some _ => Re.sub Pat.g1_token G0_ stripped
    | None => G0_sp ++ stripped
    end in
  let new_line := Re.sub Pat.feed_token [] new_line in
  keep_newline line new_line.

Definition convert_line (self : GCodeConverter) (line : str)
  (st : MachineState) : str * bool :=
  let stripped := strip line in
  let parsed := parse_line stripped in
  match p_type parsed with
  | Empty => (line, false)
  | Command =>
      if negb (should_convert_to_rapid self parsed st) then (line, false)
      else (rewrite_rapid line, true)
  end.

(** An entry of [conversions]. *)
Record ConversionRecord : Type := mkConversion
  { cr_line_num : nat;
    cr_original : str;
    cr_converted : str;
    cr_z_position : Q }.

(** The variables of the loop of [convert_file]. *)
Record Pass : Type := mkPass
  { ps_self : GCodeConverter;
    output_lines : list str;
    conversions : list ConversionRecord;
    was_prev_line_converted : bool }.

(** [any(k in parsed for k in ['X', 'Y', 'Z', 'I', 'J', 'K'])] *)
Definition is_motion (parsed : Parsed) : bool :=
  is_some (pX parsed) || is_some (pY parsed) || is_some (pZ parsed)
  || is_some (pI parsed) || is_some (pJ parsed) || is_some (pK parsed).

(** [has_no_g_code] *)
Definition has_no_g_code (parsed : Parsed) : bool := negb (is_some (pG parsed)).

(** The pair [(new_line, line_for_execution)] and the flag [converted] that
    one iteration settles before it appends and executes. *)
Definition decide_line (self : GCodeConverter) (prev_converted : bool)
  (line : str) : str * str * bool :=
  let stripped_line := strip line in
  let '(new_line, converted) := convert_line self line (state (simulator self)) in
  let line_for_execution := if converted then new_line else line in
  if negb converted then
    let parsed := parse_line stripped_line in
    if is_motion parsed && has_no_g_code parsed && prev_converted then
      let new_line := keep_newline line (G1_sp ++ stripped_line) in
      (new_line, new_line, converted)
    else (new_line, line_for_execution, converted)
  else (new_line, line_for_execution, converted).

(** One iteration of the loop of [convert_file]. *)
Definition convert_step (ps : Pass) (numbered : nat * str) : Pass :=
  let '(line_num, line) := numbered in
  let self := ps_self ps in
  let '(new_line, line_for_execution, converted) :=
    decide_line self (was_prev_line_converted ps) line in
  let conversions' :=
    if converted
    then conversions ps ++
         [{| cr_line_num := line_num;
             cr_original := strip line;
             cr_converted := strip new_line;
             cr_z_position := z (state (simulator self)) |}]
    else conversions ps in
  let sim' := fst (execute_line (simulator self) line_for_execution) in
  {| ps_self := with_simulator sim' self;
     output_lines := output_lines ps ++ [new_line];
     conversions := conversions';
     was_prev_line_converted := converted |}.

(** [enumerate(lines, 1)] *)
Definition enumerate1 (lines : list str) : list (nat * str) :=
  combine (seq 1 (List.length lines)) lines.

Definition pass_start (self : GCodeConverter) : Pass :=
  {| ps_self := self; output_lines := []; conversions := [];
     was_prev_line_converted := false |}.

(** The loop of [convert_file] over the lines read from the input file. *)
Definition run_pass (self : GCodeConverter) (lines : list str) : Pass :=
  fold_left convert_step (enumerate1 lines) (pass_start self).

(** The dict [convert_file] returns. *)
Record Summary : Type := mkSummary
  { total_lines : nat;
    sm_conversions : list ConversionRecord;
    sm_move_history : list MoveRecord }.

(** [convert_file], from the lines [f.readlines()] gave to the lines handed
    to [f.writelines] (or dropped, on a dry run), with the converter after the
    pass and the summary. *)
Definition convert_file (self : GCodeConverter) (lines : list str)
  : GCodeConverter * list str * Summary :=
  let ps := run_pass self lines in
  (ps_self ps, output_lines ps,
   {| total_lines := List.length lines;
      sm_conversions := conversions ps;
      sm_move_history := move_history (simulator (ps_self ps)) |}).

(** The pieces of [execute_line] that the statements below name: the test
    [new_x != x or new_y != y or new_z != z], and the dict [move_info], both
    for the state [s] reached after the modal updates. *)
Definition displaced (parsed : Parsed) (s : MachineState) : bool :=
  negb (Qeq_bool (target_axis (absolute_mode s) (x s) (pX parsed)) (x s))
  || negb (Qeq_bool (target_axis (absolute_mode s) (y s) (pY parsed)) (y s))
  || negb (Qeq_bool (target_axis (absolute_mode s) (z s) (pZ parsed)) (z s)).

Definition move_of (rapid_rate : Q) (parsed : Parsed) (s : MachineState)
  : MoveRecord :=
  let new_x := target_axis (absolute_mode s) (x s) (pX parsed) in
  let new_y := target_axis (absolute_mode s) (y s) (pY parsed) in
  let new_z := target_axis (absolute_mode s) (z s) (pZ parsed) in
  let distance := distance3 (new_x - x s) (new_y - y s) (new_z - z s) in
  {| mv_type := match current_g s with Some 0%Z => rapid | _ => feed end;
     mv_from := (x s, y s, z s);
     mv_to := (new_x, new_y, new_z);
     mv_feed_rate := match current_g s with
                     | Some 0%Z => None
                     | _ => feed_rate s
                     end;
     mv_distance := distance;
     mv_time_s := time_in_seconds distance (rate_per_minute rapid_rate s) |}.

(* ================================================================= *)
(** ** The wording of the specification, where a statement compares with it *)

(** The elapsed time of a move as the specification words it:
    [(distance / rate) * 60], or 0 if rate is 0. *)
Definition spec_time_seconds (distance : R) (rate : Q) : R :=
  if Qeq_bool rate 0 then 0%R else (distance / Q2R rate * 60)%R.

(** The rate of a move as the specification words it: the rapid-traverse rate
    in mode 0, otherwise the current feed rate if set, else 1.0. *)
Definition spec_rate (rapid_rate : Q) (mode : option Z) (feed : option Q) : Q :=
  match mode with
  | Some 0%Z => rapid_rate
  | _ => match feed with Some f => f | None => 1 end
  end.

(** The line-ending style of a line: a final ["\r\n"], ["\n"] or ["\r"], or
    none for a bare line. *)
Definition line_ending (s : str) : str :=
  match rev s with
  | c1 :: c2 :: _ =>
      if chr_eqb c1 LF
      then if chr_eqb c2 CR then [CR; LF] else [LF]
      else if chr_eqb c1 CR then [CR] else []
  | [c1] => if chr_eqb c1 LF then [LF] else if chr_eqb c1 CR then [CR] else []
  | [] => []
  end.

(** The loop of [convert_file] resumed from the pass state [ps], the next line
    having the number [start]. *)
Definition run_from (ps : Pass) (start : nat) (lines : list str) : Pass :=
  fold_left convert_step (combine (seq start (List.length lines)) lines) ps.

(** The text with [G1 ] injected that the loop builds for [line]. *)
Definition inject_g1 (line : str) : str :=
  (s2l "G1 " ++ strip line) ++ (if endswith_nl line then [LF] else []).

(** The last character of a text is white space. *)
Definition ends_space (s : str) : bool :=
  match rev s with
  | c :: _ => isspace c
  | [] => false
  end.

(** A pattern without [\b]: its matches do not look at the character before. *)
Fixpoint no_wordb (p : pattern) : bool :=
  match p with
  | [] => true
  | WordB :: _ => false
  | _ :: p' => no_wordb p'
  end.

(** A pattern with an item that takes exactly one or at least one character:
    it has no empty match. *)
Fixpoint consumes (p : pattern) : bool :=
  match p with
  | [] => false
  | Cls _ One _ :: _ => true
  | Cls _ Plus _ :: _ => true
  | _ :: p' => consumes p'
  end.

(** What the loop can emit for a line: the line itself, its rewriting as a
    rapid, or the line with [G1 ] injected. *)
Definition emitted (line out : str) : Prop :=
  out = line \/ out = rewrite_rapid line \/ out = inject_g1 line.

(* ================================================================= *)
(** ** Tactics *)

(** Evaluation of a run on a concrete text, leaving the real-valued
    expressions of distances and times folded. *)
Ltac run_line :=
  cbv -[distance3 time_in_seconds spec_time_seconds Q2R sqrt IZR
       Rplus Rmult Rminus Rdiv Rinv Ropp].

(* ================================================================= *)
(** ** Lines of a given shape *)

(** The text of an unsigned decimal number: the digits [ip], and the digits
    [fp] after a point when there are any. *)
Definition decimal_text (ip fp : str) : str :=
  match fp with
  | [] => ip
  | _ => ip ++ "."%char :: fp
  end.

Definition all_digits (t : str) : bool := forallb isdigit t.

(** [\d*\.?\d+], captured: the number pattern after its optional sign. *)
Definition number_tail : pattern :=
  [Cls true Star isdigit; Cls true Opt (lit "."); Cls true Plus isdigit].


(* ================================================================= *)
(** ** Callers of [execute_line], and what the statements measure *)

(** [execute_line] called on each line in turn, as a driver of the simulator
    does: the simulator after the last line. *)
Definition run_lines (self : GCodeSimulator) (lines : list str) : GCodeSimulator :=
  fold_left (fun sim line => fst (execute_line sim line)) lines self.

(** The record a call returned, as the list of what it appended. *)
Definition appended (info : option MoveRecord) : list MoveRecord :=
  match info with
  | Some mv => [mv]
  | None => []
  end.

(** The ['time_s'] of the records of a history added one after the other to
    the time [t0], in the order of the history. *)
Definition add_times (t0 : R) (h : list MoveRecord) : R :=
  fold_left (fun acc mv => (acc + mv_time_s mv)%R) h t0.

(** A history whose moves follow one another from the point [start] to the
    point [cur], under the equality [same] of points: each move starts where
    the one before ended. *)
Fixpoint chained (same : Q * Q * Q -> Q * Q * Q -> Prop) (start : Q * Q * Q)
  (h : list MoveRecord) (cur : Q * Q * Q) : Prop :=
  match h with
  | [] => same start cur
  | mv :: h' => same start (mv_from mv) /\ chained same (mv_to mv) h' cur
  end.

(** Two points with the same X and Y; two points with the same coordinates. *)
Definition same_xy (a b : Q * Q * Q) : Prop :=
  fst (fst a) = fst (fst b) /\ snd (fst a) = snd (fst b).

Definition same_xyz (a b : Q * Q * Q) : Prop := a = b.

Definition position (s : MachineState) : Q * Q * Q := (x s, y s, z s).

(** A line whose G code, when it has one, is no motion code. *)
Definition no_motion_code (line : str) : Prop :=
  match pG (parse_line line) with
  | Some g => is_motion_code g = false
  | None => True
  end.

(** The relation between a simulator and a later one: the history has grown
    at its end, and the time by the times of the new records. *)
Definition grown (self later : GCodeSimulator) (new : list MoveRecord) : Prop :=
  move_history later = move_history self ++ new
  /\ total_time_seconds (state later)
     = add_times (total_time_seconds (state self)) new
  /\ rapid_traverse_rate later = rapid_traverse_rate self.

(* ================================================================= *)
(** ** What the pass records *)

(** What the conversion record [r] says, for the loop resumed from [ps] with
    the line number [n] on the lines [ls], [outs] being the lines written at
    the end: its line number points at a line of [ls]; the line written in its
    place is the rewriting of that line; [original] and [converted] are the
    two, stripped; [z_position] is the Z the simulator had reached before the
    line, at or above the safe height, as is the Z the line moves to; the
    line is a command with a coordinate whose G code is 1 or absent. *)
Definition record_at (ps : Pass) (n : nat) (ls outs : list str)
  (r : ConversionRecord) : Prop :=
  (n <= cr_line_num r)%nat
  /\ exists line : str,
       nth_error ls (cr_line_num r - n) = Some line
       /\ nth_error outs (List.length (output_lines ps) + (cr_line_num r - n))
          = Some (rewrite_rapid line)
       /\ cr_original r = strip line
       /\ cr_converted r = strip (rewrite_rapid line)
       /\ cr_z_position r
          = z (state (simulator (ps_self
                 (run_from ps n (firstn (cr_line_num r - n) ls)))))
       /\ z_safe (ps_self ps) <= cr_z_position r
       /\ z_safe (ps_self ps)
          <= target_z (parse_line line)
               (state (simulator (ps_self
                  (run_from ps n (firstn (cr_line_num r - n) ls)))))
       /\ p_type (parse_line line) = Command
       /\ has_xyz (parse_line line) = true
       /\ (pG (parse_line line) = Some 1%Z \/ pG (parse_line line) = None).

(** The line numbers of a list of records. *)
Definition line_numbers (rs : list ConversionRecord) : list nat :=
  map cr_line_num rs.

(* ================================================================= *)
(** ** The text [parse_line] reads its words from *)

(** The line after [strip], the removal of the comments, and [strip] again:
    the value of the variable [line] where [parse_line] tests it for
    emptiness and searches it. *)
Definition clean (line0 : str) : str :=
  strip (Re.sub Pat.semi_comment [] (Re.sub Pat.paren_comment [] (strip line0))).

(** A text without the letter [u], in either case. *)
Definition lacks (u : ascii) (line : str) : Prop :=
  Forall (fun c => ci u c = false) line.

(** A text without the characters that open a comment. *)
Definition no_comment (line : str) : Prop :=
  Forall (fun c => lit "(" c = false /\ lit ";" c = false) line.

(** A text at which a run of digits stops: the end, or a character that is
    no digit; and one at which a number stops: neither a digit nor a point. *)
Definition stops_digits (tail : str) : Prop :=
  match tail with
  | [] => True
  | c :: _ => isdigit c = false
  end.

Definition stops_number (tail : str) : Prop :=
  match tail with
  | [] => True
  | c :: _ => isdigit c = false /\ lit "." c = false
  end.

(** A text that [lstrip] keeps whole. *)
Definition starts_dense (s : str) : Prop :=
  match s with
  | [] => True
  | c :: _ => isspace c = false
  end.




(* ================================================================= *)
(** ** The lines [convert_line] is written for *)

(** A pattern with its group marks removed, and a match with its group
    forgotten. *)
Definition uncap_item (i : item) : item :=
  match i with
  | Cls _ q c => Cls false q c
  | WordB => WordB
  | EndS => EndS
  end.

Definition uncap (p : pattern) : pattern := map uncap_item p.

Definition erase (m : rmatch) : rmatch :=
  {| m_text := m_text m; m_group := []; m_rest := m_rest m |}.

(** A text that begins with white space. *)
Definition starts_space (s : str) : Prop :=
  match s with
  | c :: _ => isspace c = true
  | [] => False
  end.

(** The feed word at the end of a line, with the white space before it: none;
    or [F], in either case, with an optionally signed decimal. *)
Inductive feed_word : str -> Prop :=
| feed_word_none : feed_word []
| feed_word_some (sp : str) (f : ascii) (sgn ip fp : str) :
    forallb isspace sp = true ->
    ci "F" f = true ->
    sgn = [] \/ sgn = ["+"%char] \/ sgn = ["-"%char] ->
    ip <> [] -> all_digits ip = true -> all_digits fp = true ->
    feed_word (sp ++ f :: sgn ++ decimal_text ip fp).


(* ================================================================= *)
(** ** What the simulator reads *)

(** Two states that agree on all that is not the units, the plane and the
    work coordinate system. *)
Definition motion_equiv (s1 s2 : MachineState) : Prop :=
  x s1 = x s2 /\ y s1 = y s2 /\ z s1 = z s2
  /\ current_g s1 = current_g s2
  /\ feed_rate s1 = feed_rate s2
  /\ spindle_speed s1 = spindle_speed s2
  /\ absolute_mode s1 = absolute_mode s2
  /\ total_time_seconds s1 = total_time_seconds s2.

(** Two parses with the same G, X, Y, Z, F and S words. *)
Definition same_motion_words (p1 p2 : Parsed) : Prop :=
  pG p1 = pG p2 /\ pX p1 = pX p2 /\ pY p1 = pY p2 /\ pZ p1 = pZ p2
  /\ pF p1 = pF p2 /\ pS p1 = pS p2.

(* ================================================================= *)
(** ** [execute_line] on floats with their special values *)

(** The embedding above takes the numbers of the program as exact.  A Python
    float is also one of two infinities or NaN, [float] of a literal beyond
    the range of a double is an infinity, and [**] raises [OverflowError]
    where the other operations return one.  The module [Fl] embeds
    [execute_line] again on numbers with these values: a finite number is a
    real (the rounding of a result inside the range is left out, as above),
    a result whose magnitude reaches [huge] is an infinity, and the
    operations on infinities and NaN are those of IEEE 754, with Python's
    exceptions.  Signed zeros are not told apart. *)

Module Fl.

Inductive num : Type :=
| Fin (r : R)
| PInf
| NInf
| NaN.

Inductive exn : Type := OverflowError | ZeroDivisionError.

(** What a call does: it returns, or it raises. *)
Inductive outcome (A : Type) : Type :=
| Ok (a : A)
| Raised (e : exn).

Arguments Ok {A} a.
Arguments Raised {A} e.

(** The least magnitude that rounds to an infinity: half an ulp above the
    largest double, [2^1024 - 2^970]. *)
Definition huge : R := IZR (2 ^ 1024 - 2 ^ 970).

(** The float of an exact result. *)
Definition round (r : R) : num :=
  if Rle_dec huge r then PInf
  else if Rle_dec r (- huge) then NInf
  else Fin r.

(** [float(text)], from the exact value of the literal. *)
Definition of_Q (q : Q) : num := round (Q2R q).

(** [a + b] *)
Definition add (a b : num) : num :=
  match a with
  | NaN => NaN
  | PInf => match b with NaN | NInf => NaN | _ => PInf end
  | NInf => match b with NaN | PInf => NaN | _ => NInf end
  | Fin r => match b with Fin s => round (r + s) | _ => b end
  end.

Definition neg (a : num) : num :=
  match a with
  | Fin r => Fin (- r)
  | PInf => NInf
  | NInf => PInf
  | NaN => NaN
  end.

(** [a - b] *)
Definition sub (a b : num) : num := add a (neg b).

(** An infinity times a finite number. *)
Definition scale_inf (positive : bool) (s : R) : num :=
  if Rlt_dec 0 s then (if positive then PInf else NInf)
  else if Rlt_dec s 0 then (if positive then NInf else PInf)
  else NaN.

(** [a * b] *)
Definition mul (a b : num) : num :=
  match a with
  | NaN => NaN
  | PInf => match b with
            | NaN => NaN | PInf => PInf | NInf => NInf
            | Fin s => scale_inf true s
            end
  | NInf => match b with
            | NaN => NaN | PInf => NInf | NInf => PInf
            | Fin s => scale_inf false s
            end
  | Fin r => match b with
             | NaN => NaN
             | PInf => scale_inf true r
             | NInf => scale_inf false r
             | Fin s => round (r * s)
             end
  end.

(** [a / b]: a zero divisor raises, whatever [a] is. *)
Definition div (a b : num) : outcome num :=
  match b with
  | NaN => Ok NaN
  | PInf | NInf => match a with Fin _ => Ok (Fin 0) | _ => Ok NaN end
  | Fin s =>
      if Req_EM_T s 0 then Raised ZeroDivisionError
      else match a with
           | NaN => Ok NaN
           | PInf => Ok (scale_inf true s)
           | NInf => Ok (scale_inf false s)
           | Fin r => Ok (round (r / s))
           end
  end.

(** [a ** 2]: a finite square beyond the range raises. *)
Definition sqr (a : num) : outcome num :=
  match a with
  | NaN => Ok NaN
  | PInf | NInf => Ok PInf
  | Fin r => if Rle_dec huge (r * r) then Raised OverflowError
             else Ok (Fin (r * r))
  end.

(** [a ** 0.5], for the sum of squares it is applied to. *)
Definition root (a : num) : num :=
  match a with
  | NaN => NaN
  | PInf | NInf => PInf
  | Fin r => Fin (sqrt r)
  end.

(** [a > b], [a >= b] and [a != b]: a comparison with NaN is false, except
    [!=]. *)
Definition gt (a b : num) : bool :=
  match a, b with
  | NaN, _ | _, NaN => false
  | NInf, _ | _, PInf => false
  | PInf, _ | _, NInf => true
  | Fin r, Fin s => if Rlt_dec s r then true else false
  end.

Definition ge (a b : num) : bool :=
  match a, b with
  | NaN, _ | _, NaN => false
  | PInf, _ | _, NInf => true
  | NInf, _ | _, PInf => false
  | Fin r, Fin s => if Rle_dec s r then true else false
  end.

Definition ne (a b : num) : bool :=
  match a, b with
  | NaN, _ | _, NaN => true
  | PInf, PInf | NInf, NInf => false
  | Fin r, Fin s => if Req_EM_T r s then false else true
  | _, _ => true
  end.

Record MachineState : Type := mkState
  { x : num;
    y : num;
    z : num;
    current_g : option Z;
    feed_rate : option num;
    spindle_speed : option Z;
    absolute_mode : bool;
    units_mm : bool;
    plane : Plane;
    work_coordinate : WorkCoordinate;
    total_time_seconds : num }.

(** [MachineState()] *)
Definition MachineState_default : MachineState :=
  {| x := Fin 0; y := Fin 0; z := Fin 0;
     current_g := None; feed_rate := None; spindle_speed := None;
     absolute_mode := true; units_mm := true;
     plane := XY; work_coordinate := G54;
     total_time_seconds := Fin 0 |}.

Definition set_xyz (nx ny nz : num) (s : MachineState) : MachineState :=
  mkState nx ny nz (current_g s) (feed_rate s) (spindle_speed s)
    (absolute_mode s) (units_mm s) (plane s) (work_coordinate s)
    (total_time_seconds s).

Definition set_z (v : num) (s : MachineState) : MachineState :=
  set_xyz (x s) (y s) v s.

Definition set_current_g (g : Z) (s : MachineState) : MachineState :=
  mkState (x s) (y s) (z s) (Some g) (feed_rate s) (spindle_speed s)
    (absolute_mode s) (units_mm s) (plane s) (work_coordinate s)
    (total_time_seconds s).

Definition set_feed_rate (f : num) (s : MachineState) : MachineState :=
  mkState (x s) (y s) (z s) (current_g s) (Some f) (spindle_speed s)
    (absolute_mode s) (units_mm s) (plane s) (work_coordinate s)
    (total_time_seconds s).

Definition set_spindle_speed (v : Z) (s : MachineState) : MachineState :=
  mkState (x s) (y s) (z s) (current_g s) (feed_rate s) (Some v)
    (absolute_mode s) (units_mm s) (plane s) (work_coordinate s)
    (total_time_seconds s).

Definition set_absolute_mode (b : bool) (s : MachineState) : MachineState :=
  mkState (x s) (y s) (z s) (current_g s) (feed_rate s) (spindle_speed s)
    b (units_mm s) (plane s) (work_coordinate s) (total_time_seconds s).

Definition set_units_mm (b : bool) (s : MachineState) : MachineState :=
  mkState (x s) (y s) (z s) (current_g s) (feed_rate s) (spindle_speed s)
    (absolute_mode s) b (plane s) (work_coordinate s) (total_time_seconds s).

Definition set_plane (p : Plane) (s : MachineState) : MachineState :=
  mkState (x s) (y s) (z s) (current_g s) (feed_rate s) (spindle_speed s)
    (absolute_mode s) (units_mm s) p (work_coordinate s)
    (total_time_seconds s).

Definition set_work_coordinate (w : WorkCoordinate) (s : MachineState)
  : MachineState :=
  mkState (x s) (y s) (z s) (current_g s) (feed_rate s) (spindle_speed s)
    (absolute_mode s) (units_mm s) (plane s) w (total_time_seconds s).

Definition set_total_time_seconds (t : num) (s : MachineState) : MachineState :=
  mkState (x s) (y s) (z s) (current_g s) (feed_rate s) (spindle_speed s)
    (absolute_mode s) (units_mm s) (plane s) (work_coordinate s) t.

(** The dict [move_info]. *)
Record MoveRecord : Type := mkMove
  { mv_type : MoveType;
    mv_from : num * num * num;
    mv_to : num * num * num;
    mv_feed_rate : option num;
    mv_distance : num;
    mv_time_s : num }.

Record GCodeSimulator : Type := mkSim
  { state : MachineState;
    move_history : list MoveRecord;
    rapid_traverse_rate : num }.

(** [GCodeSimulator(rapid_rate)] *)
Definition GCodeSimulator_init (rapid_rate : num) : GCodeSimulator :=
  {| state := MachineState_default;
     move_history := [];
     rapid_traverse_rate := rapid_rate |}.

Definition with_state (s : MachineState) (self : GCodeSimulator)
  : GCodeSimulator :=
  mkSim s (move_history self) (rapid_traverse_rate self).

(** [self.state.current_g in [0, 1, 2, 3]] *)
Definition in_motion_mode (s : MachineState) : bool :=
  match current_g s with
  | Some g => is_motion_code g
  | None => false
  end.

(** The [if]/[elif] chain on [parsed['G']]. *)
Definition update_modal (g : Z) (s : MachineState) : MachineState :=
  if is_motion_code g then set_current_g g s
  else if (g =? 90)%Z then set_absolute_mode true s
  else if (g =? 91)%Z then set_absolute_mode false s
  else if (g =? 21)%Z then set_units_mm true s
  else if (g =? 20)%Z then set_units_mm false s
  else if (g =? 17)%Z then set_plane XY s
  else if (g =? 18)%Z then set_plane XZ s
  else if (g =? 19)%Z then set_plane YZ s
  else if (g =? 54)%Z then set_work_coordinate G54 s
  else if (g =? 55)%Z then set_work_coordinate G55 s
  else if (g =? 56)%Z then set_work_coordinate G56 s
  else if (g =? 57)%Z then set_work_coordinate G57 s
  else if (g =? 58)%Z then set_work_coordinate G58 s
  else if (g =? 59)%Z then set_work_coordinate G59 s
  else s.

(** The state after the three modal updates of [execute_line]; the feed rate
    of the line is the float of its word. *)
Definition apply_settings (parsed : Parsed) (s : MachineState) : MachineState :=
  let s := match pG parsed with Some g => update_modal g s | None => s end in
  let s := match pF parsed with Some f => set_feed_rate (of_Q f) s | None => s end in
  match pS parsed with Some v => set_spindle_speed v s | None => s end.

(** [parsed[axis] if absolute_mode else cur + parsed[axis]], or [cur] when the
    axis is absent. *)
Definition target_axis (absolute : bool) (cur : num) (field : option Q) : num :=
  match field with
  | Some v => if absolute then of_Q v else add cur (of_Q v)
  | None => cur
  end.

(** [rate_per_minute], for the state [s] after the modal updates. *)
Definition rate_per_minute (rapid_rate : num) (s : MachineState) : num :=
  match current_g s with
  | Some g =>
      if (g =? 0)%Z then rapid_rate
      else if ((g =? 1) || (g =? 2) || (g =? 3))%Z
           then match feed_rate s with Some f => f | None => Fin 1 end
           else Fin 0
  | None => Fin 0
  end.

(** [(dx**2 + dy**2 + dz**2)**0.5] *)
Definition distance3 (dx dy dz : num) : outcome num :=
  match sqr dx with
  | Raised e => Raised e
  | Ok dx2 =>
      match sqr dy with
      | Raised e => Raised e
      | Ok dy2 =>
          match sqr dz with
          | Raised e => Raised e
          | Ok dz2 => Ok (root (add (add dx2 dy2) dz2))
          end
      end
  end.

(** [distance / rate_per_minute if rate_per_minute > 0 else 0.0] *)
Definition time_in_minutes (distance rate : num) : outcome num :=
  if gt rate (Fin 0) then div distance rate else Ok (Fin 0).

(** [GCodeSimulator.execute_line]: the simulator after the line and the
    [move_info] it returns, or the exception it raises. *)
Definition execute_line (self : GCodeSimulator) (line : str)
  : outcome (GCodeSimulator * option MoveRecord) :=
  let parsed := parse_line line in
  match probe_z parsed with
  | Some v => Ok (with_state (set_z (of_Q v) (state self)) self, None)
  | None =>
      let s := apply_settings parsed (state self) in
      if in_motion_mode s then
        let new_x := target_axis (absolute_mode s) (x s) (pX parsed) in
        let new_y := target_axis (absolute_mode s) (y s) (pY parsed) in
        let new_z := target_axis (absolute_mode s) (z s) (pZ parsed) in
        if ne new_x (x s) || ne new_y (y s) || ne new_z (z s) then
          match distance3 (sub new_x (x s)) (sub new_y (y s)) (sub new_z (z s)) with
          | Raised e => Raised e
          | Ok distance =>
              let rate := rate_per_minute (rapid_traverse_rate self) s in
              match time_in_minutes distance rate with
              | Raised e => Raised e
              | Ok minutes =>
                  let time_in_seconds := mul minutes (Fin 60) in
                  let s1 :=
                    set_total_time_seconds
                      (add (total_time_seconds s) time_in_seconds) s in
                  let move_info :=
                    {| mv_type := match current_g s with
                                  | Some 0%Z => rapid
                                  | _ => feed
                                  end;
                       mv_from := (x s, y s, z s);
                       mv_to := (new_x, new_y, new_z);
                       mv_feed_rate := match current_g s with
                                       | Some 0%Z => None
                                       | _ => feed_rate s
                                       end;
                       mv_distance := distance;
                       mv_time_s := time_in_seconds |} in
                  Ok (mkSim (set_xyz new_x new_y new_z s1)
                        (move_history self ++ [move_info])
                        (rapid_traverse_rate self),
                      Some move_info)
              end
          end
        else Ok (with_state s self, None)
      else Ok (with_state s self, None)
  end.

(** A number that is a float: finite inside the range, or a special value. *)
Definition valid (a : num) : Prop :=
  match a with
  | Fin r => (- huge < r < huge)%R
  | _ => True
  end.

(** A finite float. *)
Definition finite (a : num) : Prop :=
  match a with
  | Fin r => (- huge < r < huge)%R
  | _ => False
  end.

Definition finite_opt (o : option num) : Prop :=
  match o with
  | Some a => finite a
  | None => True
  end.

(** A state, and the numbers of a line, without infinity and NaN. *)
Definition finite_state (s : MachineState) : Prop :=
  finite (x s) /\ finite (y s) /\ finite (z s)
  /\ finite_opt (feed_rate s) /\ finite (total_time_seconds s).

Definition finite_words (parsed : Parsed) : Prop :=
  finite_opt (option_map of_Q (pX parsed))
  /\ finite_opt (option_map of_Q (pY parsed))
  /\ finite_opt (option_map of_Q (pZ parsed))
  /\ finite_opt (option_map of_Q (pF parsed)).

End Fl.

(** A number that is no negative number: a finite one from 0 on, the
    positive infinity, or NaN. *)
Definition not_neg (a : Fl.num) : Prop :=
  match a with
  | Fl.Fin r => (0 <= r)%R
  | Fl.NInf => False
  | _ => True
  end.

(** A number from 0 on, finite or not. *)
Definition from_zero (a : Fl.num) : Prop :=
  match a with
  | Fl.Fin r => (0 <= r)%R
  | Fl.PInf => True
  | _ => False
  end.

(** The line [G1 X99...9 F99...9], each number of 400 digits. *)
Definition overflowing_line : str :=
  s2l "G1 X" ++ repeat "9"%char 400 ++ s2l " F" ++ repeat "9"%char 400.

(* ================================================================= *)
(** ** Three lines in a row *)


(* ================================================================= *)
(** ** The simulator: frame lemmas and one line's effect *)

Section SimulatorFacts.

Variable self : GCodeSimulator.
Variable parsed : Parsed.

Lemma update_modal_position (g : Z) (s : MachineState) :
  x (update_modal g s) = x s /\ y (update_modal g s) = y s /\
  z (update_modal g s) = z s /\
  total_time_seconds (update_modal g s) = total_time_seconds s /\
  feed_rate (update_modal g s) = feed_rate s.
Proof.
  unfold update_modal.
  repeat match goal with
         | |- context [if ?b then _ else _] => destruct b
         end; simpl; auto.
Qed.

(** The modal updates move nothing and take no time. *)
Lemma apply_settings_position :
  x (apply_settings parsed (state self)) = x (state self)
  /\ y (apply_settings parsed (state self)) = y (state self)
  /\ z (apply_settings parsed (state self)) = z (state self)
  /\ total_time_seconds (apply_settings parsed (state self))
     = total_time_seconds (state self).
Proof.
  unfold apply_settings.
  destruct (pG parsed) as [g|]; destruct (pF parsed); destruct (pS parsed);
    simpl;
    try (destruct (update_modal_position g (state self)) as (? & ? & ? & ? & _));
    auto.
Qed.

(** A probe line only assigns Z. *)
Lemma execute_parsed_probe (v : Q) :
  probe_z parsed = Some v ->
  execute_parsed self parsed = (with_state (set_z v (state self)) self, None).
Proof. unfold execute_parsed. now intros ->. Qed.

(** A line that is no probe and does not move leaves only the settings. *)
Lemma execute_parsed_still :
  probe_z parsed = None ->
  in_motion_mode (apply_settings parsed (state self))
  && displaced parsed (apply_settings parsed (state self)) = false ->
  execute_parsed self parsed
  = (with_state (apply_settings parsed (state self)) self, None).
Proof.
  unfold execute_parsed, displaced. intros -> H.
  destruct (in_motion_mode (apply_settings parsed (state self)));
    [|reflexivity].
  simpl in H. now rewrite H.
Qed.

(** A line that moves: the state, the history and the returned record. *)
Lemma execute_parsed_move :
  probe_z parsed = None ->
  in_motion_mode (apply_settings parsed (state self)) = true ->
  displaced parsed (apply_settings parsed (state self)) = true ->
  forall mv : MoveRecord,
    mv = move_of (rapid_traverse_rate self) parsed
           (apply_settings parsed (state self)) ->
    execute_parsed self parsed
    = (mkSim (set_xyz (fst (fst (mv_to mv))) (snd (fst (mv_to mv)))
                (snd (mv_to mv))
                (set_total_time_seconds
                   (total_time_seconds (apply_settings parsed (state self))
                    + mv_time_s mv)%R
                   (apply_settings parsed (state self))))
             (move_history self ++ [mv])
             (rapid_traverse_rate self),
       Some mv).
Proof.
  unfold execute_parsed, displaced. intros -> Hm Hd mv ->.
  rewrite Hm, Hd. reflexivity.
Qed.

(** The three ways a line can go. *)
Lemma execute_parsed_cases :
  (exists v : Q,
      probe_z parsed = Some v
      /\ execute_parsed self parsed
         = (with_state (set_z v (state self)) self, None))
  \/ (probe_z parsed = None
      /\ in_motion_mode (apply_settings parsed (state self))
         && displaced parsed (apply_settings parsed (state self)) = false
      /\ execute_parsed self parsed
         = (with_state (apply_settings parsed (state self)) self, None))
  \/ (probe_z parsed = None
      /\ in_motion_mode (apply_settings parsed (state self)) = true
      /\ displaced parsed (apply_settings parsed (state self)) = true
      /\ execute_parsed self parsed
         = (mkSim (set_xyz
                     (fst (fst (mv_to (move_of (rapid_traverse_rate self) parsed
                                         (apply_settings parsed (state self))))))
                     (snd (fst (mv_to (move_of (rapid_traverse_rate self) parsed
                                         (apply_settings parsed (state self))))))
                     (snd (mv_to (move_of (rapid_traverse_rate self) parsed
                                    (apply_settings parsed (state self)))))
                     (set_total_time_seconds
                        (total_time_seconds (apply_settings parsed (state self))
                         + mv_time_s (move_of (rapid_traverse_rate self) parsed
                                        (apply_settings parsed (state self))))%R
                        (apply_settings parsed (state self))))
                  (move_history self
                   ++ [move_of (rapid_traverse_rate self) parsed
                         (apply_settings parsed (state self))])
                  (rapid_traverse_rate self),
            Some (move_of (rapid_traverse_rate self) parsed
                    (apply_settings parsed (state self))))).
Proof.
  destruct (probe_z parsed) as [v|] eqn:Hp.
  - left. exists v. split; [reflexivity|]. now apply execute_parsed_probe.
  - right.
    destruct (in_motion_mode (apply_settings parsed (state self))
              && displaced parsed (apply_settings parsed (state self))) eqn:Hmd.
    + right. apply andb_true_iff in Hmd as [Hm Hd].
      repeat (split; [assumption || reflexivity|]).
      now apply execute_parsed_move.
    + left. split; [reflexivity|]. split; [reflexivity|].
      now apply execute_parsed_still.
Qed.

End SimulatorFacts.

Lemma Qgtb_true (a b : Q) : Qgtb a b = true <-> b < a.
Proof.
  unfold Qgtb. rewrite negb_true_iff. split; intro H.
  - apply Qnot_le_lt. intro Hle. apply Qle_bool_iff in Hle. congruence.
  - destruct (Qle_bool a b) eqn:E; [|reflexivity].
    apply Qle_bool_iff in E. exfalso. exact (Qlt_not_le _ _ H E).
Qed.

Lemma Qgtb_false (a b : Q) : Qgtb a b = false <-> a <= b.
Proof.
  unfold Qgtb. rewrite negb_false_iff. apply Qle_bool_iff.
Qed.

Lemma Qgeb_true (a b : Q) : Qgeb a b = true <-> b <= a.
Proof. unfold Qgeb. apply Qle_bool_iff. Qed.

(* ================================================================= *)
(** ** C1 *)

(** C1. [should_convert_to_rapid] answers true exactly when the effective G
    (the line's own G, else the modal one) is 1, one of X, Y, Z is on the
    line, the current Z and the target Z (computed as the simulator computes
    it) are both at or above [z_safe], and one of: conservative mode and no Z
    on the line; a Z on the line with target Z >= current Z; aggressive mode. *)
Theorem should_convert_to_rapid_iff (self : GCodeConverter) (parsed : Parsed)
  (st : MachineState) :
  should_convert_to_rapid self parsed st = true <->
  (match pG parsed with Some g => Some g | None => current_g st end = Some 1%Z
   /\ (pX parsed <> None \/ pY parsed <> None \/ pZ parsed <> None)
   /\ z_safe self <= z st
   /\ z_safe self <= target_axis (absolute_mode st) (z st) (pZ parsed)
   /\ ((conservative self = true /\ pZ parsed = None)
       \/ (pZ parsed <> None
           /\ z st <= target_axis (absolute_mode st) (z st) (pZ parsed))
       \/ conservative self = false)).
Proof.
  unfold should_convert_to_rapid, effective_g, has_xyz, target_z, target_axis.
  set (tz := match pZ parsed with
             | Some v => if absolute_mode st then v else z st + v
             | None => z st
             end).
  set (eg := match pG parsed with Some g => Some g | None => current_g st end).
  assert (Hsome : forall (A : Type) (o : option A),
             is_some o = true <-> o <> None).
  { intros A [a|]; simpl; split; congruence. }
  split.
  - intro H.
    destruct eg as [g|]; [|discriminate].
    destruct g as [|p|p]; try discriminate.
    destruct p; try discriminate.
    split; [reflexivity|].
    destruct (is_some (pX parsed) || is_some (pY parsed) || is_some (pZ parsed))
      eqn:Hxyz; [|discriminate]. simpl in H.
    split.
    { rewrite !orb_true_iff, !Hsome in Hxyz. tauto. }
    destruct (Qgeb (z st) (z_safe self) && Qgeb tz (z_safe self)) eqn:Hsafe;
      [|discriminate].
    apply andb_true_iff in Hsafe as [Hs1 Hs2].
    apply Qgeb_true in Hs1. apply Qgeb_true in Hs2.
    split; [assumption|]. split; [assumption|].
    destruct (conservative self) eqn:Hc; [|now right; right].
    simpl in H.
    destruct (is_some (pZ parsed)) eqn:Hz; simpl in H.
    + right; left. split; [now apply Hsome|].
      destruct (Qgeb tz (z st)) eqn:Hup; [|discriminate].
      now apply Qgeb_true.
    + left. split; [reflexivity|]. destruct (pZ parsed); [discriminate|reflexivity].
  - intros (Hg & Hxyz & Hs1 & Hs2 & Hmode).
    rewrite Hg.
    assert (Hb : is_some (pX parsed) || is_some (pY parsed) || is_some (pZ parsed)
                 = true).
    { rewrite !orb_true_iff, !Hsome. tauto. }
    rewrite Hb. simpl.
    apply Qgeb_true in Hs1. apply Qgeb_true in Hs2. rewrite Hs1, Hs2. simpl.
    destruct Hmode as [[Hc Hz]|[[Hz Hup]|Hc]].
    + rewrite Hc. subst tz. rewrite Hz. reflexivity.
    + apply Hsome in Hz. rewrite Hz. apply Qgeb_true in Hup. rewrite Hup.
      simpl. destruct (conservative self); reflexivity.
    + rewrite Hc. simpl.
      destruct (is_some (pZ parsed) && Qgeb tz (z st)); reflexivity.
Qed.

Lemma Q2R_int (n : Z) : Q2R (n # 1) = IZR n.
Proof. unfold Q2R. simpl. lra. Qed.

Lemma time_in_seconds_pos (d : R) (rate : Q) :
  0 < rate -> time_in_seconds d rate = (d / Q2R rate * 60)%R.
Proof.
  intro H. unfold time_in_seconds.
  apply Qgtb_true in H. now rewrite H.
Qed.

Lemma time_in_seconds_nonpos (d : R) (rate : Q) :
  rate <= 0 -> time_in_seconds d rate = 0%R.
Proof.
  intro H. unfold time_in_seconds.
  apply Qgtb_false in H. rewrite H. lra.
Qed.

(** In a motion mode the rate of the source is the rate the specification
    describes. *)
Lemma rate_per_minute_spec (rapid_rate : Q) (s : MachineState) :
  in_motion_mode s = true ->
  rate_per_minute rapid_rate s = spec_rate rapid_rate (current_g s) (feed_rate s).
Proof.
  unfold in_motion_mode, rate_per_minute, spec_rate, is_motion_code.
  destruct (current_g s) as [g|]; [|discriminate].
  intro H. destruct (g =? 0)%Z eqn:E0.
  - apply Z.eqb_eq in E0. now subst g.
  - simpl in H. rewrite H.
    destruct g as [|p|p]; [discriminate| |]; reflexivity.
Qed.

Lemma distance3_3_4_0 : distance3 3 4 0 = 5%R.
Proof.
  unfold distance3.
  rewrite (Qeq_eqR _ (25 # 1)) by reflexivity.
  rewrite Q2R_int.
  apply sqrt_lem_1; lra.
Qed.

(* ================================================================= *)
(** ** C5 *)

(** C5. A line whose parse has G = 10 and a Z field sets the state's Z to the
    parsed value, whatever the coordinate mode, and changes nothing else: no
    modal setting, feed rate or spindle speed, no X or Y, no time; it returns
    no move and appends nothing to the move history. *)
Theorem execute_line_probe_frame (self : GCodeSimulator) (line : str) (v : Q) :
  pG (parse_line line) = Some 10%Z ->
  pZ (parse_line line) = Some v ->
  snd (execute_line self line) = None
  /\ z (state (fst (execute_line self line))) = v
  /\ x (state (fst (execute_line self line))) = x (state self)
  /\ y (state (fst (execute_line self line))) = y (state self)
  /\ current_g (state (fst (execute_line self line))) = current_g (state self)
  /\ feed_rate (state (fst (execute_line self line))) = feed_rate (state self)
  /\ spindle_speed (state (fst (execute_line self line)))
     = spindle_speed (state self)
  /\ absolute_mode (state (fst (execute_line self line)))
     = absolute_mode (state self)
  /\ units_mm (state (fst (execute_line self line))) = units_mm (state self)
  /\ plane (state (fst (execute_line self line))) = plane (state self)
  /\ work_coordinate (state (fst (execute_line self line)))
     = work_coordinate (state self)
  /\ total_time_seconds (state (fst (execute_line self line)))
     = total_time_seconds (state self)
  /\ move_history (fst (execute_line self line)) = move_history self
  /\ rapid_traverse_rate (fst (execute_line self line))
     = rapid_traverse_rate self.
Proof.
  intros HG HZ. unfold execute_line.
  rewrite (execute_parsed_probe self (parse_line line) v).
  - simpl. repeat split.
  - unfold probe_z. now rewrite HG, HZ.
Qed.

Lemma execute_line_probe_frame_witness :
  let self := fst (execute_line (GCodeSimulator_init 5000) (s2l "G91 G1 X3 F600")) in
  let after := fst (execute_line self (s2l "G10 L20 P1 Z-1.5")) in
  z (state after) = -1.5 /\ x (state after) = x (state self)
  /\ absolute_mode (state after) = absolute_mode (state self)
  /\ total_time_seconds (state after) = total_time_seconds (state self)
  /\ move_history after = move_history self.
Proof.
  intros self after.
  destruct (execute_line_probe_frame self (s2l "G10 L20 P1 Z-1.5") (-1.5)
              eq_refl eq_refl)
    as (_ & Hz & Hx & _ & _ & _ & _ & Ha & _ & _ & _ & Ht & Hh & _).
  repeat split; assumption.
Defined.

(* ================================================================= *)
(** ** C4 *)

(** What a line that moves leaves behind, in terms of [move_of]. *)
Lemma execute_line_move (self : GCodeSimulator) (line : str) :
  probe_z (parse_line line) = None ->
  in_motion_mode (apply_settings (parse_line line) (state self)) = true ->
  displaced (parse_line line) (apply_settings (parse_line line) (state self)) = true ->
  let s := apply_settings (parse_line line) (state self) in
  let mv := move_of (rapid_traverse_rate self) (parse_line line) s in
  snd (execute_line self line) = Some mv
  /\ move_history (fst (execute_line self line)) = move_history self ++ [mv]
  /\ (x (state (fst (execute_line self line))),
      y (state (fst (execute_line self line))),
      z (state (fst (execute_line self line)))) = mv_to mv
  /\ (x (state self), y (state self), z (state self)) = mv_from mv
  /\ current_g (state (fst (execute_line self line))) = current_g s
  /\ feed_rate (state (fst (execute_line self line))) = feed_rate s
  /\ total_time_seconds (state (fst (execute_line self line)))
     = (total_time_seconds (state self) + mv_time_s mv)%R.
Proof.
  intros Hp Hm Hd s mv. unfold execute_line.
  rewrite (execute_parsed_move self (parse_line line) Hp Hm Hd mv eq_refl).
  destruct (apply_settings_position self (parse_line line)) as (Hx & Hy & Hz & Ht).
  fold s in Hx, Hy, Hz, Ht. fold s. fold mv.
  cbn [fst snd state move_history]. repeat split.
  - unfold mv, move_of. cbn [mv_from]. now rewrite Hx, Hy, Hz.
  - cbn. now rewrite Ht.
Qed.

(** C4, amended. For every executed motion line with net displacement a
    MoveRecord is emitted whose distance is the Euclidean norm of the per-axis
    deltas; the rate is the rapid-traverse rate in mode 0, otherwise the
    current feed rate if set, else 1.0; the elapsed time is
    [(distance / rate) * 60] when the rate is positive and 0 when the rate is
    zero or negative; that time is added to [total_time_seconds]. In
    particular a feed move from (0,0,0) to (3,4,0) at feed rate 600 has
    distance 5 and takes 0.5 seconds. *)
Theorem execute_line_distance_time :
  (forall (self : GCodeSimulator) (line : str),
      probe_z (parse_line line) = None ->
      in_motion_mode (apply_settings (parse_line line) (state self)) = true ->
      displaced (parse_line line) (apply_settings (parse_line line) (state self))
      = true ->
      exists mv x0 y0 z0 x1 y1 z1,
        snd (execute_line self line) = Some mv
        /\ mv_from mv = (x0, y0, z0) /\ mv_to mv = (x1, y1, z1)
        /\ (x (state self), y (state self), z (state self)) = (x0, y0, z0)
        /\ (x (state (fst (execute_line self line))),
            y (state (fst (execute_line self line))),
            z (state (fst (execute_line self line)))) = (x1, y1, z1)
        /\ mv_distance mv
           = sqrt (Q2R ((x1 - x0) ^ 2 + (y1 - y0) ^ 2 + (z1 - z0) ^ 2))
        /\ (let rate :=
              spec_rate (rapid_traverse_rate self)
                (current_g (state (fst (execute_line self line))))
                (feed_rate (state (fst (execute_line self line)))) in
            (0 < rate -> mv_time_s mv = (mv_distance mv / Q2R rate * 60)%R)
            /\ (rate <= 0 -> mv_time_s mv = 0%R))
        /\ total_time_seconds (state (fst (execute_line self line)))
           = (total_time_seconds (state self) + mv_time_s mv)%R)
  /\ (forall rapid_rate : Q,
         exists mv,
           snd (execute_line (GCodeSimulator_init rapid_rate) (s2l "G1 X3 Y4 F600"))
           = Some mv
           /\ mv_type mv = feed /\ mv_feed_rate mv = Some 600
           /\ mv_from mv = (0, 0, 0) /\ mv_to mv = (3, 4, 0)
           /\ mv_distance mv = 5%R /\ mv_time_s mv = (1 / 2)%R).
Proof.
  split.
  - intros self line Hp Hm Hd.
    destruct (execute_line_move self line Hp Hm Hd)
      as (Hmv & _ & Hto & Hfrom & Hg & Hf & Ht).
    set (s := apply_settings (parse_line line) (state self)) in *.
    set (mv := move_of (rapid_traverse_rate self) (parse_line line) s) in *.
    exists mv, (x s), (y s), (z s),
      (target_axis (absolute_mode s) (x s) (pX (parse_line line))),
      (target_axis (absolute_mode s) (y s) (pY (parse_line line))),
      (target_axis (absolute_mode s) (z s) (pZ (parse_line line))).
    split; [exact Hmv|]. split; [reflexivity|]. split; [reflexivity|].
    split; [exact Hfrom|]. split; [exact Hto|]. split; [reflexivity|].
    split; [|exact Ht].
    rewrite Hg, Hf, <- (rate_per_minute_spec (rapid_traverse_rate self) s Hm).
    split; intro Hr; unfold mv, move_of; cbn [mv_time_s mv_distance].
    + now apply time_in_seconds_pos.
    + now apply time_in_seconds_nonpos.
  - intro rapid_rate. run_line.
    eexists. split; [reflexivity|].
    cbn [mv_type mv_feed_rate mv_from mv_to mv_distance mv_time_s].
    repeat (split; [reflexivity|]).
    rewrite distance3_3_4_0. split; [reflexivity|].
    rewrite time_in_seconds_pos by reflexivity.
    rewrite Q2R_int. lra.
Qed.

(** A rapid from (0,0,0) to (3,4,0) at the default traverse rate: 5 units in
    0.06 seconds. *)
Lemma execute_line_distance_time_witness :
  exists mv x0 y0 z0 x1 y1 z1,
    snd (execute_line (GCodeSimulator_init 5000) (s2l "G0 X3 Y4")) = Some mv
    /\ mv_from mv = (x0, y0, z0) /\ mv_to mv = (x1, y1, z1)
    /\ mv_distance mv
       = sqrt (Q2R ((x1 - x0) ^ 2 + (y1 - y0) ^ 2 + (z1 - z0) ^ 2))
    /\ mv_time_s mv = (mv_distance mv / Q2R 5000 * 60)%R.
Proof.
  destruct (proj1 execute_line_distance_time (GCodeSimulator_init 5000)
              (s2l "G0 X3 Y4") eq_refl eq_refl eq_refl)
    as (mv & x0 & y0 & z0 & x1 & y1 & z1 & Hmv & Hfrom & Hto & _ & _ & Hd & Hr & _).
  exists mv, x0, y0, z0, x1, y1, z1.
  repeat (split; [assumption|]).
  apply (proj1 Hr). reflexivity.
Defined.

(** C4 as the specification words it fails on a negative feed rate: [F-600]
    is read as -600, the guard [rate_per_minute > 0] gives the time 0, and
    the formula [(distance / rate) * 60] gives -0.5 for a rate that is not 0. *)
Lemma negative_feed_rate_time :
  exists mv,
    snd (execute_line (GCodeSimulator_init 5000) (s2l "G1 X3 Y4 F-600")) = Some mv
    /\ spec_rate 5000
         (current_g (state (fst (execute_line (GCodeSimulator_init 5000)
                                   (s2l "G1 X3 Y4 F-600")))))
         (feed_rate (state (fst (execute_line (GCodeSimulator_init 5000)
                                   (s2l "G1 X3 Y4 F-600")))))
       = -600
    /\ mv_distance mv = 5%R
    /\ mv_time_s mv = 0%R
    /\ spec_time_seconds (mv_distance mv) (-600) = (- (1 / 2))%R
    /\ mv_time_s mv <> spec_time_seconds (mv_distance mv) (-600).
Proof.
  assert (E : spec_time_seconds 5 (-600) = (- (1 / 2))%R).
  { unfold spec_time_seconds.
    replace (Qeq_bool (-600) 0) with false by reflexivity.
    rewrite Q2R_int. lra. }
  run_line. eexists. split; [reflexivity|].
  cbn [mv_distance mv_time_s].
  split; [reflexivity|].
  rewrite distance3_3_4_0. split; [reflexivity|].
  rewrite time_in_seconds_nonpos by discriminate.
  split; [reflexivity|].
  rewrite E. split; [reflexivity|lra].
Qed.

(* ================================================================= *)
(** ** C8 *)

(** Whenever [execute_line] returns a record, the line was no probe and the
    record is [move_of] the state after the modal updates. *)
Lemma execute_line_emits (self : GCodeSimulator) (line : str) (mv : MoveRecord) :
  snd (execute_line self line) = Some mv ->
  probe_z (parse_line line) = None
  /\ in_motion_mode (apply_settings (parse_line line) (state self)) = true
  /\ displaced (parse_line line) (apply_settings (parse_line line) (state self))
     = true
  /\ mv = move_of (rapid_traverse_rate self) (parse_line line)
            (apply_settings (parse_line line) (state self)).
Proof.
  unfold execute_line. intro H.
  destruct (execute_parsed_cases self (parse_line line))
    as [(v & _ & E)|[(_ & _ & E)|(Hp & Hm & Hd & E)]].
  - rewrite E in H. discriminate.
  - rewrite E in H. discriminate.
  - rewrite E in H. injection H as <-. auto.
Qed.

(** C8, amended. Every MoveRecord stores null for a rapid (mode 0) and the
    state's current feed rate otherwise. So the field is null for every rapid,
    and also for a feed move executed while the feed rate has never been set:
    the fallback rate 1.0 then determines the time and is not recorded. When
    the feed rate is set, the field of a feed move is the rate used for the
    time. *)
Theorem move_record_feed_rate (self : GCodeSimulator) (line : str)
  (mv : MoveRecord) :
  snd (execute_line self line) = Some mv ->
  let after := state (fst (execute_line self line)) in
  (mv_type mv = rapid <-> current_g after = Some 0%Z)
  /\ (mv_type mv = rapid -> mv_feed_rate mv = None)
  /\ (mv_type mv = feed -> mv_feed_rate mv = feed_rate after)
  /\ (forall f : Q,
         mv_type mv = feed -> feed_rate after = Some f ->
         mv_feed_rate mv = Some f
         /\ mv_time_s mv = time_in_seconds (mv_distance mv) f)
  /\ (mv_type mv = feed -> feed_rate after = None ->
      mv_feed_rate mv = None
      /\ mv_time_s mv = time_in_seconds (mv_distance mv) 1).
Proof.
  intros H after.
  destruct (execute_line_emits self line mv H) as (Hp & Hm & Hd & ->).
  destruct (execute_line_move self line Hp Hm Hd) as (_ & _ & _ & _ & Hg & Hf & _).
  subst after. rewrite Hg, Hf.
  set (s := apply_settings (parse_line line) (state self)) in *.
  unfold move_of. cbn [mv_type mv_feed_rate mv_time_s mv_distance].
  rewrite (rate_per_minute_spec _ s Hm). unfold spec_rate.
  destruct (current_g s) as [[|p|p]|];
    repeat split; intros;
    repeat match goal with
           | E : feed_rate s = _ |- _ => rewrite E
           end;
    try reflexivity; congruence.
Qed.

Lemma move_record_feed_rate_witness :
  exists mv,
    snd (execute_line (GCodeSimulator_init 5000) (s2l "G1 X3 Y4 F600")) = Some mv
    /\ mv_type mv = feed /\ mv_feed_rate mv = Some 600
    /\ mv_time_s mv = time_in_seconds (mv_distance mv) 600.
Proof.
  eexists. split; [reflexivity|].
  destruct (move_record_feed_rate (GCodeSimulator_init 5000)
              (s2l "G1 X3 Y4 F600") _ eq_refl) as (_ & _ & _ & Hset & _).
  split; [reflexivity|]. exact (Hset 600 eq_refl eq_refl).
Defined.

(** C8 as the specification words it fails on a feed move made before any F
    word: the record is a feed record, its feed rate is null, and the rate
    that gave its time (60 seconds for one unit) is the fallback 1.0. *)
Lemma unset_feed_rate_record :
  exists mv,
    snd (execute_line (GCodeSimulator_init 5000) (s2l "G1 X1")) = Some mv
    /\ mv_type mv = feed
    /\ mv_feed_rate mv = None
    /\ rate_per_minute 5000
         (state (fst (execute_line (GCodeSimulator_init 5000) (s2l "G1 X1")))) = 1
    /\ mv_time_s mv = (mv_distance mv / Q2R 1 * 60)%R
    /\ mv_feed_rate mv <> Some 1
    /\ ~ (mv_feed_rate mv = None <-> mv_type mv = rapid).
Proof.
  run_line. eexists. split; [reflexivity|].
  cbn [mv_type mv_feed_rate mv_distance mv_time_s].
  split; [reflexivity|]. split; [reflexivity|]. split; [reflexivity|].
  split; [now apply time_in_seconds_pos|].
  split; [discriminate|].
  intros [Hn _]. specialize (Hn eq_refl). discriminate.
Qed.

(* ================================================================= *)
(** ** Text: [strip] *)

Section StripFacts.

Lemma lstrip_head (s : str) :
  match lstrip s with
  | c :: _ => isspace c = false
  | [] => True
  end.
Proof.
  induction s as [|c s IH]; simpl; [exact I|].
  destruct (isspace c) eqn:E; [exact IH|exact E].
Qed.

Lemma lstrip_fixed (s : str) :
  match s with c :: _ => isspace c = false | [] => True end ->
  lstrip s = s.
Proof.
  destruct s as [|c s]; simpl; [reflexivity|]. now intros ->.
Qed.

(** [lstrip] only removes a prefix. *)
Lemma lstrip_suffix (s : str) : exists pre, s = pre ++ lstrip s.
Proof.
  induction s as [|c s [pre IH]]; simpl.
  - now exists [].
  - destruct (isspace c).
    + exists (c :: pre). simpl. now rewrite <- IH.
    + now exists [].
Qed.

Lemma ends_space_rstrip (s : str) : ends_space (rstrip s) = false.
Proof.
  unfold ends_space, rstrip. rewrite rev_involutive.
  pose proof (lstrip_head (rev s)) as H.
  destruct (lstrip (rev s)); [reflexivity|exact H].
Qed.

Lemma ends_space_strip (s : str) : ends_space (strip s) = false.
Proof. apply ends_space_rstrip. Qed.

Lemma rstrip_fixed (s : str) : ends_space s = false -> rstrip s = s.
Proof.
  unfold ends_space, rstrip. intro H.
  rewrite lstrip_fixed, rev_involutive; [reflexivity|].
  destruct (rev s); [exact I|exact H].
Qed.

(** [rstrip] keeps the head of a text that starts with no white space. *)
Lemma rstrip_head (s : str) :
  match s with c :: _ => isspace c = false | [] => True end ->
  match rstrip s with c :: _ => isspace c = false | [] => True end.
Proof.
  intro H. unfold rstrip.
  destruct (lstrip_suffix (rev s)) as [pre E].
  assert (E' : s = rev (lstrip (rev s)) ++ rev pre).
  { rewrite <- rev_app_distr, <- E. symmetry. apply rev_involutive. }
  destruct (rev (lstrip (rev s))) as [|c t]; [exact I|].
  rewrite E' in H. exact H.
Qed.

(** [s.strip().strip() == s.strip()] *)
Lemma strip_idempotent (s : str) : strip (strip s) = strip s.
Proof.
  unfold strip at 1.
  rewrite (lstrip_fixed (strip s)).
  - apply rstrip_fixed, ends_space_strip.
  - unfold strip. apply rstrip_head, lstrip_head.
Qed.

End StripFacts.

Lemma parse_line_strip (line : str) : parse_line (strip line) = parse_line line.
Proof. unfold parse_line. now rewrite strip_idempotent. Qed.

(** An empty parse has no field. *)
Lemma parse_line_empty (line : str) :
  p_type (parse_line line) = Empty -> parse_line line = parsed_empty.
Proof.
  unfold parse_line.
  destruct (strip (Re.sub Pat.semi_comment []
                     (Re.sub Pat.paren_comment [] (strip line))));
    [reflexivity|discriminate].
Qed.

(* ================================================================= *)
(** ** One iteration of the pass *)

Lemma convert_line_false (self : GCodeConverter) (line : str) (st : MachineState) :
  snd (convert_line self line st) = false ->
  convert_line self line st = (line, false).
Proof.
  unfold convert_line.
  destruct (p_type (parse_line (strip line))); [reflexivity|].
  destruct (negb (should_convert_to_rapid self (parse_line (strip line)) st));
    [reflexivity|discriminate].
Qed.

Lemma convert_line_true (self : GCodeConverter) (line : str) (st : MachineState) :
  snd (convert_line self line st) = true ->
  convert_line self line st = (rewrite_rapid line, true)
  /\ p_type (parse_line (strip line)) = Command
  /\ should_convert_to_rapid self (parse_line (strip line)) st = true.
Proof.
  unfold convert_line.
  destruct (p_type (parse_line (strip line))); [discriminate|].
  destruct (should_convert_to_rapid self (parse_line (strip line)) st);
    [auto|discriminate].
Qed.

(** The three outcomes of [decide_line]. *)
Lemma decide_line_cases (self : GCodeConverter) (prev : bool) (line : str) :
  let st := state (simulator self) in
  (snd (convert_line self line st) = true
   /\ decide_line self prev line = (rewrite_rapid line, rewrite_rapid line, true))
  \/ (snd (convert_line self line st) = false
      /\ is_motion (parse_line (strip line))
         && has_no_g_code (parse_line (strip line)) && prev = true
      /\ decide_line self prev line = (inject_g1 line, inject_g1 line, false))
  \/ (snd (convert_line self line st) = false
      /\ is_motion (parse_line (strip line))
         && has_no_g_code (parse_line (strip line)) && prev = false
      /\ decide_line self prev line = (line, line, false)).
Proof.
  intro st. unfold decide_line. fold st.
  destruct (snd (convert_line self line st)) eqn:E.
  - left. split; [reflexivity|].
    destruct (convert_line_true self line st E) as (-> & _ & _). reflexivity.
  - right. rewrite (convert_line_false self line st E). cbn [negb].
    destruct (is_motion (parse_line (strip line))
              && has_no_g_code (parse_line (strip line)) && prev) eqn:Hinj.
    + left. split; [reflexivity|]. split; [reflexivity|].
      unfold inject_g1, keep_newline, G1_sp.
      destruct (endswith_nl line); [reflexivity|]. now rewrite app_nil_r.
    + right. auto.
Qed.

(** What one iteration does with the outcome of [decide_line]. *)
Lemma convert_step_eq (ps : Pass) (n : nat) (line new_line exec : str)
  (converted : bool) :
  decide_line (ps_self ps) (was_prev_line_converted ps) line
  = (new_line, exec, converted) ->
  convert_step ps (n, line)
  = {| ps_self :=
         with_simulator (fst (execute_line (simulator (ps_self ps)) exec))
           (ps_self ps);
       output_lines := output_lines ps ++ [new_line];
       conversions :=
         if converted
         then conversions ps ++
              [{| cr_line_num := n; cr_original := strip line;
                  cr_converted := strip new_line;
                  cr_z_position := z (state (simulator (ps_self ps))) |}]
         else conversions ps;
       was_prev_line_converted := converted |}.
Proof. unfold convert_step. now intros ->. Qed.

Lemma convert_step_flag (ps : Pass) (n : nat) (line : str) :
  was_prev_line_converted (convert_step ps (n, line))
  = snd (convert_line (ps_self ps) line (state (simulator (ps_self ps)))).
Proof.
  destruct (decide_line_cases (ps_self ps) (was_prev_line_converted ps) line)
    as [(E & D)|[(E & _ & D)|(E & _ & D)]];
    rewrite (convert_step_eq ps n line _ _ _ D), E; reflexivity.
Qed.

(** An iteration only appends to the output. *)
Lemma convert_step_output_prefix (ps : Pass) (nl : nat * str) :
  exists out, output_lines (convert_step ps nl) = output_lines ps ++ [out].
Proof.
  destruct nl as [n line].
  destruct (decide_line (ps_self ps) (was_prev_line_converted ps) line)
    as [[new_line exec] converted] eqn:D.
  rewrite (convert_step_eq ps n line _ _ _ D). now exists new_line.
Qed.

(* ================================================================= *)
(** ** The pass as a whole *)

Lemma run_pass_run_from (self : GCodeConverter) (lines : list str) :
  run_pass self lines = run_from (pass_start self) 1 lines.
Proof. reflexivity. Qed.

Lemma run_from_nil (ps : Pass) (n : nat) : run_from ps n [] = ps.
Proof. reflexivity. Qed.

Lemma run_from_cons (ps : Pass) (n : nat) (l : str) (ls : list str) :
  run_from ps n (l :: ls) = run_from (convert_step ps (n, l)) (S n) ls.
Proof. reflexivity. Qed.

Lemma run_from_app (ls1 ls2 : list str) : forall (ps : Pass) (n : nat),
  run_from ps n (ls1 ++ ls2)
  = run_from (run_from ps n ls1) (n + List.length ls1) ls2.
Proof.
  induction ls1 as [|l ls1 IH]; intros ps n.
  - simpl. rewrite run_from_nil. now rewrite Nat.add_0_r.
  - rewrite <- app_comm_cons, !run_from_cons, IH. simpl.
    now rewrite Nat.add_succ_r.
Qed.

(** The output grows by one line per input line, and what is written stays. *)
Lemma run_from_output (ls : list str) : forall (ps : Pass) (n : nat),
  exists outs,
    output_lines (run_from ps n ls) = output_lines ps ++ outs
    /\ List.length outs = List.length ls.
Proof.
  induction ls as [|l ls IH]; intros ps n.
  - exists []. rewrite run_from_nil, app_nil_r. auto.
  - rewrite run_from_cons.
    destruct (IH (convert_step ps (n, l)) (S n)) as (outs & E & L).
    destruct (convert_step_output_prefix ps (n, l)) as [out Eo].
    exists (out :: outs). rewrite E, Eo, <- app_assoc. simpl. auto.
Qed.

Lemma run_pass_output_length (self : GCodeConverter) (lines : list str) :
  List.length (output_lines (run_pass self lines)) = List.length lines.
Proof.
  rewrite run_pass_run_from.
  destruct (run_from_output lines (pass_start self) 1) as (outs & E & L).
  rewrite E. simpl. exact L.
Qed.

(* ================================================================= *)
(** ** C2 *)

Lemma run_pass_snoc (self : GCodeConverter) (pre : list str) (l : str) :
  run_pass self (pre ++ [l])
  = convert_step (run_pass self pre) ((1 + List.length pre)%nat, l).
Proof.
  rewrite !run_pass_run_from, run_from_app, run_from_cons, run_from_nil.
  reflexivity.
Qed.

(** C2. In the pass, a line that is not converted, whose parse has no G code
    but one of X, Y, Z, I, J, K, and whose preceding line was converted, is
    emitted as its stripped text with [G1 ] in front (and its newline, if it
    had one); that same text is what the simulator executes. *)
Theorem reinject_g1_after_conversion (self : GCodeConverter)
  (pre : list str) (lp l : str) (post : list str) :
  let before_lp := run_pass self pre in
  let before_l := run_pass self (pre ++ [lp]) in
  snd (convert_line (ps_self before_lp) lp
         (state (simulator (ps_self before_lp)))) = true ->
  snd (convert_line (ps_self before_l) l
         (state (simulator (ps_self before_l)))) = false ->
  pG (parse_line (strip l)) = None ->
  is_motion (parse_line (strip l)) = true ->
  nth_error (output_lines (run_pass self (pre ++ lp :: l :: post)))
    (S (List.length pre))
  = Some ((s2l "G1 " ++ strip l) ++ (if endswith_nl l then [LF] else []))
  /\ simulator (ps_self (run_pass self (pre ++ [lp; l])))
     = fst (execute_line (simulator (ps_self before_l))
              ((s2l "G1 " ++ strip l) ++ (if endswith_nl l then [LF] else []))).
Proof.
  intros before_lp before_l Hprev Hnot HG Hmotion.
  assert (Hflag : was_prev_line_converted before_l = true).
  { unfold before_l. rewrite run_pass_snoc, convert_step_flag. exact Hprev. }
  assert (Hstep : convert_step before_l (S (S (List.length pre)), l)
                  = {| ps_self :=
                         with_simulator
                           (fst (execute_line (simulator (ps_self before_l))
                                   (inject_g1 l)))
                           (ps_self before_l);
                       output_lines := output_lines before_l ++ [inject_g1 l];
                       conversions := conversions before_l;
                       was_prev_line_converted := false |}).
  { destruct (decide_line_cases (ps_self before_l)
                (was_prev_line_converted before_l) l)
      as [(E & _)|[(_ & _ & D)|(_ & Hno & _)]].
    - congruence.
    - now rewrite (convert_step_eq before_l _ l _ _ _ D).
    - rewrite Hflag, Hmotion in Hno. unfold has_no_g_code in Hno.
      rewrite HG in Hno. discriminate. }
  assert (Hlen : List.length (output_lines before_l) = S (List.length pre)).
  { unfold before_l. rewrite run_pass_output_length, length_app. simpl. lia. }
  split.
  - replace (pre ++ lp :: l :: post) with ((pre ++ [lp]) ++ l :: post)
      by now rewrite <- app_assoc.
    rewrite run_pass_run_from, run_from_app, run_from_cons.
    rewrite <- run_pass_run_from. fold before_l.
    replace (1 + List.length (pre ++ [lp]))%nat with (S (S (List.length pre)))
      by (rewrite length_app; simpl; lia).
    rewrite Hstep.
    match goal with
    | |- context [run_from ?p ?n post] =>
        destruct (run_from_output post p n) as (outs & E & _)
    end.
    rewrite E. cbn [output_lines].
    rewrite <- app_assoc, nth_error_app2 by lia.
    rewrite Hlen, Nat.sub_diag. reflexivity.
  - replace (pre ++ [lp; l]) with ((pre ++ [lp]) ++ [l])
      by now rewrite <- app_assoc.
    rewrite run_pass_snoc. fold before_l.
    replace (1 + List.length (pre ++ [lp]))%nat with (S (S (List.length pre)))
      by (rewrite length_app; simpl; lia).
    rewrite Hstep. reflexivity.
Qed.

(** The sequence of the specification: at Z = 18, above the threshold 17,
    [G1 Z20] is converted and the modal line [X10 Y10] after it gets its [G1]. *)
Lemma reinject_g1_after_conversion_witness :
  nth_error
    (output_lines
       (run_pass GCodeConverter_default
          [s2l "G0 Z18" ++ [LF]; s2l "G1 Z20" ++ [LF]; s2l "X10 Y10" ++ [LF]]))
    2
  = Some (s2l "G1 X10 Y10" ++ [LF])
  /\ simulator
       (ps_self
          (run_pass GCodeConverter_default
             [s2l "G0 Z18" ++ [LF]; s2l "G1 Z20" ++ [LF]; s2l "X10 Y10" ++ [LF]]))
     = fst (execute_line
              (simulator
                 (ps_self
                    (run_pass GCodeConverter_default
                       [s2l "G0 Z18" ++ [LF]; s2l "G1 Z20" ++ [LF]])))
              (s2l "G1 X10 Y10" ++ [LF])).
Proof.
  exact (reinject_g1_after_conversion GCodeConverter_default
           [s2l "G0 Z18" ++ [LF]] (s2l "G1 Z20" ++ [LF])
           (s2l "X10 Y10" ++ [LF]) []
           eq_refl eq_refl eq_refl eq_refl).
Defined.

(* ================================================================= *)
(** ** C9 *)




(** The modal motion mode after a line: the line's own G when it is a motion
    code and the line is no probe, the mode before otherwise. *)
Lemma execute_line_current_g (self : GCodeSimulator) (line : str) :
  current_g (state (fst (execute_line self line)))
  = match probe_z (parse_line line), pG (parse_line line) with
    | None, Some g => if is_motion_code g then Some g else current_g (state self)
    | _, _ => current_g (state self)
    end.
Proof.
  unfold execute_line.
  assert (Hs : current_g (apply_settings (parse_line line) (state self))
               = match pG (parse_line line) with
                 | Some g => if is_motion_code g then Some g
                             else current_g (state self)
                 | None => current_g (state self)
                 end).
  { unfold apply_settings.
    destruct (pG (parse_line line)) as [g|]; destruct (pF (parse_line line));
      destruct (pS (parse_line line)); cbn; try reflexivity;
      unfold update_modal;
      repeat match goal with
             | |- context [if ?b then _ else _] => destruct b; cbn; try reflexivity
             end. }
  destruct (execute_parsed_cases self (parse_line line))
    as [(v & Hp & E)|[(Hp & _ & E)|(Hp & _ & _ & E)]];
    rewrite E, Hp; cbn; [reflexivity| |]; rewrite Hs;
    destruct (pG (parse_line line)); reflexivity.
Qed.

(* ================================================================= *)
(** ** C10 *)



(* ================================================================= *)
(** ** The matcher *)

Section MatcherFacts.

Variable cap : bool.
Variable c : ascii -> bool.
Variable p' : pattern.

(** The unfoldings of the two loops. *)
Lemma match_here_star_cons (prev : option ascii) (x : ascii) (s : str) :
  match_here (Cls cap Star c :: p') prev (x :: s)
  = if c x
    then orelse (option_map (take cap x)
                   (match_here (Cls cap Star c :: p') (Some x) s))
                (match_here p' prev (x :: s))
    else match_here p' prev (x :: s).
Proof. reflexivity. Qed.

Lemma match_here_star_nil (prev : option ascii) :
  match_here (Cls cap Star c :: p') prev [] = match_here p' prev [].
Proof. reflexivity. Qed.

Lemma match_here_lazy_eq (prev : option ascii) (s : str) :
  match_here (Cls cap LazyStar c :: p') prev s
  = orelse (match_here p' prev s)
      (match s with
       | x :: s' =>
           if c x
           then option_map (take cap x)
                  (match_here (Cls cap LazyStar c :: p') (Some x) s')
           else None
       | [] => None
       end).
Proof. destruct s; reflexivity. Qed.

Lemma match_here_plus_cons (prev : option ascii) (x : ascii) (s : str) :
  match_here (Cls cap Plus c :: p') prev (x :: s)
  = if c x
    then option_map (take cap x) (match_here (Cls cap Star c :: p') (Some x) s)
    else None.
Proof. reflexivity. Qed.

End MatcherFacts.

(** Without [\b] a match does not depend on the character before. *)
Lemma match_here_no_wordb (p : pattern) :
  no_wordb p = true ->
  forall (s : str) (prev prev' : option ascii),
    match_here p prev s = match_here p prev' s.
Proof.
  induction p as [|it p IH]; intros Hp s prev prev'; [reflexivity|].
  destruct it as [cap q c| |]; [|discriminate|].
  - cbn [no_wordb] in Hp. specialize (IH Hp).
    destruct q.
    + destruct s; reflexivity.
    + destruct s as [|x s]; cbn -[match_here]; [apply IH|].
      change (match_here (Cls cap Opt c :: p) prev (x :: s))
        with (if c x
              then orelse (option_map (take cap x) (match_here p (Some x) s))
                          (match_here p prev (x :: s))
              else match_here p prev (x :: s)).
      change (match_here (Cls cap Opt c :: p) prev' (x :: s))
        with (if c x
              then orelse (option_map (take cap x) (match_here p (Some x) s))
                          (match_here p prev' (x :: s))
              else match_here p prev' (x :: s)).
      now rewrite (IH (x :: s) prev prev').
    + revert prev prev'. induction s as [|x s IHs]; intros prev prev'.
      * rewrite !match_here_star_nil. apply IH.
      * rewrite !match_here_star_cons. now rewrite (IH (x :: s) prev prev').
    + destruct s; reflexivity.
    + revert prev prev'. induction s as [|x s IHs]; intros prev prev'.
      * rewrite !(match_here_lazy_eq cap c p _ []). now rewrite (IH [] prev prev').
      * rewrite !(match_here_lazy_eq cap c p _ (x :: s)).
        now rewrite (IH (x :: s) prev prev').
  - cbn [no_wordb] in Hp. specialize (IH Hp).
    change (match_here (EndS :: p) prev s)
      with (if at_end s then match_here p prev s else None).
    change (match_here (EndS :: p) prev' s)
      with (if at_end s then match_here p prev' s else None).
    now rewrite (IH s prev prev').
Qed.

Lemma take_text_nonempty (cap : bool) (x : ascii) (o : option rmatch) (m : rmatch) :
  option_map (take cap x) o = Some m -> m_text m <> [].
Proof.
  destruct o as [m0|]; [|discriminate].
  cbn. intros [= <-]. discriminate.
Qed.

Lemma orelse_some {A : Type} (a b : option A) (v : A) :
  orelse a b = Some v -> a = Some v \/ (a = None /\ b = Some v).
Proof. destruct a; cbn; auto. Qed.

(** A pattern that consumes has no empty match. *)
Lemma match_here_nonempty (p : pattern) :
  consumes p = true ->
  forall (s : str) (prev : option ascii) (m : rmatch),
    match_here p prev s = Some m -> m_text m <> [].
Proof.
  induction p as [|it p IH]; intros Hp s prev m; [discriminate|].
  destruct it as [cap q c| |].
  - destruct q.
    + destruct s as [|x s]; [discriminate|]. cbn -[match_here].
      change (match_here (Cls cap One c :: p) prev (x :: s))
        with (if c x then option_map (take cap x) (match_here p (Some x) s)
              else None).
      destruct (c x); [apply take_text_nonempty|discriminate].
    + cbn [consumes] in Hp. specialize (IH Hp).
      destruct s as [|x s]; [apply IH|].
      change (match_here (Cls cap Opt c :: p) prev (x :: s))
        with (if c x
              then orelse (option_map (take cap x) (match_here p (Some x) s))
                          (match_here p prev (x :: s))
              else match_here p prev (x :: s)).
      destruct (c x); [|apply IH].
      intro H. apply orelse_some in H as [H|[_ H]].
      * now apply take_text_nonempty in H.
      * now apply IH in H.
    + cbn [consumes] in Hp. specialize (IH Hp).
      revert prev m. induction s as [|x s IHs]; intros prev m.
      * rewrite match_here_star_nil. apply IH.
      * rewrite match_here_star_cons. destruct (c x); [|apply IH].
        intro H. apply orelse_some in H as [H|[_ H]].
        -- now apply take_text_nonempty in H.
        -- now apply IH in H.
    + destruct s as [|x s]; [discriminate|].
      rewrite match_here_plus_cons.
      destruct (c x); [apply take_text_nonempty|discriminate].
    + cbn [consumes] in Hp. specialize (IH Hp).
      revert prev m. induction s as [|x s IHs]; intros prev m;
        rewrite match_here_lazy_eq; intro H;
        apply orelse_some in H as [H|[_ H]];
        try (now apply IH in H); try discriminate.
      destruct (c x); [|discriminate].
      now apply take_text_nonempty in H.
  - cbn [consumes] in Hp. specialize (IH Hp).
    change (match_here (WordB :: p) prev s)
      with (if at_boundary prev s then match_here p prev s else None).
    destruct (at_boundary prev s); [apply IH|discriminate].
  - cbn [consumes] in Hp. specialize (IH Hp).
    change (match_here (EndS :: p) prev s)
      with (if at_end s then match_here p prev s else None).
    destruct (at_end s); [apply IH|discriminate].
Qed.

(** A match of the feed-rate pattern extends over white space before it. *)
Lemma feed_token_extends_left (prev prev' : option ascii) (x : ascii) (s : str)
  (m : rmatch) :
  isspace x = true ->
  match_here Pat.feed_token prev' s = Some m ->
  match_here Pat.feed_token prev (x :: s) <> None.
Proof.
  intros Hx Hm.
  pose proof (match_here_no_wordb Pat.feed_token eq_refl s (Some x) prev') as E.
  unfold Pat.feed_token in *.
  rewrite match_here_star_cons, Hx, E, Hm.
  discriminate.
Qed.

(* ================================================================= *)
(** ** The end of a text, and what [re.sub] does to it *)

Lemma rev_nonempty (s : str) : s <> [] -> rev s <> [].
Proof.
  intros H E. apply H. rewrite <- (rev_involutive s), E. reflexivity.
Qed.

Lemma ends_space_app (s t : str) : t <> [] -> ends_space (s ++ t) = ends_space t.
Proof.
  intro H. unfold ends_space. rewrite rev_app_distr.
  pose proof (rev_nonempty t H) as Hr.
  destruct (rev t); [contradiction|reflexivity].
Qed.

Lemma ends_space_cons (x : ascii) (t : str) :
  ends_space (x :: t) = match t with [] => isspace x | _ => ends_space t end.
Proof.
  destruct t as [|y t]; [reflexivity|].
  change (x :: y :: t) with ([x] ++ y :: t). now apply ends_space_app.
Qed.

Lemma ends_space_tail (x : ascii) (t : str) :
  ends_space (x :: t) = false -> ends_space t = false.
Proof. rewrite ends_space_cons. destruct t; [reflexivity|auto]. Qed.

Lemma endswith_nl_rev (s : str) :
  endswith_nl s = match rev s with c :: _ => chr_eqb c LF | [] => false end.
Proof.
  induction s as [|c s IH]; [reflexivity|].
  destruct s as [|c' s]; [reflexivity|].
  change (endswith_nl (c :: c' :: s)) with (endswith_nl (c' :: s)).
  rewrite IH. change (rev (c :: c' :: s)) with (rev (c' :: s) ++ [c]).
  assert (Hne : rev (c' :: s) <> []) by (apply rev_nonempty; discriminate).
  destruct (rev (c' :: s)); [contradiction|reflexivity].
Qed.

Lemma endswith_nl_snoc (s : str) (c : ascii) :
  endswith_nl (s ++ [c]) = chr_eqb c LF.
Proof. rewrite endswith_nl_rev, rev_app_distr. reflexivity. Qed.

(** A text that ends with a newline ends with white space. *)
Lemma endswith_nl_ends_space (s : str) :
  ends_space s = false -> endswith_nl s = false.
Proof.
  rewrite endswith_nl_rev. unfold ends_space.
  destruct (rev s) as [|c r]; [reflexivity|].
  intro H. destruct (chr_eqb c LF) eqn:E; [|reflexivity].
  apply Ascii.eqb_eq in E. subst c. discriminate.
Qed.

Section SubFacts.

Variable p : pattern.
Hypothesis p_consumes : consumes p = true.

(** With a replacement that is not empty, only the empty text is rewritten
    to the empty text. *)
Lemma sub_from_nil_inv (repl : str) (prev : option ascii) (s : str) :
  repl <> [] -> sub_from p repl prev 0 s = [] -> s = [].
Proof.
  intros Hr. destruct s as [|x s]; [reflexivity|].
  cbn [sub_from]. destruct (match_here p prev (x :: s)) as [m|].
  - intro H. apply app_eq_nil in H as [H _]. contradiction.
  - discriminate.
Qed.

(** A replacement that ends with no white space leaves the end of the text
    free of white space. *)
Lemma sub_from_ends_space (repl : str) :
  repl <> [] -> ends_space repl = false ->
  forall (s : str) (prev : option ascii) (skip : nat),
    ends_space s = false -> ends_space (sub_from p repl prev skip s) = false.
Proof.
  intros Hne Hr. induction s as [|x s IH]; intros prev skip Hs.
  - destruct skip; cbn [sub_from]; [|reflexivity].
    destruct (match_here p prev []) as [m|]; [|reflexivity].
    destruct (List.length (m_text m)); now rewrite app_nil_r.
  - pose proof (ends_space_tail x s Hs) as Hs'.
    destruct skip as [|k]; cbn [sub_from]; [|now apply IH].
    destruct (match_here p prev (x :: s)) as [m|] eqn:Em.
    + pose proof (match_here_nonempty p p_consumes (x :: s) prev m Em) as Hm.
      destruct (m_text m) as [|y t]; [contradiction|]. cbn [List.length].
      specialize (IH (Some x) (List.length t) Hs').
      destruct (sub_from p repl (Some x) (List.length t) s) as [|y' u] eqn:Eu.
      * now rewrite app_nil_r.
      * rewrite ends_space_app by discriminate. exact IH.
    + specialize (IH (Some x) 0%nat Hs').
      rewrite ends_space_cons.
      destruct (sub_from p repl (Some x) 0 s) as [|y u] eqn:Eu; [|exact IH].
      apply sub_from_nil_inv in Eu; [|exact Hne]. subst s. exact Hs.
Qed.

End SubFacts.

(** Removing the feed-rate tokens leaves the end of the text free of white
    space: each removed token takes the white space before it along. *)
Lemma strip_feed_ends_space : forall (s : str) (prev : option ascii) (skip : nat),
  ends_space s = false ->
  ends_space (sub_from Pat.feed_token [] prev skip s) = false.
Proof.
  induction s as [|x s IH]; intros prev skip Hs.
  - destruct skip; cbn [sub_from]; [|reflexivity].
    destruct (match_here Pat.feed_token prev []) as [m|]; [|reflexivity].
    destruct (List.length (m_text m)); reflexivity.
  - pose proof (ends_space_tail x s Hs) as Hs'.
    destruct skip as [|k]; cbn [sub_from]; [|now apply IH].
    destruct (match_here Pat.feed_token prev (x :: s)) as [m|] eqn:Em.
    + pose proof (match_here_nonempty Pat.feed_token eq_refl (x :: s) prev m Em)
        as Hm.
      destruct (m_text m) as [|y t]; [contradiction|]. cbn [List.length app].
      now apply IH.
    + rewrite ends_space_cons.
      destruct (sub_from Pat.feed_token [] (Some x) 0 s) as [|y u] eqn:Eu;
        [|rewrite <- Eu; now apply IH].
      destruct s as [|y s]; [exact Hs|].
      cbn [sub_from] in Eu.
      destruct (match_here Pat.feed_token (Some x) (y :: s)) as [m|] eqn:Em';
        [|discriminate].
      destruct (isspace x) eqn:Hx; [|reflexivity].
      exfalso.
      exact (feed_token_extends_left prev (Some x) x (y :: s) m Hx Em' Em).
Qed.

(** The two rewritings of the loop keep the newline of the line, and add none. *)
Lemma inject_g1_endswith_nl (line : str) :
  endswith_nl (inject_g1 line) = endswith_nl line.
Proof.
  unfold inject_g1. destruct (endswith_nl line) eqn:E.
  - apply endswith_nl_snoc.
  - rewrite app_nil_r.
    destruct (strip line) as [|c t] eqn:Es; [reflexivity|].
    apply endswith_nl_ends_space.
    rewrite ends_space_app by discriminate.
    rewrite <- Es. apply ends_space_strip.
Qed.

Lemma rewrite_rapid_endswith_nl (line : str) :
  endswith_nl (rewrite_rapid line) = endswith_nl line.
Proof.
  unfold rewrite_rapid, keep_newline. destruct (endswith_nl line) eqn:E.
  - apply endswith_nl_snoc.
  - destruct (strip line) as [|c t] eqn:Es; [reflexivity|].
    apply endswith_nl_ends_space. unfold Re.sub.
    apply strip_feed_ends_space.
    destruct (Re.search Pat.has_g (c :: t)).
    + apply sub_from_ends_space;
        [reflexivity|discriminate|reflexivity|].
      rewrite <- Es. apply ends_space_strip.
    + unfold G0_sp. rewrite ends_space_app by discriminate.
      rewrite <- Es. apply ends_space_strip.
Qed.

(* ================================================================= *)
(** ** C7 *)

Lemma convert_step_emitted (ps : Pass) (n : nat) (line : str) :
  exists out,
    output_lines (convert_step ps (n, line)) = output_lines ps ++ [out]
    /\ emitted line out.
Proof.
  unfold emitted.
  destruct (decide_line_cases (ps_self ps) (was_prev_line_converted ps) line)
    as [(_ & D)|[(_ & _ & D)|(_ & _ & D)]];
    rewrite (convert_step_eq ps n line _ _ _ D); eexists; split;
    try reflexivity; auto.
Qed.

Lemma run_from_emitted (ls : list str) :
  forall (ps : Pass) (n i : nat) (line : str),
    nth_error ls i = Some line ->
    exists out,
      nth_error (output_lines (run_from ps n ls))
        (List.length (output_lines ps) + i) = Some out
      /\ emitted line out.
Proof.
  induction ls as [|l ls IH]; intros ps n i line Hi.
  - destruct i; discriminate.
  - rewrite run_from_cons.
    destruct (convert_step_emitted ps n l) as (o & Eo & Hem).
    destruct i as [|j].
    + injection Hi as <-. exists o. split; [|exact Hem].
      destruct (run_from_output ls (convert_step ps (n, l)) (S n))
        as (outs & E & _).
      rewrite E, Eo, <- app_assoc, Nat.add_0_r.
      rewrite nth_error_app2 by lia. now rewrite Nat.sub_diag.
    + destruct (IH (convert_step ps (n, l)) (S n) j line Hi) as (out & Hn & He).
      exists out. split; [|exact He].
      rewrite Eo, length_app in Hn. cbn [List.length] in Hn.
      replace (List.length (output_lines ps) + S j)%nat
        with (List.length (output_lines ps) + 1 + j)%nat by lia.
      exact Hn.
Qed.

Lemma emitted_endswith_nl (line out : str) :
  emitted line out -> endswith_nl out = endswith_nl line.
Proof.
  intros [->|[->| ->]].
  - reflexivity.
  - apply rewrite_rapid_endswith_nl.
  - apply inject_g1_endswith_nl.
Qed.

(** The part of C7 that holds. The pass produces exactly one output line per
    input line ([total_lines] is the number of input lines), and every output
    line -- unchanged, converted or G1-injected -- ends with a newline
    character exactly when its input line does.  (The pass is the one on
    exact numbers: it always returns. On floats a line whose square is
    beyond the range raises out of [execute_line], and of the loop with it.) *)
Theorem pass_keeps_lines_and_newlines (self : GCodeConverter) (lines : list str) :
  total_lines (snd (convert_file self lines)) = List.length lines
  /\ List.length (snd (fst (convert_file self lines))) = List.length lines
  /\ (forall (i : nat) (line out : str),
         nth_error lines i = Some line ->
         nth_error (snd (fst (convert_file self lines))) i = Some out ->
         (out = line \/ out = rewrite_rapid line \/ out = inject_g1 line)
         /\ endswith_nl out = endswith_nl line).
Proof.
  unfold convert_file. cbn [fst snd total_lines].
  split; [reflexivity|]. split; [apply run_pass_output_length|].
  intros i line out Hi Ho.
  rewrite run_pass_run_from in Ho.
  destruct (run_from_emitted lines (pass_start self) 1 i line Hi)
    as (out' & Ho' & Hem).
  cbn [pass_start output_lines List.length Nat.add] in Ho'.
  rewrite Ho' in Ho. injection Ho as <-.
  split; [exact Hem|now apply emitted_endswith_nl].
Qed.

(** The text [convert_line] returns for a converted line: a text that does
    not end with white space, followed by the newline when the line ended
    with one. *)
Lemma convert_line_converted_ending (self : GCodeConverter) (line : str)
  (st : MachineState) :
  snd (convert_line self line st) = true ->
  exists body : str,
    ends_space body = false
    /\ fst (convert_line self line st)
       = body ++ (if endswith_nl line then [LF] else []).
Proof.
  intro H. destruct (convert_line_true self line st H) as (E & Hcmd & _).
  rewrite E. cbn [fst].
  destruct (strip line) as [|c t] eqn:Es.
  { discriminate Hcmd. }
  unfold rewrite_rapid, keep_newline. rewrite Es.
  exists (Re.sub Pat.feed_token []
            match Re.search Pat.has_g (c :: t) with
            | Some _ => Re.sub Pat.g1_token G0_ (c :: t)
            | None => G0_sp ++ c :: t
            end).
  split.
  - unfold Re.sub at 1. apply strip_feed_ends_space.
    destruct (Re.search Pat.has_g (c :: t)).
    + apply sub_from_ends_space; [reflexivity|discriminate|reflexivity|].
      rewrite <- Es. apply ends_space_strip.
    + unfold G0_sp. rewrite ends_space_app by discriminate.
      rewrite <- Es. apply ends_space_strip.
  - destruct (endswith_nl line); [reflexivity|now rewrite app_nil_r].
Qed.

(** C7, where the code departs from it. [convert_line] rebuilds a converted
    line from the stripped text and puts back a newline only: whatever white
    space ended the line, the text returned ends with a character that is no
    white space, followed by the newline when there was one. A line that ends
    with a carriage return and a newline comes back with the newline alone,
    against the comment "Preserve original line ending style". *)
Theorem convert_line_drops_carriage_return :
  (forall (self : GCodeConverter) (line : str) (st : MachineState),
      snd (convert_line self line st) = true ->
      exists body : str,
        ends_space body = false
        /\ fst (convert_line self line st)
           = body ++ (if endswith_nl line then [LF] else []))
  /\ convert_line GCodeConverter_default (s2l "G1 X10 F600" ++ [CR; LF])
       (state (fst (execute_line (GCodeSimulator_init 5000) (s2l "G0 Z20"))))
     = (s2l "G0 X10" ++ [LF], true)
  /\ line_ending (s2l "G1 X10 F600" ++ [CR; LF]) = [CR; LF]
  /\ line_ending (s2l "G0 X10" ++ [LF]) = [LF].
Proof.
  split; [exact convert_line_converted_ending|].
  repeat split; vm_compute; reflexivity.
Qed.

(* ================================================================= *)
(** ** C3 *)

(** The part of [convert_line] that returns the line as it came. *)
Lemma convert_line_unchanged (self : GCodeConverter) (line : str)
  (st : MachineState) :
  p_type (parse_line (strip line)) = Empty
  \/ should_convert_to_rapid self (parse_line (strip line)) st = false ->
  convert_line self line st = (line, false).
Proof.
  unfold convert_line. intros [H|H]; rewrite H; [reflexivity|].
  destruct (p_type (parse_line (strip line))); reflexivity.
Qed.

(** The part that converts: the flag is set, the text is the rewriting, and
    the newline of the line is kept. *)
Lemma convert_line_converted (self : GCodeConverter) (line : str)
  (st : MachineState) :
  p_type (parse_line (strip line)) = Command ->
  should_convert_to_rapid self (parse_line (strip line)) st = true ->
  convert_line self line st = (rewrite_rapid line, true)
  /\ endswith_nl (rewrite_rapid line) = endswith_nl line.
Proof.
  unfold convert_line. intros -> ->. split; [reflexivity|].
  apply rewrite_rapid_endswith_nl.
Qed.

(** C3, where the code departs from it. At Z = 20, above the threshold, the
    line [G1X10 Y10 F600] parses with G = 1 and is to be converted;
    [convert_line] reports it converted and strips the feed rate, but the
    pattern [\bG0*1\b] finds no word boundary between [1] and [X], so the
    explicit G1 token is still there and no G0 is in the text. Likewise a
    modal line whose comment holds a G word gets no G0 prepended: the comment
    is rewritten instead. *)
Theorem convert_line_keeps_compact_g1 :
  pG (parse_line (s2l "G1X10 Y10 F600")) = Some 1%Z
  /\ pX (parse_line (s2l "G1X10 Y10 F600")) = Some 10
  /\ should_convert_to_rapid GCodeConverter_default
       (parse_line (s2l "G1X10 Y10 F600"))
       (state (fst (execute_line (GCodeSimulator_init 5000) (s2l "G0 Z20"))))
     = true
  /\ convert_line GCodeConverter_default (s2l "G1X10 Y10 F600" ++ [LF])
       (state (fst (execute_line (GCodeSimulator_init 5000) (s2l "G0 Z20"))))
     = (s2l "G1X10 Y10" ++ [LF], true)
  /\ pG (parse_line (s2l "G1X10 Y10" ++ [LF])) = Some 1%Z
  /\ Re.search Pat.g1_token (s2l "G1X10 Y10 F600") = None
  /\ pG (parse_line (s2l "X10 Y10 (G1 from here)")) = None
  /\ convert_line GCodeConverter_default (s2l "X10 Y10 (G1 from here)" ++ [LF])
       (state (fst (execute_line (GCodeSimulator_init 5000) (s2l "G1 Z20 F300"))))
     = (s2l "X10 Y10 (G0 from here)" ++ [LF], true).
Proof.
  repeat split; vm_compute; reflexivity.
Qed.

(* ================================================================= *)
(** ** Matching on texts of a known shape *)

Lemma isdigit_cases (x : ascii) :
  isdigit x = true -> In x (s2l "0123456789").
Proof.
  destruct x as [[] [] [] [] [] [] [] []]; intro H;
    try (vm_compute in H; discriminate H);
    vm_compute; auto 12.
Qed.

(** What is false of the ten digits is false of every digit. *)
Lemma digit_class (c : ascii -> bool) :
  forallb (fun d => negb (c d)) (s2l "0123456789") = true ->
  forall x : ascii, isdigit x = true -> c x = false.
Proof.
  intros Hc x Hx. apply isdigit_cases in Hx.
  rewrite forallb_forall in Hc. specialize (Hc x Hx).
  now apply negb_true_iff in Hc.
Qed.

Lemma all_digits_class (c : ascii -> bool) (t : str) :
  forallb (fun d => negb (c d)) (s2l "0123456789") = true ->
  all_digits t = true -> Forall (fun x => c x = false) t.
Proof.
  intros Hc Ht. apply Forall_forall. intros x Hx.
  unfold all_digits in Ht. rewrite forallb_forall in Ht.
  apply (digit_class c Hc). now apply Ht.
Qed.

Section NoMatch.

Variable p : pattern.
Variable P : ascii -> Prop.

(** [p] matches at no position of a text made of [P] characters. *)
Hypothesis p_none :
  forall (prev : option ascii) (t : str), Forall P t -> match_here p prev t = None.

Lemma search_from_none (s : str) : forall prev : option ascii,
  Forall P s -> search_from p prev s = None.
Proof.
  induction s as [|x s IH]; intros prev Hs; cbn [search_from];
    rewrite (p_none prev _ Hs); [reflexivity|].
  apply IH. now inversion Hs.
Qed.

Lemma sub_from_same (repl : str) (s : str) : forall prev : option ascii,
  Forall P s -> sub_from p repl prev 0 s = s.
Proof.
  induction s as [|x s IH]; intros prev Hs; cbn [sub_from];
    rewrite (p_none prev _ Hs); [reflexivity|].
  f_equal. apply IH. now inversion Hs.
Qed.

End NoMatch.

(** A pattern that starts with one character of the class [c], after
    assertions or not, matches nowhere in a text without such a character. *)
Lemma first_class_none (cap : bool) (c : ascii -> bool) (p' : pattern)
  (prev : option ascii) (t : str) :
  Forall (fun x => c x = false) t ->
  match_here (Cls cap One c :: p') prev t = None.
Proof.
  intro H. destruct t as [|x t]; [reflexivity|].
  cbn -[match_here].
  change (match_here (Cls cap One c :: p') prev (x :: t))
    with (if c x then option_map (take cap x) (match_here p' (Some x) t)
          else None).
  inversion H as [|? ? Hx _]. now rewrite Hx.
Qed.

Lemma wordb_first_class_none (cap : bool) (c : ascii -> bool) (p' : pattern)
  (prev : option ascii) (t : str) :
  Forall (fun x => c x = false) t ->
  match_here (WordB :: Cls cap One c :: p') prev t = None.
Proof.
  intro H.
  change (match_here (WordB :: Cls cap One c :: p') prev t)
    with (if at_boundary prev t
          then match_here (Cls cap One c :: p') prev t else None).
  rewrite (first_class_none cap c p' prev t H).
  now destruct (at_boundary prev t).
Qed.


(** The number pattern on a text that is one unsigned decimal number. *)
Lemma star_digits_all (cap : bool) (p' : pattern) (ds : str) :
  forall (prev : option ascii) (t : str) (m : rmatch),
    all_digits ds = true ->
    (forall prev' : option ascii,
        match_here (Cls cap Star isdigit :: p') prev' t = Some m) ->
    match_here (Cls cap Star isdigit :: p') prev (ds ++ t)
    = Some {| m_text := ds ++ m_text m;
              m_group := if cap then ds ++ m_group m else m_group m;
              m_rest := m_rest m |}.
Proof.
  induction ds as [|d ds IH]; intros prev t m Hds Hm.
  - cbn [app]. rewrite Hm. destruct m, cap; reflexivity.
  - cbn [all_digits forallb] in Hds. apply andb_true_iff in Hds as [Hd Hds].
    cbn [app]. rewrite match_here_star_cons, Hd.
    rewrite (IH (Some d) t m Hds Hm). destruct cap; reflexivity.
Qed.




(* ================================================================= *)
(** ** The lines [G<k> Z<number>] *)


Lemma search_from_hit (p : pattern) (prev : option ascii) (s : str) (m : rmatch) :
  match_here p prev s = Some m -> search_from p prev s = Some m.
Proof. destruct s; cbn [search_from]; now intros ->. Qed.

Lemma sub_from_miss (p : pattern) (repl : str) (prev : option ascii)
  (x : ascii) (s : str) :
  match_here p prev (x :: s) = None ->
  sub_from p repl prev 0 (x :: s) = x :: sub_from p repl (Some x) 0 s.
Proof. cbn [sub_from]. now intros ->. Qed.

Lemma lstrip_spaces (a b : str) :
  forallb isspace a = true -> lstrip (a ++ b) = lstrip b.
Proof.
  induction a as [|x a IH]; [reflexivity|].
  cbn [forallb app lstrip]. intro H. apply andb_true_iff in H as [Hx Ha].
  rewrite Hx. now apply IH.
Qed.

Lemma forallb_rev (f : ascii -> bool) (s : str) :
  forallb f s = true -> forallb f (rev s) = true.
Proof.
  rewrite !forallb_forall. intros H x Hx. apply H. now apply in_rev.
Qed.


Lemma ends_space_class (s : str) :
  Forall (fun x => isspace x = false) s -> ends_space s = false.
Proof.
  intro H. unfold ends_space.
  destruct (rev s) as [|c r] eqn:E; [reflexivity|].
  rewrite Forall_forall in H. apply H.
  apply in_rev. rewrite E. now left.
Qed.

Section DecimalText.

Variables ip fp : str.
Hypothesis ip_nonempty : ip <> [].
Hypothesis ip_digits : all_digits ip = true.
Hypothesis fp_digits : all_digits fp = true.

(** A class without a digit and without the point has no character of the
    number. *)
Lemma decimal_text_class (c : ascii -> bool) :
  forallb (fun d => negb (c d)) (s2l "0123456789.") = true ->
  Forall (fun x => c x = false) (decimal_text ip fp).
Proof.
  intro Hc.
  assert (Hd : forallb (fun d => negb (c d)) (s2l "0123456789") = true).
  { rewrite forallb_forall in *. intros x Hx. apply Hc.
    change (s2l "0123456789.") with (s2l "0123456789" ++ ["."%char]).
    apply in_or_app. now left. }
  assert (Hp : c "."%char = false).
  { rewrite forallb_forall in Hc. apply negb_true_iff, Hc.
    change (s2l "0123456789.") with (s2l "0123456789" ++ ["."%char]).
    apply in_or_app. right. now left. }
  unfold decimal_text. destruct fp as [|d fp'] eqn:Efp.
  - now apply all_digits_class.
  - apply Forall_app. split; [now apply all_digits_class|].
    constructor; [exact Hp|]. rewrite <- Efp. apply all_digits_class; [exact Hd|].
    now rewrite Efp.
Qed.

Lemma decimal_text_head :
  exists (d : ascii) (t : str), decimal_text ip fp = d :: t /\ isdigit d = true.
Proof.
  destruct ip as [|d t] eqn:E; [contradiction|].
  cbn [all_digits forallb] in ip_digits.
  apply andb_true_iff in ip_digits as [Hd _].
  unfold decimal_text. destruct fp; eexists; eexists; split;
    try reflexivity; exact Hd.
Qed.


Lemma ends_space_decimal (pre : str) :
  ends_space (pre ++ decimal_text ip fp) = false.
Proof.
  destruct decimal_text_head as (d & t & E & _).
  rewrite ends_space_app by (rewrite E; discriminate).
  apply ends_space_class, decimal_text_class. reflexivity.
Qed.

End DecimalText.

Section GZLine.

Variables ip fp nl : str.
Hypothesis ip_nonempty : ip <> [].
Hypothesis ip_digits : all_digits ip = true.
Hypothesis fp_digits : all_digits fp = true.
Hypothesis nl_spaces : forallb isspace nl = true.

Variable k : ascii.
Hypothesis k_01 : k = "0"%char \/ k = "1"%char.











End GZLine.

Lemma sub_from_hit (p : pattern) (repl : str) (prev : option ascii)
  (x : ascii) (s : str) (m : rmatch) (j : nat) :
  match_here p prev (x :: s) = Some m -> List.length (m_text m) = S j ->
  sub_from p repl prev 0 (x :: s) = repl ++ sub_from p repl (Some x) j s.
Proof. cbn [sub_from]. now intros -> ->. Qed.

Lemma sub_from_skip (p : pattern) (repl : str) (prev : option ascii)
  (x : ascii) (s : str) (j : nat) :
  sub_from p repl prev (S j) (x :: s) = sub_from p repl (Some x) j s.
Proof. reflexivity. Qed.

Section GZRewrite.

Variables ip fp nl : str.
Hypothesis ip_nonempty : ip <> [].
Hypothesis ip_digits : all_digits ip = true.
Hypothesis fp_digits : all_digits fp = true.
Hypothesis nl_spaces : forallb isspace nl = true.



End GZRewrite.



(* ================================================================= *)
(** * Further properties of the simulator *)

(** One call: what it appends is what it returns, and the time it adds is
    the time of that record. *)
Lemma execute_line_step (self : GCodeSimulator) (line : str) :
  move_history (fst (execute_line self line))
  = move_history self ++ appended (snd (execute_line self line))
  /\ total_time_seconds (state (fst (execute_line self line)))
     = add_times (total_time_seconds (state self))
         (appended (snd (execute_line self line)))
  /\ rapid_traverse_rate (fst (execute_line self line))
     = rapid_traverse_rate self.
Proof.
  unfold execute_line.
  destruct (apply_settings_position self (parse_line line)) as (_ & _ & _ & Ht).
  destruct (execute_parsed_cases self (parse_line line))
    as [(v & _ & E)|[(_ & _ & E)|(_ & _ & _ & E)]]; rewrite E;
    cbn [fst snd appended add_times fold_left move_history state with_state
         rapid_traverse_rate total_time_seconds set_z set_xyz
         set_total_time_seconds].
  - rewrite app_nil_r. repeat split.
  - rewrite app_nil_r. repeat split. exact Ht.
  - repeat split. now rewrite Ht.
Qed.

Lemma add_times_app (t0 : R) (h1 h2 : list MoveRecord) :
  add_times t0 (h1 ++ h2) = add_times (add_times t0 h1) h2.
Proof. unfold add_times. apply fold_left_app. Qed.

Lemma grown_refl (self : GCodeSimulator) : grown self self [].
Proof.
  unfold grown. rewrite app_nil_r. repeat split.
Qed.

Lemma grown_step (self later : GCodeSimulator) (new : list MoveRecord)
  (line : str) :
  grown self later new ->
  grown self (fst (execute_line later line))
    (new ++ appended (snd (execute_line later line))).
Proof.
  intros (Hh & Ht & Hr).
  destruct (execute_line_step later line) as (Hh' & Ht' & Hr').
  unfold grown. rewrite Hh', Ht', Hr', Hh, Ht, add_times_app, app_assoc.
  split; [reflexivity|]. split; [reflexivity|assumption].
Qed.

Lemma grown_trans (a b c : GCodeSimulator) (n1 n2 : list MoveRecord) :
  grown a b n1 -> grown b c n2 -> grown a c (n1 ++ n2).
Proof.
  intros (Hh & Ht & Hr) (Hh' & Ht' & Hr').
  unfold grown. rewrite Hh', Ht', Hr', Hh, Ht, add_times_app, app_assoc.
  split; [reflexivity|]. split; [reflexivity|assumption].
Qed.

Lemma run_lines_snoc (self : GCodeSimulator) (lines : list str) (line : str) :
  run_lines self (lines ++ [line])
  = fst (execute_line (run_lines self lines) line).
Proof. unfold run_lines. now rewrite fold_left_app. Qed.

Lemma run_lines_cons (self : GCodeSimulator) (line : str) (lines : list str) :
  run_lines self (line :: lines)
  = run_lines (fst (execute_line self line)) lines.
Proof. reflexivity. Qed.

Lemma run_lines_grown (lines : list str) : forall self : GCodeSimulator,
  exists new : list MoveRecord,
    grown self (run_lines self lines) new
    /\ (List.length new <= List.length lines)%nat.
Proof.
  induction lines as [|l lines IH] using rev_ind; intro self.
  - exists []. split; [apply grown_refl|apply Nat.le_refl].
  - destruct (IH self) as (new & Hg & Hl).
    rewrite run_lines_snoc.
    exists (new ++ appended (snd (execute_line (run_lines self lines) l))).
    split; [now apply grown_step|].
    rewrite !length_app. cbn [List.length].
    destruct (snd (execute_line (run_lines self lines) l)); cbn; lia.
Qed.

(** The simulator of the pass after one more line: it has executed some
    text, and the settings of the converter are the same. *)
Lemma convert_step_simulator (ps : Pass) (nl : nat * str) :
  exists exec : str,
    simulator (ps_self (convert_step ps nl))
    = fst (execute_line (simulator (ps_self ps)) exec)
    /\ z_safe (ps_self (convert_step ps nl)) = z_safe (ps_self ps)
    /\ conservative (ps_self (convert_step ps nl)) = conservative (ps_self ps).
Proof.
  destruct nl as [n line].
  destruct (decide_line (ps_self ps) (was_prev_line_converted ps) line)
    as [[new_line exec] converted] eqn:D.
  rewrite (convert_step_eq ps n line new_line exec converted D).
  exists exec. repeat split.
Qed.

Lemma run_from_grown (ls : list str) : forall (ps : Pass) (n : nat),
  exists new : list MoveRecord,
    grown (simulator (ps_self ps)) (simulator (ps_self (run_from ps n ls))) new
    /\ (List.length new <= List.length ls)%nat.
Proof.
  induction ls as [|l ls IH]; intros ps n.
  - rewrite run_from_nil. exists []. split; [apply grown_refl|apply Nat.le_refl].
  - rewrite run_from_cons.
    destruct (convert_step_simulator ps (n, l)) as (exec & Hs & _).
    destruct (IH (convert_step ps (n, l)) (S n)) as (new & Hg & Hl).
    rewrite Hs in Hg at 1.
    exists (appended (snd (execute_line (simulator (ps_self ps)) exec)) ++ new).
    split.
    + apply grown_trans with (fst (execute_line (simulator (ps_self ps)) exec));
        [|exact Hg].
      rewrite <- (app_nil_l (appended _)).
      apply grown_step, grown_refl.
    + rewrite length_app. cbn [List.length].
      destruct (snd (execute_line (simulator (ps_self ps)) exec)); cbn; lia.
Qed.

(** X1. Executing any list of lines only appends to the history, at most one
    record per line, and [total_time_seconds] afterwards is the time before
    with the [time_s] of the appended records added one after the other; the
    rapid-traverse rate is kept. *)
Theorem run_lines_history_time (self : GCodeSimulator) (lines : list str) :
  exists new : list MoveRecord,
    move_history (run_lines self lines) = move_history self ++ new
    /\ (List.length new <= List.length lines)%nat
    /\ total_time_seconds (state (run_lines self lines))
       = add_times (total_time_seconds (state self)) new
    /\ rapid_traverse_rate (run_lines self lines) = rapid_traverse_rate self.
Proof.
  destruct (run_lines_grown lines self) as (new & (Hh & Ht & Hr) & Hl).
  exists new. repeat split; assumption.
Qed.

(** X2. After [convert_file] on a new converter, the total time of the
    simulator is the sum, from 0 and in the order of the history, of the
    [time_s] of the moves of the returned ['move_history'], which has at most
    one move per line of the file. *)
Theorem convert_file_time_is_history_sum (zs : Q) (cons : bool) (rapid_rate : Q)
  (lines : list str) :
  total_time_seconds
    (state (simulator (fst (fst (convert_file (GCodeConverter_init zs cons rapid_rate)
                                   lines)))))
  = add_times 0
      (sm_move_history
         (snd (convert_file (GCodeConverter_init zs cons rapid_rate) lines)))
  /\ (List.length (sm_move_history
                     (snd (convert_file (GCodeConverter_init zs cons rapid_rate)
                             lines)))
      <= total_lines (snd (convert_file (GCodeConverter_init zs cons rapid_rate)
                             lines)))%nat.
Proof.
  unfold convert_file. cbn [fst snd sm_move_history total_lines].
  rewrite run_pass_run_from.
  destruct (run_from_grown lines (pass_start (GCodeConverter_init zs cons rapid_rate)) 1)
    as (new & (Hh & Ht & _) & Hl).
  rewrite Hh, Ht. cbn [pass_start ps_self GCodeConverter_init simulator
                       GCodeSimulator_init move_history state MachineState_default
                       total_time_seconds app].
  split; [reflexivity|assumption].
Qed.

(* ================================================================= *)
(** * Moves, positions and modal state *)

Lemma apply_settings_current_g (parsed : Parsed) (s : MachineState) :
  current_g (apply_settings parsed s)
  = match pG parsed with
    | Some g => if is_motion_code g then Some g else current_g s
    | None => current_g s
    end.
Proof.
  unfold apply_settings, update_modal.
  destruct (pG parsed) as [g|]; destruct (pF parsed); destruct (pS parsed);
    cbn [current_g set_feed_rate set_spindle_speed]; try reflexivity;
    repeat match goal with
           | |- context [if ?b then _ else _] => destruct b
           end; reflexivity.
Qed.

Lemma apply_settings_feed_rate (parsed : Parsed) (s : MachineState) :
  feed_rate (apply_settings parsed s)
  = match pF parsed with
    | Some f => Some f
    | None => feed_rate s
    end.
Proof.
  unfold apply_settings.
  destruct (pG parsed) as [g|]; destruct (pF parsed); destruct (pS parsed);
    cbn [feed_rate set_feed_rate set_spindle_speed]; try reflexivity;
    now destruct (update_modal_position g s) as (_ & _ & _ & _ & ->).
Qed.


Lemma displaced_false (parsed : Parsed) (s : MachineState) :
  displaced parsed s = false ->
  target_axis (absolute_mode s) (x s) (pX parsed) == x s
  /\ target_axis (absolute_mode s) (y s) (pY parsed) == y s
  /\ target_axis (absolute_mode s) (z s) (pZ parsed) == z s.
Proof.
  unfold displaced. intro H.
  apply orb_false_iff in H as [H Hz]. apply orb_false_iff in H as [Hx Hy].
  apply negb_false_iff in Hx, Hy, Hz.
  repeat split; now apply Qeq_bool_iff.
Qed.

(** The position and the modes after a line that is no probe. *)
Lemma execute_line_state (self : GCodeSimulator) (line : str) :
  probe_z (parse_line line) = None ->
  let s := apply_settings (parse_line line) (state self) in
  let s' := state (fst (execute_line self line)) in
  current_g s' = current_g s
  /\ feed_rate s' = feed_rate s
  /\ absolute_mode s' = absolute_mode s
  /\ (in_motion_mode s = true ->
      x s' == target_axis (absolute_mode s) (x (state self)) (pX (parse_line line))
      /\ y s' == target_axis (absolute_mode s) (y (state self)) (pY (parse_line line))
      /\ z s' == target_axis (absolute_mode s) (z (state self)) (pZ (parse_line line)))
  /\ (in_motion_mode s = false -> position s' = position (state self)).
Proof.
  intros Hp s s'. subst s s'. unfold execute_line.
  destruct (apply_settings_position self (parse_line line)) as (Hx & Hy & Hz & _).
  destruct (execute_parsed_cases self (parse_line line))
    as [(v & Hv & _)|[(_ & Hmd & E)|(_ & Hm & Hd & E)]].
  - congruence.
  - rewrite E. cbn [fst state with_state].
    repeat (split; [reflexivity|]). split.
    + intro Hm. rewrite Hm in Hmd. cbn [andb] in Hmd.
      apply displaced_false in Hmd. rewrite Hx, Hy, Hz in Hmd.
      destruct Hmd as (Dx & Dy & Dz). rewrite Hx, Hy, Hz.
      repeat split; symmetry; assumption.
    + intros _. unfold position. now rewrite Hx, Hy, Hz.
  - rewrite E.
    cbn [fst state mv_to move_of snd x y z set_xyz set_total_time_seconds
         current_g feed_rate absolute_mode].
    repeat (split; [reflexivity|]). split.
    + intros _. rewrite Hx, Hy, Hz. repeat split; reflexivity.
    + intro Hm'. congruence.
Qed.

(** What a probe line does: Z is set, the rest of the state is kept. *)
Lemma execute_line_probe (self : GCodeSimulator) (line : str) (v : Q) :
  probe_z (parse_line line) = Some v ->
  execute_line self line = (with_state (set_z v (state self)) self, None).
Proof.
  intro Hv. unfold execute_line. now apply execute_parsed_probe.
Qed.



(** X4. After a line that is no G10 probe, in a motion mode (G0 to G3) the
    position is the commanded target: each axis named on the line is at its
    value (added to the old one in relative mode), each axis not named is
    kept.  Outside a motion mode the coordinates of the line are ignored. *)
Theorem execute_line_reaches_target (self : GCodeSimulator) (line : str) :
  probe_z (parse_line line) = None ->
  (in_motion_mode (state (fst (execute_line self line))) = true ->
   x (state (fst (execute_line self line)))
   == target_axis (absolute_mode (state (fst (execute_line self line))))
        (x (state self)) (pX (parse_line line))
   /\ y (state (fst (execute_line self line)))
      == target_axis (absolute_mode (state (fst (execute_line self line))))
           (y (state self)) (pY (parse_line line))
   /\ z (state (fst (execute_line self line)))
      == target_axis (absolute_mode (state (fst (execute_line self line))))
           (z (state self)) (pZ (parse_line line)))
  /\ (in_motion_mode (state (fst (execute_line self line))) = false ->
      position (state (fst (execute_line self line))) = position (state self)
      /\ snd (execute_line self line) = None).
Proof.
  intro Hp.
  destruct (execute_line_state self line Hp) as (Hg & _ & Ha & Hm & Hn).
  unfold in_motion_mode in *. rewrite Hg, Ha. split; [exact Hm|].
  intro H. split; [now apply Hn|].
  destruct (snd (execute_line self line)) as [mv|] eqn:E; [|reflexivity].
  destruct (execute_line_emits self line mv E) as (_ & Hm' & _).
  unfold in_motion_mode in Hm'. congruence.
Qed.

Lemma execute_line_reaches_target_witness :
  position (state (fst (execute_line (GCodeSimulator_init 5000) (s2l "X10 Y5"))))
  = (0, 0, 0)
  /\ snd (execute_line (GCodeSimulator_init 5000) (s2l "X10 Y5")) = None.
Proof.
  exact (proj2 (execute_line_reaches_target (GCodeSimulator_init 5000)
                  (s2l "X10 Y5") eq_refl) eq_refl).
Defined.

Section Chains.

Variable same : Q * Q * Q -> Q * Q * Q -> Prop.
Hypothesis same_refl : forall a, same a a.
Hypothesis same_trans : forall a b c, same a b -> same b c -> same a c.

Lemma chained_end (h : list MoveRecord) : forall start mid cur,
  chained same start h mid -> same mid cur -> chained same start h cur.
Proof.
  induction h as [|mv h IH]; intros start mid cur H S; cbn [chained] in *.
  - now apply same_trans with mid.
  - destruct H as [H1 H2]. split; [assumption|]. now apply IH with mid.
Qed.

Lemma chained_snoc (h : list MoveRecord) (mv : MoveRecord) : forall start mid,
  chained same start h mid -> same mid (mv_from mv) ->
  chained same start (h ++ [mv]) (mv_to mv).
Proof.
  induction h as [|m h IH]; intros start mid H S; cbn [chained app] in *.
  - split; [now apply same_trans with mid|apply same_refl].
  - destruct H as [H1 H2]. split; [assumption|]. now apply IH with mid.
Qed.

(** One line keeps a chain going, when the step from the position before it
    to the position after a line that records no move is allowed by [same]. *)
Lemma chained_step (self later : GCodeSimulator) (new : list MoveRecord)
  (line : str) :
  (snd (execute_line later line) = None ->
   same (position (state later))
     (position (state (fst (execute_line later line))))) ->
  chained same (position (state self)) new (position (state later)) ->
  chained same (position (state self))
    (new ++ appended (snd (execute_line later line)))
    (position (state (fst (execute_line later line)))).
Proof.
  intros Hnone H.
  destruct (snd (execute_line later line)) as [mv|] eqn:E; cbn [appended].
  - destruct (execute_line_emits later line mv E) as (Hp & Hm & Hd & Hmv).
    destruct (execute_line_move later line Hp Hm Hd) as (_ & _ & Hto & Hfrom & _).
    cbv zeta in Hto, Hfrom. rewrite <- Hmv in Hto, Hfrom.
    unfold position. rewrite Hto.
    apply chained_snoc with (position (state later)); [assumption|].
    unfold position. rewrite Hfrom. apply same_refl.
  - rewrite app_nil_r.
    apply chained_end with (position (state later)); [assumption|].
    now apply Hnone.
Qed.

End Chains.

Lemma same_xy_refl (a : Q * Q * Q) : same_xy a a.
Proof. split; reflexivity. Qed.

Lemma same_xy_trans (a b c : Q * Q * Q) : same_xy a b -> same_xy b c -> same_xy a c.
Proof. intros [H1 H2] [H3 H4]. split; congruence. Qed.

Lemma same_xyz_refl (a : Q * Q * Q) : same_xyz a a.
Proof. reflexivity. Qed.

Lemma same_xyz_trans (a b c : Q * Q * Q) :
  same_xyz a b -> same_xyz b c -> same_xyz a c.
Proof. unfold same_xyz. congruence. Qed.

(** A line that records no move keeps X and Y; it keeps Z too unless it is a
    probe. *)
Lemma execute_line_no_move (self : GCodeSimulator) (line : str) :
  snd (execute_line self line) = None ->
  same_xy (position (state self)) (position (state (fst (execute_line self line))))
  /\ (probe_z (parse_line line) = None ->
      position (state self) = position (state (fst (execute_line self line)))).
Proof.
  intro H. unfold execute_line in *.
  destruct (apply_settings_position self (parse_line line)) as (Hx & Hy & Hz & _).
  destruct (execute_parsed_cases self (parse_line line))
    as [(v & Hv & E)|[(_ & _ & E)|(_ & _ & _ & E)]]; rewrite E in *;
    cbn [fst snd state with_state position] in *.
  - split; [split; reflexivity|]. congruence.
  - unfold position. rewrite Hx, Hy, Hz. split; [split; reflexivity|reflexivity].
  - discriminate.
Qed.

(** X5. In the history that a list of lines appends, every move starts, in X
    and Y, where the move before it ended, the first one at the position
    before the lines and the last one ending at the position after them.
    The same holds for all three coordinates when no line is a G10 probe
    (a probe sets Z without recording a move). *)
Theorem run_lines_history_chained (self : GCodeSimulator) (lines : list str) :
  exists new : list MoveRecord,
    move_history (run_lines self lines) = move_history self ++ new
    /\ chained same_xy (position (state self)) new
         (position (state (run_lines self lines)))
    /\ (Forall (fun line => probe_z (parse_line line) = None) lines ->
        chained same_xyz (position (state self)) new
          (position (state (run_lines self lines)))).
Proof.
  induction lines as [|l lines IH] using rev_ind.
  - exists []. rewrite app_nil_r. cbn [run_lines fold_left chained].
    split; [reflexivity|]. split; [apply same_xy_refl|intros _; apply same_xyz_refl].
  - destruct IH as (new & Hh & Hxy & Hxyz).
    rewrite run_lines_snoc.
    exists (new ++ appended (snd (execute_line (run_lines self lines) l))).
    destruct (execute_line_step (run_lines self lines) l) as (Hh' & _).
    split; [now rewrite Hh', Hh, app_assoc|]. split.
    + apply chained_step;
        [apply same_xy_refl|apply same_xy_trans| |assumption].
      intro E. now apply execute_line_no_move.
    + intro HF. apply Forall_app in HF as [HF Hl].
      apply chained_step;
        [apply same_xyz_refl|apply same_xyz_trans| |now apply Hxyz].
      intro E. apply execute_line_no_move; [assumption|].
      now apply Forall_inv in Hl.
Qed.

Lemma run_lines_history_chained_witness :
  exists new : list MoveRecord,
    move_history (run_lines (GCodeSimulator_init 5000)
                    [s2l "G0 Z5"; s2l "G1 X3 Y4 F100"; s2l "M5"; s2l "Z0"])
    = new
    /\ chained same_xyz (0, 0, 0) new
         (position (state (run_lines (GCodeSimulator_init 5000)
                             [s2l "G0 Z5"; s2l "G1 X3 Y4 F100"; s2l "M5";
                              s2l "Z0"]))).
Proof.
  assert (HF : Forall (fun line => probe_z (parse_line line) = None)
                 [s2l "G0 Z5"; s2l "G1 X3 Y4 F100"; s2l "M5"; s2l "Z0"])
    by (repeat (constructor; [reflexivity|]); constructor).
  destruct (run_lines_history_chained (GCodeSimulator_init 5000)
              [s2l "G0 Z5"; s2l "G1 X3 Y4 F100"; s2l "M5"; s2l "Z0"])
    as (new & Hh & _ & Hxyz).
  exists new. split; [exact Hh|exact (Hxyz HF)].
Defined.

Lemma motion_code_no_probe (parsed : Parsed) (g : Z) :
  pG parsed = Some g -> is_motion_code g = true -> probe_z parsed = None.
Proof.
  intros Hg Hm. unfold probe_z. rewrite Hg.
  destruct (pZ parsed); [|reflexivity].
  destruct (g =? 10)%Z eqn:E; [|reflexivity].
  apply Z.eqb_eq in E. subst g. discriminate.
Qed.

Lemma no_motion_code_current_g (self : GCodeSimulator) (line : str) :
  no_motion_code line ->
  current_g (state (fst (execute_line self line))) = current_g (state self).
Proof.
  unfold no_motion_code. intro H. rewrite execute_line_current_g.
  destruct (probe_z (parse_line line)); [reflexivity|].
  destruct (pG (parse_line line)) as [g|]; [|reflexivity]. now rewrite H.
Qed.

Lemma run_lines_current_g (lines : list str) : forall self : GCodeSimulator,
  Forall no_motion_code lines ->
  current_g (state (run_lines self lines)) = current_g (state self).
Proof.
  induction lines as [|l lines IH]; intros self H; [reflexivity|].
  rewrite run_lines_cons. inversion H as [|? ? Hl Hr]; subst.
  rewrite (IH _ Hr). now apply no_motion_code_current_g.
Qed.

Lemma execute_line_feed_rate (self : GCodeSimulator) (line : str) :
  feed_rate (state (fst (execute_line self line)))
  = match probe_z (parse_line line), pF (parse_line line) with
    | None, Some f => Some f
    | _, _ => feed_rate (state self)
    end.
Proof.
  destruct (probe_z (parse_line line)) as [v|] eqn:Hp.
  - now rewrite (execute_line_probe self line v Hp).
  - destruct (execute_line_state self line Hp) as (_ & Hf & _).
    rewrite Hf, apply_settings_feed_rate. reflexivity.
Qed.

Lemma run_lines_feed_rate (lines : list str) : forall self : GCodeSimulator,
  Forall (fun line => pF (parse_line line) = None) lines ->
  feed_rate (state (run_lines self lines)) = feed_rate (state self).
Proof.
  induction lines as [|l lines IH]; intros self H; [reflexivity|].
  rewrite run_lines_cons. inversion H as [|? ? Hl Hr]; subst.
  rewrite (IH _ Hr), execute_line_feed_rate, Hl.
  now destruct (probe_z (parse_line l)).
Qed.

(** X6. The motion mode is modal: once a line has set G0, G1, G2 or G3, every
    move recorded later, after any number of lines that carry no motion code,
    is a rapid when that code was 0 and a feed move otherwise. *)
Theorem motion_mode_persists (self : GCodeSimulator) (first : str)
  (between : list str) (last : str) (g : Z) (mv : MoveRecord) :
  pG (parse_line first) = Some g ->
  is_motion_code g = true ->
  Forall no_motion_code between ->
  no_motion_code last ->
  snd (execute_line (run_lines (fst (execute_line self first)) between) last)
  = Some mv ->
  mv_type mv = (if (g =? 0)%Z then rapid else feed).
Proof.
  intros Hg Hm Hb Hl E.
  destruct (execute_line_emits _ _ _ E) as (_ & _ & _ & Hmv).
  assert (Hc : current_g (state (run_lines (fst (execute_line self first)) between))
               = Some g).
  { rewrite (run_lines_current_g _ _ Hb), execute_line_current_g.
    now rewrite (motion_code_no_probe _ _ Hg Hm), Hg, Hm. }
  rewrite Hmv. cbn [mv_type move_of].
  rewrite apply_settings_current_g. unfold no_motion_code in Hl.
  destruct (pG (parse_line last)) as [g'|]; [rewrite Hl|]; rewrite Hc;
    now destruct g as [|[p|p|]|p].
Qed.

Lemma motion_mode_persists_witness :
  exists mv : MoveRecord,
    snd (execute_line
           (run_lines (fst (execute_line (GCodeSimulator_init 5000) (s2l "G1 X1 F100")))
              [s2l "M3 S1000"; s2l "G90"; s2l "(pause)"])
           (s2l "X5 Y2"))
    = Some mv
    /\ mv_type mv = feed.
Proof.
  pose (self := run_lines (fst (execute_line (GCodeSimulator_init 5000)
                                  (s2l "G1 X1 F100")))
                  [s2l "M3 S1000"; s2l "G90"; s2l "(pause)"]).
  pose (mv := move_of 5000 (parse_line (s2l "X5 Y2"))
                (apply_settings (parse_line (s2l "X5 Y2")) (state self))).
  assert (H : snd (execute_line self (s2l "X5 Y2")) = Some mv)
    by (run_line; reflexivity).
  assert (HF : Forall no_motion_code [s2l "M3 S1000"; s2l "G90"; s2l "(pause)"])
    by (repeat (constructor; [vm_compute; first [exact I|reflexivity]|]);
        constructor).
  exists mv. split; [exact H|].
  exact (motion_mode_persists (GCodeSimulator_init 5000) (s2l "G1 X1 F100")
           [s2l "M3 S1000"; s2l "G90"; s2l "(pause)"] (s2l "X5 Y2") 1%Z mv
           eq_refl eq_refl HF I H).
Defined.

(** X7. The feed rate is modal: once a line that is no probe has set F, every
    feed move recorded later, after any number of lines without an F word,
    carries that feed rate and takes [distance / F * 60] seconds when F is
    positive. *)
Theorem feed_rate_persists (self : GCodeSimulator) (first : str)
  (between : list str) (last : str) (f : Q) (mv : MoveRecord) :
  probe_z (parse_line first) = None ->
  pF (parse_line first) = Some f ->
  Forall (fun line => pF (parse_line line) = None) between ->
  pF (parse_line last) = None ->
  snd (execute_line (run_lines (fst (execute_line self first)) between) last)
  = Some mv ->
  mv_type mv = feed ->
  mv_feed_rate mv = Some f
  /\ mv_time_s mv = time_in_seconds (mv_distance mv) f
  /\ (0 < f -> mv_time_s mv = (mv_distance mv / Q2R f * 60)%R).
Proof.
  intros Hp Hf Hb Hl E Ht.
  destruct (execute_line_emits _ _ _ E) as (_ & Hm & _ & Hmv).
  assert (Hfr : feed_rate
                  (apply_settings (parse_line last)
                     (state (run_lines (fst (execute_line self first)) between)))
                = Some f).
  { rewrite apply_settings_feed_rate, Hl, (run_lines_feed_rate _ _ Hb),
      execute_line_feed_rate, Hp, Hf. reflexivity. }
  assert (Hrate : rate_per_minute (rapid_traverse_rate
                                     (run_lines (fst (execute_line self first)) between))
                    (apply_settings (parse_line last)
                       (state (run_lines (fst (execute_line self first)) between)))
                  = f
                  /\ mv_feed_rate mv = Some f).
  { rewrite Hmv in Ht |- *. cbn [mv_type mv_feed_rate move_of] in Ht |- *.
    unfold rate_per_minute, in_motion_mode, is_motion_code in *. rewrite Hfr.
    destruct (current_g
                (apply_settings (parse_line last)
                   (state (run_lines (fst (execute_line self first)) between))))
      as [[|[p|p|]|p]|]; try discriminate; split; try reflexivity;
      destruct p; try discriminate; reflexivity. }
  destruct Hrate as [Hrate Hfeed].
  split; [exact Hfeed|].
  assert (Htime : mv_time_s mv = time_in_seconds (mv_distance mv) f).
  { rewrite Hmv. cbn [mv_time_s mv_distance move_of]. now rewrite Hrate. }
  split; [exact Htime|].
  intro Hpos. rewrite Htime. now apply time_in_seconds_pos.
Qed.

Lemma feed_rate_persists_witness :
  exists mv : MoveRecord,
    snd (execute_line
           (run_lines (fst (execute_line (GCodeSimulator_init 5000) (s2l "F600")))
              [s2l "G1 X3"; s2l "M8"])
           (s2l "Y4"))
    = Some mv
    /\ mv_feed_rate mv = Some (float_of_text (s2l "600")).
Proof.
  pose (self := run_lines (fst (execute_line (GCodeSimulator_init 5000) (s2l "F600")))
                  [s2l "G1 X3"; s2l "M8"]).
  pose (mv := move_of 5000 (parse_line (s2l "Y4"))
                (apply_settings (parse_line (s2l "Y4")) (state self))).
  assert (H : snd (execute_line self (s2l "Y4")) = Some mv)
    by (run_line; reflexivity).
  assert (HF : Forall (fun line => pF (parse_line line) = None)
                 [s2l "G1 X3"; s2l "M8"])
    by (repeat (constructor; [reflexivity|]); constructor).
  exists mv. split; [exact H|].
  exact (proj1 (feed_rate_persists (GCodeSimulator_init 5000) (s2l "F600")
                  [s2l "G1 X3"; s2l "M8"] (s2l "Y4") (float_of_text (s2l "600")) mv
                  eq_refl eq_refl HF eq_refl H eq_refl)).
Defined.

(* ================================================================= *)
(** * Further properties of the converter *)

Lemma should_convert_true_facts (self : GCodeConverter) (parsed : Parsed)
  (st : MachineState) :
  should_convert_to_rapid self parsed st = true ->
  effective_g parsed st = Some 1%Z
  /\ has_xyz parsed = true
  /\ z_safe self <= z st
  /\ z_safe self <= target_z parsed st.
Proof.
  unfold should_convert_to_rapid.
  destruct (effective_g parsed st) as [[|[p|p|]|p]|]; try discriminate.
  destruct (has_xyz parsed); cbn [negb]; [|discriminate].
  destruct (Qgeb (z st) (z_safe self)) eqn:E1; cbn [andb]; [|discriminate].
  destruct (Qgeb (target_z parsed st) (z_safe self)) eqn:E2; [|discriminate].
  intros _. apply Qgeb_true in E1, E2. repeat split; assumption.
Qed.

Lemma should_convert_below (self : GCodeConverter) (parsed : Parsed)
  (st : MachineState) :
  z st < z_safe self -> should_convert_to_rapid self parsed st = false.
Proof.
  intro H.
  destruct (should_convert_to_rapid self parsed st) eqn:E; [|reflexivity].
  apply should_convert_true_facts in E as (_ & _ & Hz & _).
  exfalso. apply (Qlt_not_le _ _ H Hz).
Qed.

Lemma effective_g_cases (parsed : Parsed) (st : MachineState) (g : Z) :
  effective_g parsed st = Some g ->
  pG parsed = Some g \/ (pG parsed = None /\ current_g st = Some g).
Proof.
  unfold effective_g. destruct (pG parsed); intro H; [left|right]; auto.
Qed.

(** X8. The aggressive mode converts whenever the conservative mode does,
    and it converts exactly the G1 moves with a coordinate whose start and
    target Z are both at or above the safe height. *)
Theorem aggressive_converts_more (self : GCodeConverter) (parsed : Parsed)
  (st : MachineState) :
  (should_convert_to_rapid
     (mkConv (z_safe self) true (simulator self)) parsed st = true ->
   should_convert_to_rapid
     (mkConv (z_safe self) false (simulator self)) parsed st = true)
  /\ (should_convert_to_rapid
        (mkConv (z_safe self) false (simulator self)) parsed st = true
      <-> effective_g parsed st = Some 1%Z
          /\ has_xyz parsed = true
          /\ z_safe self <= z st
          /\ z_safe self <= target_z parsed st).
Proof.
  assert (Hagg : effective_g parsed st = Some 1%Z
                 /\ has_xyz parsed = true
                 /\ z_safe self <= z st
                 /\ z_safe self <= target_z parsed st ->
                 should_convert_to_rapid
                   (mkConv (z_safe self) false (simulator self)) parsed st = true).
  { intros (Hg & Hx & H1 & H2). unfold should_convert_to_rapid.
    rewrite Hg, Hx. cbn [negb z_safe conservative andb].
    apply Qgeb_true in H1, H2. rewrite H1, H2. cbn [andb].
    now destruct (is_some (pZ parsed) && Qgeb (target_z parsed st) (z st)). }
  split.
  - intro H. apply Hagg.
    exact (should_convert_true_facts
             (mkConv (z_safe self) true (simulator self)) parsed st H).
  - split; [|exact Hagg].
    intro H.
    exact (should_convert_true_facts
             (mkConv (z_safe self) false (simulator self)) parsed st H).
Qed.

Lemma aggressive_converts_more_witness :
  should_convert_to_rapid (mkConv 17 false (GCodeSimulator_init 5000))
    (parse_line (s2l "G1 X5 Y5")) (set_z 20 MachineState_default)
  = true.
Proof.
  exact (proj1 (aggressive_converts_more GCodeConverter_default
                  (parse_line (s2l "G1 X5 Y5")) (set_z 20 MachineState_default))
           eq_refl).
Defined.


Lemma nth_error_middle (A : Type) (pre post : list A) (a : A) (k : nat) :
  k = List.length pre -> nth_error (pre ++ a :: post) k = Some a.
Proof.
  intros ->. rewrite nth_error_app2 by apply Nat.le_refl.
  now rewrite Nat.sub_diag.
Qed.

Lemma run_from_conversions_incl (ls : list str) : forall (ps : Pass) (n : nat)
  (r : ConversionRecord),
  In r (conversions ps) -> In r (conversions (run_from ps n ls)).
Proof.
  induction ls as [|l ls IH]; intros ps n r H.
  - now rewrite run_from_nil.
  - rewrite run_from_cons. apply IH.
    destruct (decide_line (ps_self ps) (was_prev_line_converted ps) l)
      as [[new_line exec] converted] eqn:D.
    rewrite (convert_step_eq ps n l new_line exec converted D).
    cbn [conversions]. destruct converted; [|assumption].
    apply in_or_app. now left.
Qed.

(** One iteration, by cases: the line is converted and recorded; or it is
    kept, with [G1 ] put before it after a converted line when it moves and
    has no G code. *)
Lemma convert_step_cases (ps : Pass) (n : nat) (line : str) :
  let self := ps_self ps in
  let st := state (simulator self) in
  (should_convert_to_rapid self (parse_line line) st = true
   /\ p_type (parse_line line) = Command
   /\ convert_step ps (n, line)
      = {| ps_self :=
             with_simulator
               (fst (execute_line (simulator self) (rewrite_rapid line))) self;
           output_lines := output_lines ps ++ [rewrite_rapid line];
           conversions :=
             conversions ps ++
             [{| cr_line_num := n; cr_original := strip line;
                 cr_converted := strip (rewrite_rapid line);
                 cr_z_position := z st |}];
           was_prev_line_converted := true |})
  \/ ((p_type (parse_line line) = Empty
       \/ should_convert_to_rapid self (parse_line line) st = false)
      /\ is_motion (parse_line line) && has_no_g_code (parse_line line) = true
      /\ was_prev_line_converted ps = true
      /\ convert_step ps (n, line)
         = {| ps_self :=
                with_simulator
                  (fst (execute_line (simulator self) (inject_g1 line))) self;
              output_lines := output_lines ps ++ [inject_g1 line];
              conversions := conversions ps;
              was_prev_line_converted := false |})
  \/ ((p_type (parse_line line) = Empty
       \/ should_convert_to_rapid self (parse_line line) st = false)
      /\ is_motion (parse_line line) && has_no_g_code (parse_line line)
         && was_prev_line_converted ps = false
      /\ convert_step ps (n, line)
         = {| ps_self :=
                with_simulator (fst (execute_line (simulator self) line)) self;
              output_lines := output_lines ps ++ [line];
              conversions := conversions ps;
              was_prev_line_converted := false |}).
Proof.
  intros self st.
  assert (Hfalse : snd (convert_line self line st) = false ->
                   p_type (parse_line line) = Empty
                   \/ should_convert_to_rapid self (parse_line line) st = false).
  { unfold convert_line. rewrite parse_line_strip.
    destruct (p_type (parse_line line)); [now left|].
    destruct (should_convert_to_rapid self (parse_line line) st);
      [discriminate|now right]. }
  destruct (decide_line_cases self (was_prev_line_converted ps) line)
    as [(Hc & D)|[(Hc & Hi & D)|(Hc & Hi & D)]].
  - left. destruct (convert_line_true self line st Hc) as (_ & Ht & Hs).
    rewrite parse_line_strip in Ht, Hs.
    split; [exact Hs|]. split; [exact Ht|].
    exact (convert_step_eq ps n line _ _ _ D).
  - right. left. rewrite parse_line_strip in Hi.
    apply andb_true_iff in Hi as [Hi Hprev].
    split; [now apply Hfalse|]. split; [exact Hi|]. split; [exact Hprev|].
    exact (convert_step_eq ps n line _ _ _ D).
  - right. right. rewrite parse_line_strip in Hi.
    split; [now apply Hfalse|]. split; [exact Hi|].
    exact (convert_step_eq ps n line _ _ _ D).
Qed.

Lemma nth_error_app_at (A : Type) (pre post : list A) (k : nat) :
  nth_error (pre ++ post) (List.length pre + k) = nth_error post k.
Proof.
  rewrite nth_error_app2 by lia. f_equal. lia.
Qed.

(** A record of the rest of the loop is a record of the loop. *)
Lemma record_at_shift (ps : Pass) (n : nat) (l : str) (ls outs : list str)
  (r : ConversionRecord) :
  record_at (convert_step ps (n, l)) (S n) ls outs r ->
  record_at ps n (l :: ls) outs r.
Proof.
  intros (Hn & line & Hl & Ho & Horig & Hconv & Hz & Hsafe & Htz & Hrest).
  destruct (convert_step_simulator ps (n, l)) as (_ & _ & Hzs & _).
  destruct (convert_step_output_prefix ps (n, l)) as (o & Hout).
  assert (Hk : (cr_line_num r - n = S (cr_line_num r - S n))%nat) by lia.
  split; [lia|]. exists line. rewrite Hk. cbn [nth_error firstn].
  rewrite run_from_cons.
  split; [exact Hl|]. split.
  - rewrite <- Ho, Hout, length_app. cbn [List.length]. f_equal. lia.
  - split; [exact Horig|]. split; [exact Hconv|]. split; [exact Hz|].
    split; [now rewrite <- Hzs|]. split; [now rewrite <- Hzs|exact Hrest].
Qed.

Lemma run_from_records (ls : list str) : forall (ps : Pass) (n : nat),
  exists new : list ConversionRecord,
    conversions (run_from ps n ls) = conversions ps ++ new
    /\ Forall (record_at ps n ls (output_lines (run_from ps n ls))) new
    /\ StronglySorted lt (line_numbers new)
    /\ (List.length new <= List.length ls)%nat.
Proof.
  induction ls as [|l ls IH]; intros ps n.
  - exists []. rewrite run_from_nil, app_nil_r.
    repeat split; constructor.
  - destruct (IH (convert_step ps (n, l)) (S n)) as (new & Hc & Hr & Hs & Hlen).
    assert (Hshift : Forall (record_at ps n (l :: ls)
                               (output_lines (run_from ps n (l :: ls)))) new).
    { rewrite run_from_cons. revert Hr. apply Forall_impl.
      intro r. apply record_at_shift. }
    assert (Hlow : Forall (lt n) (line_numbers new)).
    { unfold line_numbers. apply Forall_map. revert Hr. apply Forall_impl.
      intros r (Hn & _). exact Hn. }
    destruct (run_from_output ls (convert_step ps (n, l)) (S n))
      as (outs & Hout & _).
    destruct (convert_step_cases ps n l)
      as [(Hsc & Hcmd & E)|[(_ & _ & _ & E)|(_ & _ & E)]].
    + exists ({| cr_line_num := n; cr_original := strip l;
                 cr_converted := strip (rewrite_rapid l);
                 cr_z_position := z (state (simulator (ps_self ps))) |} :: new).
      split; [|split; [|split]].
      * rewrite run_from_cons, Hc, E. cbn [conversions].
        now rewrite <- app_assoc.
      * constructor; [|exact Hshift].
        destruct (should_convert_true_facts _ _ _ Hsc) as (Hg & Hx & Hz & Htz).
        split; [cbn; lia|]. exists l. cbn [cr_line_num cr_original cr_converted
                                            cr_z_position].
        rewrite Nat.sub_diag. cbn [nth_error firstn]. rewrite run_from_nil.
        split; [reflexivity|]. split.
        { rewrite run_from_cons, Hout, E. cbn [output_lines].
          rewrite <- app_assoc. apply nth_error_app_at. }
        repeat (split; [reflexivity || assumption|]).
        destruct (effective_g_cases _ _ _ Hg) as [H|[H _]]; auto.
      * cbn [line_numbers map cr_line_num]. constructor; assumption.
      * cbn [List.length]. lia.
    + exists new. split; [|split; [|split]].
      * rewrite run_from_cons, Hc, E. reflexivity.
      * exact Hshift.
      * exact Hs.
      * cbn [List.length]. lia.
    + exists new. split; [|split; [|split]].
      * rewrite run_from_cons, Hc, E. reflexivity.
      * exact Hshift.
      * exact Hs.
      * cbn [List.length]. lia.
Qed.

(** The line written for each line read, and what tells them apart. *)
Lemma run_from_classify (ls : list str) : forall (ps : Pass) (n k : nat)
  (line : str),
  nth_error ls k = Some line ->
  exists out : str,
    nth_error (output_lines (run_from ps n ls)) (List.length (output_lines ps) + k)
    = Some out
    /\ (out = line
        \/ (out = rewrite_rapid line
            /\ exists r, In r (conversions (run_from ps n ls))
                         /\ cr_line_num r = (n + k)%nat)
        \/ (out = inject_g1 line
            /\ is_motion (parse_line line) && has_no_g_code (parse_line line) = true
            /\ match k with
               | O => was_prev_line_converted ps = true
               | S k' => exists r, In r (conversions (run_from ps n ls))
                                   /\ cr_line_num r = (n + k')%nat
               end)).
Proof.
  induction ls as [|l ls IH]; intros ps n k line Hk.
  - destruct k; discriminate.
  - rewrite run_from_cons.
    destruct (run_from_output ls (convert_step ps (n, l)) (S n))
      as (outs & Hout & _).
    destruct k as [|k].
    + injection Hk as <-.
      destruct (convert_step_cases ps n l)
        as [(_ & _ & E)|[(_ & Hi & Hp & E)|(_ & _ & E)]].
      * exists (rewrite_rapid l). split.
        { rewrite Hout, E. cbn [output_lines]. rewrite <- app_assoc.
          apply nth_error_app_at. }
        right. left. split; [reflexivity|].
        exists {| cr_line_num := n; cr_original := strip l;
                  cr_converted := strip (rewrite_rapid l);
                  cr_z_position := z (state (simulator (ps_self ps))) |}.
        split; [|cbn; lia].
        apply run_from_conversions_incl. rewrite E. cbn [conversions].
        apply in_or_app. right. now left.
      * exists (inject_g1 l). split.
        { rewrite Hout, E. cbn [output_lines]. rewrite <- app_assoc.
          apply nth_error_app_at. }
        right. right. repeat split; assumption.
      * exists l. split; [|now left].
        rewrite Hout, E. cbn [output_lines]. rewrite <- app_assoc.
        apply nth_error_app_at.
    + cbn [nth_error] in Hk.
      destruct (IH (convert_step ps (n, l)) (S n) k line Hk)
        as (out & Ho & Hcase).
      destruct (convert_step_output_prefix ps (n, l)) as (o & Hpre).
      exists out. split.
      { rewrite <- Ho, Hpre, length_app. cbn [List.length]. f_equal. lia. }
      destruct Hcase as [H|[(H & r & Hr & Hn)|(H & Hi & Hprev)]].
      * now left.
      * right. left. split; [exact H|]. exists r. split; [exact Hr|lia].
      * right. right. split; [exact H|]. split; [exact Hi|].
        destruct k as [|k'].
        { destruct (convert_step_cases ps n l)
            as [(_ & _ & E)|[(_ & _ & _ & E)|(_ & _ & E)]];
            rewrite E in Hprev; cbn [was_prev_line_converted] in Hprev;
            try discriminate.
          exists {| cr_line_num := n; cr_original := strip l;
                    cr_converted := strip (rewrite_rapid l);
                    cr_z_position := z (state (simulator (ps_self ps))) |}.
          split; [|cbn; lia].
          apply run_from_conversions_incl. rewrite E. cbn [conversions].
          apply in_or_app. right. now left. }
        { destruct Hprev as (r & Hr & Hn). exists r. split; [exact Hr|lia]. }
Qed.

(** X9. The pass writes a line that is empty or a comment, and a line with
    an explicit G code other than 1, exactly as it read it, and makes no
    conversion record for it. *)
Theorem pass_keeps_other_lines (self : GCodeConverter) (lines : list str)
  (i : nat) (line : str) :
  nth_error lines i = Some line ->
  p_type (parse_line line) = Empty
  \/ (exists g : Z, pG (parse_line line) = Some g /\ g <> 1%Z) ->
  nth_error (snd (fst (convert_file self lines))) i = Some line
  /\ ~ In (S i) (line_numbers (sm_conversions (snd (convert_file self lines)))).
Proof.
  intros Hi Hkind.
  unfold convert_file. cbn [fst snd sm_conversions]. rewrite run_pass_run_from.
  assert (Hno : is_motion (parse_line line) && has_no_g_code (parse_line line)
                = false).
  { destruct Hkind as [He|(g & Hg & _)].
    - now rewrite (parse_line_empty line He).
    - unfold has_no_g_code. rewrite Hg. apply andb_false_r. }
  assert (Hrec : forall r, In r (conversions (run_from (pass_start self) 1 lines)) ->
                           cr_line_num r <> S i).
  { intros r Hr Hn.
    destruct (run_from_records lines (pass_start self) 1) as (new & Hc & HF & _).
    rewrite Hc in Hr. cbn [pass_start conversions app] in Hr.
    rewrite Forall_forall in HF.
    destruct (HF r Hr) as (_ & l & Hl & _ & _ & _ & _ & _ & _ & Hcmd & _ & HG).
    rewrite Hn in Hl. cbn [Nat.sub] in Hl. rewrite Nat.sub_0_r in Hl.
    assert (l = line) by congruence. subst l.
    destruct Hkind as [He|(g & Hg & Hne)]; [congruence|].
    destruct HG as [HG|HG]; congruence. }
  split.
  - destruct (run_from_classify lines (pass_start self) 1 i line Hi)
      as (out & Ho & [->|[(_ & r & Hr & Hn)|(_ & Hm & _)]]).
    + exact Ho.
    + exfalso. apply (Hrec r Hr). exact Hn.
    + congruence.
  - unfold line_numbers. rewrite in_map_iff. intros (r & Hn & Hr).
    now apply (Hrec r Hr).
Qed.

Lemma pass_keeps_other_lines_witness :
  nth_error
    (snd (fst (convert_file GCodeConverter_default
                 [s2l "G0 Z20"; s2l "(drill)"; s2l "G1 X5 F100"])))
    1
  = Some (s2l "(drill)").
Proof.
  exact (proj1 (pass_keeps_other_lines GCodeConverter_default
                  [s2l "G0 Z20"; s2l "(drill)"; s2l "G1 X5 F100"] 1 (s2l "(drill)")
                  eq_refl (or_introl eq_refl))).
Defined.

(** X10. Every conversion record is accurate, and every conversion is
    above the safe height: the line number of a record is that of a line of
    the input; the line written at that number is the rewriting of that line;
    [original] and [converted] are the input and the output line, stripped;
    [z_position] is the Z the simulator had reached on the lines before; that
    Z and the Z the line moves to are both at or above [z_safe]; the line has
    a coordinate and its G code is 1 or absent.  The records are in strictly
    increasing order of line number, so there is at most one per line. *)
Theorem conversion_records_accurate (self : GCodeConverter) (lines : list str) :
  Forall
    (fun r =>
       (1 <= cr_line_num r <= List.length lines)%nat
       /\ exists line : str,
            nth_error lines (cr_line_num r - 1) = Some line
            /\ nth_error (snd (fst (convert_file self lines))) (cr_line_num r - 1)
               = Some (rewrite_rapid line)
            /\ cr_original r = strip line
            /\ cr_converted r = strip (rewrite_rapid line)
            /\ cr_z_position r
               = z (state (simulator
                             (fst (fst (convert_file self
                                          (firstn (cr_line_num r - 1) lines))))))
            /\ z_safe self <= cr_z_position r
            /\ z_safe self
               <= target_z (parse_line line)
                    (state (simulator
                              (fst (fst (convert_file self
                                           (firstn (cr_line_num r - 1) lines))))))
            /\ has_xyz (parse_line line) = true
            /\ (pG (parse_line line) = Some 1%Z \/ pG (parse_line line) = None))
    (sm_conversions (snd (convert_file self lines)))
  /\ StronglySorted lt (line_numbers (sm_conversions (snd (convert_file self lines))))
  /\ (List.length (sm_conversions (snd (convert_file self lines)))
      <= List.length lines)%nat.
Proof.
  unfold convert_file. cbn [fst snd sm_conversions].
  destruct (run_from_records lines (pass_start self) 1) as (new & Hc & HF & Hs & Hl).
  rewrite <- run_pass_run_from in Hc, HF.
  rewrite Hc. cbn [pass_start conversions app].
  split; [|split; assumption].
  revert HF. apply Forall_impl.
  intros r (Hn & line & Hline & Hout & Ho & Hcv & Hz & Hsafe & Htz & _ & Hx & HG).
  cbn [pass_start output_lines List.length ps_self Nat.add] in Hout, Hsafe, Htz.
  assert (Hlt : (cr_line_num r - 1 < List.length lines)%nat).
  { apply nth_error_Some. congruence. }
  split; [lia|]. exists line.
  rewrite run_pass_run_from.
  repeat (split; [assumption|]). assumption.
Qed.




Lemma execute_line_keeps_z (self : GCodeSimulator) (line : str) :
  pZ (parse_line line) = None ->
  z (state (fst (execute_line self line))) = z (state self).
Proof.
  intro Hz. unfold execute_line.
  destruct (apply_settings_position self (parse_line line)) as (_ & _ & Hz' & _).
  destruct (execute_parsed_cases self (parse_line line))
    as [(v & Hv & _)|[(_ & _ & E)|(_ & _ & _ & E)]].
  - unfold probe_z in Hv. rewrite Hz in Hv.
    destruct (pG (parse_line line)); discriminate.
  - now rewrite E.
  - rewrite E. cbn [fst state z set_xyz mv_to move_of snd].
    rewrite Hz. cbn [target_axis]. exact Hz'.
Qed.

Lemma run_from_below (ls : list str) : forall (ps : Pass) (n : nat),
  was_prev_line_converted ps = false ->
  z (state (simulator (ps_self ps))) < z_safe (ps_self ps) ->
  Forall (fun line => pZ (parse_line line) = None) ls ->
  output_lines (run_from ps n ls) = output_lines ps ++ ls
  /\ conversions (run_from ps n ls) = conversions ps
  /\ z (state (simulator (ps_self (run_from ps n ls))))
     = z (state (simulator (ps_self ps))).
Proof.
  induction ls as [|l ls IH]; intros ps n Hflag Hlow HF.
  - rewrite run_from_nil, app_nil_r. repeat split.
  - inversion HF as [|? ? Hz Hr]; subst.
    rewrite run_from_cons.
    pose proof (should_convert_below (ps_self ps) (parse_line l) _ Hlow) as Hsc.
    destruct (convert_step_cases ps n l)
      as [(Hc & _)|[(_ & _ & Hp & _)|(_ & _ & E)]]; [congruence..|].
    assert (Hz' : z (state (simulator (ps_self (convert_step ps (n, l)))))
                  = z (state (simulator (ps_self ps)))).
    { rewrite E. cbn [ps_self with_simulator simulator].
      now apply execute_line_keeps_z. }
    destruct (IH (convert_step ps (n, l)) (S n)) as (Ho & Hc & Hzz).
    + now rewrite E.
    + rewrite Hz'. now rewrite E.
    + assumption.
    + rewrite Ho, Hc, Hzz, Hz', E. cbn [output_lines conversions].
      rewrite <- app_assoc. repeat split.
Qed.

(** X12. Below the safe height nothing is converted: when the simulator
    starts under [z_safe] (as a new converter does, at Z = 0 with a positive
    [z_safe]) and no line of the file holds a Z word, the lines written are
    the lines read, and no conversion is recorded. *)
Theorem no_conversion_below_safe_height (self : GCodeConverter)
  (lines : list str) :
  z (state (simulator self)) < z_safe self ->
  Forall (fun line => pZ (parse_line line) = None) lines ->
  snd (fst (convert_file self lines)) = lines
  /\ sm_conversions (snd (convert_file self lines)) = []
  /\ z (state (simulator (fst (fst (convert_file self lines)))))
     = z (state (simulator self)).
Proof.
  intros Hlow HF. unfold convert_file. cbn [fst snd sm_conversions].
  rewrite run_pass_run_from.
  exact (run_from_below lines (pass_start self) 1 eq_refl Hlow HF).
Qed.

Lemma no_conversion_below_safe_height_witness :
  snd (fst (convert_file GCodeConverter_default
              [s2l "G1 X10 Y10 F600"; s2l "X20"; s2l "G0 X0 Y0"]))
  = [s2l "G1 X10 Y10 F600"; s2l "X20"; s2l "G0 X0 Y0"].
Proof.
  assert (HF : Forall (fun line => pZ (parse_line line) = None)
                 [s2l "G1 X10 Y10 F600"; s2l "X20"; s2l "G0 X0 Y0"])
    by (repeat (constructor; [reflexivity|]); constructor).
  exact (proj1 (no_conversion_below_safe_height GCodeConverter_default
                  [s2l "G1 X10 Y10 F600"; s2l "X20"; s2l "G0 X0 Y0"]
                  eq_refl HF)).
Defined.

(** X13. The pass changes no line but a converted one and the line right
    after it: each line written is the line read; or its rewriting as a rapid,
    recorded under its line number; or the line with [G1 ] put before it,
    which happens only to a line without a G code that has a coordinate or an
    arc word and comes right after a recorded conversion. *)
Theorem pass_changes_only_recorded_lines (self : GCodeConverter)
  (lines : list str) (i : nat) (line : str) :
  nth_error lines i = Some line ->
  exists out : str,
    nth_error (snd (fst (convert_file self lines))) i = Some out
    /\ (out = line
        \/ (out = rewrite_rapid line
            /\ In (S i) (line_numbers (sm_conversions (snd (convert_file self lines)))))
        \/ (out = inject_g1 line
            /\ pG (parse_line line) = None
            /\ is_motion (parse_line line) = true
            /\ In i (line_numbers (sm_conversions (snd (convert_file self lines)))))).
Proof.
  intro Hi. unfold convert_file. cbn [fst snd sm_conversions].
  rewrite run_pass_run_from.
  destruct (run_from_classify lines (pass_start self) 1 i line Hi)
    as (out & Ho & Hcase).
  exists out. split; [exact Ho|].
  destruct Hcase as [H|[(H & r & Hr & Hn)|(H & Hm & Hprev)]].
  - now left.
  - right. left. split; [exact H|].
    unfold line_numbers. apply in_map_iff. exists r. split; [exact Hn|exact Hr].
  - right. right. split; [exact H|].
    apply andb_true_iff in Hm as [Hm Hg].
    unfold has_no_g_code in Hg.
    split; [now destruct (pG (parse_line line))|]. split; [exact Hm|].
    destruct i as [|k]; [discriminate|].
    destruct Hprev as (r & Hr & Hn).
    unfold line_numbers. apply in_map_iff. exists r. split; [exact Hn|exact Hr].
Qed.

Lemma pass_changes_only_recorded_lines_witness :
  exists out : str,
    nth_error
      (snd (fst (convert_file GCodeConverter_default
                   [s2l "G0 Z20"; s2l "G1 X5 F100"; s2l "X7"])))
      2
    = Some out
    /\ (out = s2l "X7"
        \/ (out = rewrite_rapid (s2l "X7")
            /\ In 3%nat
                 (line_numbers
                    (sm_conversions
                       (snd (convert_file GCodeConverter_default
                               [s2l "G0 Z20"; s2l "G1 X5 F100"; s2l "X7"])))))
        \/ (out = inject_g1 (s2l "X7")
            /\ pG (parse_line (s2l "X7")) = None
            /\ is_motion (parse_line (s2l "X7")) = true
            /\ In 2%nat
                 (line_numbers
                    (sm_conversions
                       (snd (convert_file GCodeConverter_default
                               [s2l "G0 Z20"; s2l "G1 X5 F100"; s2l "X7"])))))).
Proof.
  exact (pass_changes_only_recorded_lines GCodeConverter_default
           [s2l "G0 Z20"; s2l "G1 X5 F100"; s2l "X7"] 2 (s2l "X7") eq_refl).
Defined.

(* ================================================================= *)
(** * Further properties of [parse_line] *)

Lemma parse_line_clean (line : str) :
  parse_line line
  = match clean line with
    | [] => parsed_empty
    | _ =>
        {| p_type := Command;
           p_original := clean line;
           pG := find_int Pat.g_code (clean line);
           pM := find_int (Pat.letter_int "M") (clean line);
           pX := find_float (Pat.letter_float "X") (clean line);
           pY := find_float (Pat.letter_float "Y") (clean line);
           pZ := find_float (Pat.letter_float "Z") (clean line);
           pI := find_float (Pat.letter_float "I") (clean line);
           pJ := find_float (Pat.letter_float "J") (clean line);
           pK := find_float (Pat.letter_float "K") (clean line);
           pR := find_float (Pat.letter_float "R") (clean line);
           pF := find_float (Pat.letter_float "F") (clean line);
           pS := find_int (Pat.letter_int "S") (clean line) |}
    end.
Proof. reflexivity. Qed.

Lemma parse_line_ext (a b : str) : clean a = clean b -> parse_line a = parse_line b.
Proof. intro H. now rewrite !parse_line_clean, H. Qed.

Lemma rstrip_app_spaces (a ws : str) :
  forallb isspace ws = true -> rstrip (a ++ ws) = rstrip a.
Proof.
  intro H. unfold rstrip. rewrite rev_app_distr.
  now rewrite (lstrip_spaces _ _ (forallb_rev _ _ H)).
Qed.

Lemma lstrip_all_spaces (ws : str) : forallb isspace ws = true -> lstrip ws = [].
Proof.
  intro H. rewrite <- (app_nil_r ws). now rewrite (lstrip_spaces _ _ H).
Qed.

Lemma strip_app_spaces (a ws : str) :
  forallb isspace ws = true -> strip (a ++ ws) = strip a.
Proof.
  intro H. unfold strip. induction a as [|x a IH]; cbn [app lstrip].
  - now rewrite (lstrip_all_spaces _ H).
  - destruct (isspace x); [exact IH|].
    change (x :: a ++ ws) with ((x :: a) ++ ws). now apply rstrip_app_spaces.
Qed.

Lemma strip_pad (ws1 line ws2 : str) :
  forallb isspace ws1 = true -> forallb isspace ws2 = true ->
  strip (ws1 ++ line ++ ws2) = strip line.
Proof.
  intros H1 H2. unfold strip at 1. rewrite (lstrip_spaces _ _ H1).
  now apply strip_app_spaces.
Qed.

Lemma clean_pad (ws1 line ws2 : str) :
  forallb isspace ws1 = true -> forallb isspace ws2 = true ->
  clean (ws1 ++ line ++ ws2) = clean line.
Proof.
  intros H1 H2. unfold clean. now rewrite (strip_pad _ _ _ H1 H2).
Qed.

(** X14. White space around a line -- indentation, trailing blanks, the
    newline, a carriage return -- changes neither what [parse_line] returns
    nor what [execute_line] does. *)
Theorem surrounding_space_ignored (ws1 line ws2 : str) :
  forallb isspace ws1 = true ->
  forallb isspace ws2 = true ->
  parse_line (ws1 ++ line ++ ws2) = parse_line line
  /\ forall self : GCodeSimulator,
       execute_line self (ws1 ++ line ++ ws2) = execute_line self line.
Proof.
  intros H1 H2.
  assert (H : parse_line (ws1 ++ line ++ ws2) = parse_line line)
    by (apply parse_line_ext; now apply clean_pad).
  split; [exact H|]. intro self. unfold execute_line. now rewrite H.
Qed.

Lemma surrounding_space_ignored_witness :
  parse_line (s2l "  " ++ s2l "G1 X5" ++ [" "%char; CR; LF])
  = parse_line (s2l "G1 X5").
Proof.
  exact (proj1 (surrounding_space_ignored (s2l "  ") (s2l "G1 X5")
                  [" "%char; CR; LF] eq_refl eq_refl)).
Defined.

(** What is left of a text is made of its characters. *)
Lemma lstrip_Forall (P : ascii -> Prop) (s : str) :
  Forall P s -> Forall P (lstrip s).
Proof.
  induction s as [|x s IH]; intro H; cbn [lstrip]; [constructor|].
  destruct (isspace x); [|exact H]. apply IH. now inversion H.
Qed.

Lemma rstrip_Forall (P : ascii -> Prop) (s : str) :
  Forall P s -> Forall P (rstrip s).
Proof.
  intro H. unfold rstrip. apply Forall_rev, lstrip_Forall, Forall_rev, H.
Qed.

Lemma strip_Forall (P : ascii -> Prop) (s : str) :
  Forall P s -> Forall P (strip s).
Proof. intro H. unfold strip. now apply rstrip_Forall, lstrip_Forall. Qed.

Lemma sub_from_Forall (P : ascii -> Prop) (p : pattern) (s : str) :
  forall (prev : option ascii) (skip : nat),
    Forall P s -> Forall P (sub_from p [] prev skip s).
Proof.
  induction s as [|x s IH]; intros prev skip H.
  - destruct skip; cbn [sub_from]; [|constructor].
    destruct (match_here p prev []) as [m|]; [|constructor].
    cbn [app]. destruct (List.length (m_text m)); constructor.
  - inversion H as [|? ? Hx Hs]; subst.
    destruct skip as [|k]; cbn [sub_from]; [|now apply IH].
    destruct (match_here p prev (x :: s)) as [m|]; cbn [app].
    + destruct (List.length (m_text m)); [constructor; [exact Hx|]|]; now apply IH.
    + constructor; [exact Hx|now apply IH].
Qed.

Lemma clean_Forall (P : ascii -> Prop) (s : str) :
  Forall P s -> Forall P (clean s).
Proof.
  intro H. unfold clean, sub.
  now apply strip_Forall, sub_from_Forall, sub_from_Forall, strip_Forall.
Qed.

Lemma find_int_lacks (u : ascii) (p' : pattern) (s : str) :
  lacks u s -> find_int (Cls false One (ci u) :: p') s = None.
Proof.
  intro H. unfold find_int, search.
  rewrite (search_from_none (Cls false One (ci u) :: p')
             (fun c => ci u c = false)
             (fun prev t Ht => first_class_none false (ci u) p' prev t Ht)
             s None H).
  reflexivity.
Qed.

Lemma find_float_lacks (u : ascii) (p' : pattern) (s : str) :
  lacks u s -> find_float (Cls false One (ci u) :: p') s = None.
Proof.
  intro H. unfold find_float, search.
  rewrite (search_from_none (Cls false One (ci u) :: p')
             (fun c => ci u c = false)
             (fun prev t Ht => first_class_none false (ci u) p' prev t Ht)
             s None H).
  reflexivity.
Qed.

(** X15. [parse_line] reports a word only when its letter is in the line:
    a line without the letter G, in either case, has no ['G'] in its parse,
    and so for M, X, Y, Z, J, R and F.  (The letters I, K and S are left out:
    under [re.IGNORECASE] their patterns also match characters above U+00FF,
    the dotted and dotless i, the Kelvin sign and the long s, which the text
    of this development does not hold.) *)
Theorem parse_field_needs_letter (line : str) :
  (lacks "G" line -> pG (parse_line line) = None)
  /\ (lacks "M" line -> pM (parse_line line) = None)
  /\ (lacks "X" line -> pX (parse_line line) = None)
  /\ (lacks "Y" line -> pY (parse_line line) = None)
  /\ (lacks "Z" line -> pZ (parse_line line) = None)
  /\ (lacks "J" line -> pJ (parse_line line) = None)
  /\ (lacks "R" line -> pR (parse_line line) = None)
  /\ (lacks "F" line -> pF (parse_line line) = None).
Proof.
  rewrite parse_line_clean.
  repeat split; intro H; apply (clean_Forall _ _) in H;
    (destruct (clean line) eqn:E; [reflexivity|]);
    cbn [pG pM pX pY pZ pJ pR pF];
    first [now apply find_int_lacks | now apply find_float_lacks].
Qed.

Lemma parse_field_needs_letter_witness :
  pZ (parse_line (s2l "G1 X10 Y-2.5 F300")) = None.
Proof.
  assert (H : lacks "Z" (s2l "G1 X10 Y-2.5 F300"))
    by (repeat (constructor; [reflexivity|]); constructor).
  exact (proj1 (proj2 (proj2 (proj2 (proj2
           (parse_field_needs_letter (s2l "G1 X10 Y-2.5 F300")))))) H).
Defined.

Lemma lstrip_app_nonspace (l : str) (x : ascii) (r : str) :
  isspace x = false -> lstrip (l ++ x :: r) = lstrip l ++ x :: r.
Proof.
  intro H. induction l as [|c l IH]; cbn [app lstrip].
  - now rewrite H.
  - destruct (isspace c); [exact IH|reflexivity].
Qed.

Lemma lstrip_idempotent (s : str) : lstrip (lstrip s) = lstrip s.
Proof. apply lstrip_fixed, lstrip_head. Qed.

Lemma strip_lstrip (s : str) : strip (lstrip s) = strip s.
Proof. unfold strip. now rewrite lstrip_idempotent. Qed.

(** The text kept by [rstrip] after a character that is no white space. *)
Lemma rstrip_after_nonspace (a : str) (x : ascii) (t : str) :
  isspace x = false ->
  exists t' : str,
    rstrip (a ++ x :: t) = a ++ x :: t'
    /\ forall P : ascii -> Prop, Forall P t -> Forall P t'.
Proof.
  intro Hx. unfold rstrip. rewrite rev_app_distr. cbn [rev].
  rewrite <- app_assoc. cbn [app].
  assert (H : forall u : str,
             exists u' : str,
               lstrip (u ++ x :: rev a) = u' ++ x :: rev a
               /\ forall P : ascii -> Prop, Forall P u -> Forall P u').
  { induction u as [|c u IH]; cbn [app lstrip].
    - exists []. rewrite Hx. split; [reflexivity|auto].
    - destruct (isspace c).
      + destruct IH as (u' & E & HP). exists u'. split; [exact E|].
        intros P HF. apply HP. now inversion HF.
      + exists (c :: u). split; [reflexivity|auto]. }
  destruct (H (rev t)) as (u' & E & HP). rewrite E.
  exists (rev u'). split.
  - rewrite rev_app_distr. cbn [rev]. rewrite rev_involutive, <- app_assoc.
    reflexivity.
  - intros P HF. apply Forall_rev, HP, Forall_rev, HF.
Qed.

(** The scan of a pattern without [\b] does not look at the character before
    the text. *)
Lemma sub_from_prev_irrel (p : pattern) (repl : str) (s : str) :
  no_wordb p = true ->
  forall (prev prev' : option ascii) (skip : nat),
    sub_from p repl prev skip s = sub_from p repl prev' skip s.
Proof.
  intro Hp. induction s as [|x s IH]; intros prev prev' skip.
  - destruct skip; cbn [sub_from]; [|reflexivity].
    now rewrite (match_here_no_wordb p Hp [] prev prev').
  - destruct skip; cbn [sub_from]; [|reflexivity].
    now rewrite (match_here_no_wordb p Hp (x :: s) prev prev').
Qed.

(** The scan copies a prefix in which the first character of the pattern
    does not occur. *)
Lemma sub_from_prefix (cap : bool) (c : ascii -> bool) (p' : pattern)
  (repl pre t : str) :
  no_wordb p' = true ->
  Forall (fun x => c x = false) pre ->
  forall prev : option ascii,
    sub_from (Cls cap One c :: p') repl prev 0 (pre ++ t)
    = pre ++ sub_from (Cls cap One c :: p') repl None 0 t.
Proof.
  intros Hp HF. induction pre as [|x pre IH]; intro prev; cbn [app].
  - now apply sub_from_prev_irrel.
  - inversion HF as [|? ? Hx Hr]; subst.
    rewrite sub_from_miss.
    + f_equal. now apply IH.
    + cbn [match_here]. now rewrite Hx.
Qed.

(** Once a match is found, its characters are dropped. *)
Lemma sub_from_drop (cap : bool) (c : ascii -> bool) (p' : pattern)
  (repl : str) (s : str) : forall prev : option ascii,
  sub_from (Cls cap One c :: p') repl prev (List.length s) s = [].
Proof.
  induction s as [|x s IH]; intro prev; cbn [List.length sub_from].
  - reflexivity.
  - apply IH.
Qed.

Lemma sub_from_whole (cap : bool) (c : ascii -> bool) (p' : pattern)
  (s : str) (m : rmatch) (prev : option ascii) :
  match_here (Cls cap One c :: p') prev s = Some m ->
  m_text m = s ->
  sub_from (Cls cap One c :: p') [] prev 0 s = [].
Proof.
  intros Hm Ht. destruct s as [|x s].
  - cbn [sub_from]. rewrite Hm. now destruct (List.length (m_text m)).
  - rewrite (sub_from_hit _ _ _ _ _ m (List.length s) Hm)
      by now rewrite Ht.
    cbn [app]. apply sub_from_drop.
Qed.

Lemma match_here_one_cons (cap : bool) (c : ascii -> bool) (p' : pattern)
  (prev : option ascii) (x : ascii) (s : str) :
  match_here (Cls cap One c :: p') prev (x :: s)
  = if c x then option_map (take cap x) (match_here p' (Some x) s) else None.
Proof. reflexivity. Qed.

(** [c*?] followed by one character of [stop]: the match ends at the first
    such character. *)
Lemma lazy_until (c stop : ascii -> bool) (body : str) (y : ascii) (r : str) :
  Forall (fun x => c x = true /\ stop x = false) body ->
  stop y = true ->
  forall prev : option ascii,
    match_here [Cls false LazyStar c; Cls false One stop] prev (body ++ y :: r)
    = Some {| m_text := body ++ [y]; m_group := []; m_rest := r |}.
Proof.
  intros HF Hy. induction body as [|x body IH]; intro prev;
    rewrite match_here_lazy_eq; cbn [app]; rewrite match_here_one_cons.
  - rewrite Hy. reflexivity.
  - inversion HF as [|? ? [Hc Hs] Hr]; subst.
    rewrite Hs. cbn [orelse]. rewrite Hc, (IH Hr (Some x)). reflexivity.
Qed.

(** [c*] followed by [$] on a text of [c] characters: all of it. *)
Lemma star_to_end (c : ascii -> bool) (body : str) :
  Forall (fun x => c x = true) body ->
  forall prev : option ascii,
    match_here [Cls false Star c; EndS] prev body
    = Some {| m_text := body; m_group := []; m_rest := [] |}.
Proof.
  intro HF. induction body as [|x body IH]; intro prev.
  - reflexivity.
  - inversion HF as [|? ? Hc Hr]; subst.
    rewrite match_here_star_cons, Hc, (IH Hr (Some x)). reflexivity.
Qed.

Lemma no_comment_paren (s : str) :
  no_comment s -> Forall (fun x => lit "(" x = false) s.
Proof. apply Forall_impl. now intros a [H _]. Qed.

Lemma no_comment_semi (s : str) :
  no_comment s -> Forall (fun x => lit ";" x = false) s.
Proof. apply Forall_impl. now intros a [_ H]. Qed.

Lemma sub_paren_same (s : str) :
  Forall (fun x => lit "(" x = false) s -> Re.sub Pat.paren_comment [] s = s.
Proof.
  intro H. unfold Re.sub, Pat.paren_comment.
  exact (sub_from_same _ (fun x => lit "(" x = false)
           (fun prev t Ht => first_class_none false (lit "(") _ prev t Ht)
           [] s None H).
Qed.

Lemma sub_semi_same (s : str) :
  Forall (fun x => lit ";" x = false) s -> Re.sub Pat.semi_comment [] s = s.
Proof.
  intro H. unfold Re.sub, Pat.semi_comment.
  exact (sub_from_same _ (fun x => lit ";" x = false)
           (fun prev t Ht => first_class_none false (lit ";") _ prev t Ht)
           [] s None H).
Qed.

(** A text without comments is read as it is, stripped. *)
Lemma clean_no_comment (s : str) : no_comment s -> clean s = strip s.
Proof.
  intro H. unfold clean.
  rewrite (sub_paren_same _ (no_comment_paren _ (strip_Forall _ _ H))).
  rewrite (sub_semi_same _ (no_comment_semi _ (strip_Forall _ _ H))).
  apply strip_idempotent.
Qed.

Lemma clean_paren_comment (l c ws : str) :
  no_comment l ->
  Forall (fun x => dot x = true /\ lit ")" x = false) c ->
  forallb isspace ws = true ->
  clean (l ++ "("%char :: c ++ ")"%char :: ws) = clean l.
Proof.
  intros Hl Hc Hws.
  rewrite (clean_no_comment l Hl).
  replace (l ++ "("%char :: c ++ ")"%char :: ws)
    with ([] ++ (l ++ "("%char :: c ++ [")"%char]) ++ ws)
    by (cbn [app]; rewrite <- !app_assoc; cbn [app]; rewrite <- app_assoc;
        reflexivity).
  rewrite (clean_pad [] _ ws eq_refl Hws).
  unfold clean.
  assert (Hs : strip (l ++ "("%char :: c ++ [")"%char])
               = lstrip l ++ "("%char :: c ++ [")"%char]).
  { unfold strip. rewrite lstrip_app_nonspace by reflexivity.
    apply rstrip_fixed.
    change ("("%char :: c ++ [")"%char]) with (("("%char :: c) ++ [")"%char]).
    rewrite app_assoc, ends_space_app by discriminate. reflexivity. }
  rewrite Hs. unfold Re.sub at 2. unfold Pat.paren_comment.
  rewrite (sub_from_prefix false (lit "(")
             [Cls false LazyStar dot; Cls false One (lit ")")] [] (lstrip l) _
             eq_refl (lstrip_Forall _ _ (no_comment_paren _ Hl)) None).
  assert (Hm : match_here
                 [Cls false One (lit "("); Cls false LazyStar dot;
                  Cls false One (lit ")")] None ("("%char :: c ++ [")"%char])
               = Some {| m_text := "("%char :: c ++ [")"%char]; m_group := [];
                         m_rest := [] |}).
  { change (match_here
              [Cls false One (lit "("); Cls false LazyStar dot;
               Cls false One (lit ")")] None ("("%char :: c ++ [")"%char]))
      with (option_map (take false "("%char)
              (match_here [Cls false LazyStar dot; Cls false One (lit ")")]
                 (Some "("%char) (c ++ [")"%char]))).
    now rewrite (lazy_until dot (lit ")") c ")"%char [] Hc eq_refl). }
  rewrite (sub_from_whole _ _ _ _ _ None Hm eq_refl), app_nil_r.
  rewrite (sub_semi_same _ (lstrip_Forall _ _ (no_comment_semi _ Hl))).
  apply strip_lstrip.
Qed.

Lemma clean_semi_comment (l c ws : str) :
  no_comment l ->
  Forall (fun x => dot x = true) c ->
  forallb isspace ws = true ->
  clean (l ++ ";"%char :: c ++ ws) = clean l.
Proof.
  intros Hl Hc Hws.
  rewrite (clean_no_comment l Hl).
  replace (l ++ ";"%char :: c ++ ws) with ([] ++ (l ++ ";"%char :: c) ++ ws)
    by (cbn [app]; now rewrite <- app_assoc).
  rewrite (clean_pad [] _ ws eq_refl Hws).
  unfold clean.
  destruct (rstrip_after_nonspace (lstrip l) ";"%char c eq_refl)
    as (c1 & Hr & Hc1).
  assert (Hs : strip (l ++ ";"%char :: c) = lstrip l ++ ";"%char :: c1).
  { unfold strip. now rewrite lstrip_app_nonspace by reflexivity. }
  rewrite Hs. unfold Re.sub at 2. unfold Pat.paren_comment.
  rewrite (sub_from_prefix false (lit "(")
             [Cls false LazyStar dot; Cls false One (lit ")")] [] (lstrip l) _
             eq_refl (lstrip_Forall _ _ (no_comment_paren _ Hl)) None).
  rewrite sub_from_miss by reflexivity.
  pose proof (sub_from_Forall _
                [Cls false One (lit "("); Cls false LazyStar dot;
                 Cls false One (lit ")")] c1 (Some ";"%char) 0 (Hc1 _ Hc)) as Hc2.
  set (c2 := sub_from [Cls false One (lit "("); Cls false LazyStar dot;
                       Cls false One (lit ")")] [] (Some ";"%char) 0 c1) in *.
  unfold Re.sub, Pat.semi_comment.
  rewrite (sub_from_prefix false (lit ";") [Cls false Star dot; EndS] []
             (lstrip l) _ eq_refl
             (lstrip_Forall _ _ (no_comment_semi _ Hl)) None).
  assert (Hm : match_here [Cls false One (lit ";"); Cls false Star dot; EndS]
                 None (";"%char :: c2)
               = Some {| m_text := ";"%char :: c2; m_group := []; m_rest := [] |}).
  { change (match_here [Cls false One (lit ";"); Cls false Star dot; EndS]
              None (";"%char :: c2))
      with (option_map (take false ";"%char)
              (match_here [Cls false Star dot; EndS] (Some ";"%char) c2)).
    now rewrite (star_to_end dot c2 Hc2). }
  rewrite (sub_from_whole _ _ _ _ _ None Hm eq_refl), app_nil_r.
  apply strip_lstrip.
Qed.

(** X16. A comment at the end of a line is ignored: a line followed by a
    parenthesised comment, or by a semicolon and any text up to the end of the
    line, parses as the line alone; a line that is only a comment parses as
    empty.  (The line before the comment holds no comment character; the
    parenthesised text holds no closing parenthesis and no newline; the text
    after the semicolon holds no newline.) *)
Theorem trailing_comment_ignored (l c ws : str) :
  no_comment l ->
  forallb isspace ws = true ->
  (Forall (fun x => dot x = true /\ lit ")" x = false) c ->
   parse_line (l ++ "("%char :: c ++ ")"%char :: ws) = parse_line l
   /\ parse_line ("("%char :: c ++ ")"%char :: ws) = parsed_empty)
  /\ (Forall (fun x => dot x = true) c ->
      parse_line (l ++ ";"%char :: c ++ ws) = parse_line l
      /\ parse_line (";"%char :: c ++ ws) = parsed_empty).
Proof.
  intros Hl Hws. split; intro Hc; split.
  - apply parse_line_ext. now apply clean_paren_comment.
  - change (parse_line ([] ++ "("%char :: c ++ ")"%char :: ws) = parse_line []).
    apply parse_line_ext. apply clean_paren_comment; [constructor|assumption..].
  - apply parse_line_ext. now apply clean_semi_comment.
  - change (parse_line ([] ++ ";"%char :: c ++ ws) = parse_line []).
    apply parse_line_ext. apply clean_semi_comment; [constructor|assumption..].
Qed.

Lemma trailing_comment_ignored_witness :
  parse_line (s2l "G1 X5 " ++ "("%char :: s2l "to X5, Z up" ++ ")"%char :: [LF])
  = parse_line (s2l "G1 X5 ")
  /\ parse_line (s2l "G1 X5 " ++ ";"%char :: s2l " G0 (not read) " ++ [LF])
     = parse_line (s2l "G1 X5 ").
Proof.
  assert (Hl : no_comment (s2l "G1 X5 "))
    by (repeat (constructor; [split; reflexivity|]); constructor).
  assert (Hc1 : Forall (fun x => dot x = true /\ lit ")" x = false)
                  (s2l "to X5, Z up"))
    by (repeat (constructor; [split; reflexivity|]); constructor).
  assert (Hc2 : Forall (fun x => dot x = true) (s2l " G0 (not read) "))
    by (repeat (constructor; [reflexivity|]); constructor).
  split.
  - exact (proj1 (proj1 (trailing_comment_ignored (s2l "G1 X5 ")
                           (s2l "to X5, Z up") [LF] Hl eq_refl) Hc1)).
  - exact (proj1 (proj2 (trailing_comment_ignored (s2l "G1 X5 ")
                           (s2l " G0 (not read) ") [LF] Hl eq_refl) Hc2)).
Defined.

Lemma match_here_opt_cons (cap : bool) (c : ascii -> bool) (p' : pattern)
  (prev : option ascii) (x : ascii) (s : str) :
  match_here (Cls cap Opt c :: p') prev (x :: s)
  = if c x
    then orelse (option_map (take cap x) (match_here p' (Some x) s))
                (match_here p' prev (x :: s))
    else match_here p' prev (x :: s).
Proof. reflexivity. Qed.

Lemma match_here_opt_nil (cap : bool) (c : ascii -> bool) (p' : pattern)
  (prev : option ascii) :
  match_here (Cls cap Opt c :: p') prev [] = match_here p' prev [].
Proof. reflexivity. Qed.

Lemma match_here_plus_nil (cap : bool) (c : ascii -> bool) (p' : pattern)
  (prev : option ascii) :
  match_here (Cls cap Plus c :: p') prev [] = None.
Proof. reflexivity. Qed.



(** The run of digits stops where the tail begins. *)
Lemma star_digits_stop (cap : bool) (tail : str) (prev : option ascii) :
  stops_digits tail ->
  match_here [Cls cap Star isdigit] prev tail
  = Some {| m_text := []; m_group := []; m_rest := tail |}.
Proof.
  destruct tail as [|c t]; intro H; [reflexivity|].
  cbn [stops_digits] in H. now rewrite match_here_star_cons, H.
Qed.

Lemma plus_digits_stop (cap : bool) (ds tail : str) (prev : option ascii) :
  ds <> [] -> all_digits ds = true -> stops_digits tail ->
  match_here [Cls cap Plus isdigit] prev (ds ++ tail)
  = Some {| m_text := ds; m_group := if cap then ds else []; m_rest := tail |}.
Proof.
  intros Hne Hds Ht. destruct ds as [|d ds]; [contradiction|].
  cbn [all_digits forallb] in Hds. apply andb_true_iff in Hds as [Hd Hds].
  cbn [app]. rewrite match_here_plus_cons, Hd.
  rewrite (star_digits_all cap [] ds (Some d) tail
             {| m_text := []; m_group := []; m_rest := tail |} Hds
             (fun prev' => star_digits_stop cap tail prev' Ht)).
  cbn [option_map take m_text m_group m_rest]. rewrite !app_nil_r.
  now destruct cap.
Qed.

Lemma plus_digits_none (cap : bool) (tail : str) (prev : option ascii) :
  stops_digits tail -> match_here [Cls cap Plus isdigit] prev tail = None.
Proof.
  destruct tail as [|c t]; intro H; [reflexivity|].
  cbn [stops_digits] in H. now rewrite match_here_plus_cons, H.
Qed.

Lemma lit_true (a x : ascii) : lit a x = true -> x = a.
Proof. unfold lit, chr_eqb. apply Ascii.eqb_eq. Qed.

Lemma digit_val_zero : digit_val "0" = 0%Z.
Proof. reflexivity. Qed.

Lemma int_of_digits_zero_cons (ds : str) :
  int_of_digits ("0"%char :: ds) = int_of_digits ds.
Proof. reflexivity. Qed.


(** [0*(\d+)] on a run of digits: all of it is matched, and the digits of
    the group have the value of the run. *)
Lemma zeros_digits_match (ds tail : str) :
  stops_digits tail ->
  ds <> [] -> all_digits ds = true ->
  forall prev : option ascii,
    exists grp : str,
      match_here [Cls false Star (lit "0"); Cls true Plus isdigit] prev (ds ++ tail)
      = Some {| m_text := ds; m_group := grp; m_rest := tail |}
      /\ int_of_digits grp = int_of_digits ds.
Proof.
  intro Ht. induction ds as [|d ds IH]; intros Hne Hds prev; [contradiction|].
  pose proof Hds as Hall.
  cbn [all_digits forallb] in Hds. apply andb_true_iff in Hds as [Hd Hds].
  cbn [app]. rewrite match_here_star_cons.
  destruct (lit "0" d) eqn:E.
  - apply lit_true in E. subst d.
    destruct ds as [|d' ds].
    + exists ["0"%char]. split; [|reflexivity]. cbn [app].
      assert (Hnone : match_here [Cls false Star (lit "0"); Cls true Plus isdigit]
                        (Some "0"%char) tail = None).
      { destruct tail as [|c t]; [reflexivity|]. cbn [stops_digits] in Ht.
        rewrite match_here_star_cons.
        assert (Hz : lit "0" c = false).
        { destruct (lit "0" c) eqn:Ec; [|reflexivity].
          apply lit_true in Ec. subst c. discriminate. }
        rewrite Hz. now apply plus_digits_none. }
      rewrite Hnone. cbn [option_map orelse].
      exact (plus_digits_stop true ["0"%char] tail prev
               (not_eq_sym (@nil_cons _ _ _)) eq_refl Ht).
    + destruct (IH (not_eq_sym (@nil_cons _ _ _))
                  Hds (Some "0"%char)) as (grp & Hm & Hv).
      exists grp. rewrite Hm. split; [reflexivity|].
      now rewrite Hv, int_of_digits_zero_cons.
  - exists (d :: ds). split; [|reflexivity].
    exact (plus_digits_stop true (d :: ds) tail prev
             (not_eq_sym (@nil_cons _ _ _)) Hall Ht).
Qed.



Lemma ci_cases (u a : ascii) :
  ci u a = true -> a = u \/ a = ascii_of_N (code u + 32).
Proof.
  unfold ci, chr_eqb, code. intro H. apply orb_true_iff in H as [H|H].
  - left. now apply Ascii.eqb_eq.
  - right. apply N.eqb_eq in H. rewrite <- H. symmetry.
    apply ascii_N_embedding.
Qed.




Lemma all_digits_app (a b : str) :
  all_digits a = true -> all_digits b = true -> all_digits (a ++ b) = true.
Proof.
  unfold all_digits. intros Ha Hb. rewrite forallb_app. now rewrite Ha, Hb.
Qed.

Lemma all_digits_zeros (n : nat) : all_digits (repeat "0"%char n) = true.
Proof. induction n as [|n IH]; [reflexivity|exact IH]. Qed.






Lemma stops_number_digits (tail : str) : stops_number tail -> stops_digits tail.
Proof. destruct tail; cbn; [auto|now intros [H _]]. Qed.

(** [\d*\.?\d+] on a decimal followed by a text that stops a number: the
    decimal is matched whole. *)
Lemma number_tail_digits_stop (ds tail : str) :
  stops_number tail ->
  forall prev : option ascii,
    ds <> [] -> all_digits ds = true ->
    match_here number_tail prev (ds ++ tail)
    = Some {| m_text := ds; m_group := ds; m_rest := tail |}.
Proof.
  intro Ht. unfold number_tail.
  induction ds as [|d ds IH]; intros prev Hne Hds; [contradiction|].
  pose proof Hds as Hall.
  cbn [all_digits forallb] in Hds. apply andb_true_iff in Hds as [Hd Hds].
  cbn [app]. rewrite match_here_star_cons, Hd.
  destruct ds as [|d' ds].
  - assert (Hdot : lit "." d = false)
      by (apply (digit_class (lit ".")); [reflexivity|exact Hd]).
    assert (Hnone : match_here
                      [Cls true Star isdigit; Cls true Opt (lit ".");
                       Cls true Plus isdigit] (Some d) ([] ++ tail) = None).
    { cbn [app]. destruct tail as [|c t]; [reflexivity|].
      cbn [stops_number] in Ht. destruct Ht as [Hc1 Hc2].
      rewrite match_here_star_cons, Hc1, match_here_opt_cons, Hc2.
      now rewrite match_here_plus_cons, Hc1. }
    rewrite Hnone. cbn [option_map orelse].
    rewrite match_here_opt_cons, Hdot.
    exact (plus_digits_stop true [d] tail prev (not_eq_sym (@nil_cons _ _ _))
             Hall (stops_number_digits _ Ht)).
  - rewrite (IH (Some d) (not_eq_sym (@nil_cons _ _ _)) Hds). reflexivity.
Qed.

Lemma number_tail_fraction_stop (ip fp tail : str) (prev : option ascii) :
  stops_number tail ->
  fp <> [] -> all_digits ip = true -> all_digits fp = true ->
  match_here number_tail prev ((ip ++ "."%char :: fp) ++ tail)
  = Some {| m_text := ip ++ "."%char :: fp;
            m_group := ip ++ "."%char :: fp;
            m_rest := tail |}.
Proof.
  intros Ht Hne Hip Hfp. unfold number_tail.
  rewrite <- app_assoc. cbn [app].
  assert (Hrest : forall prev' : option ascii,
             match_here
               [Cls true Star isdigit; Cls true Opt (lit "."); Cls true Plus isdigit]
               prev' ("."%char :: fp ++ tail)
             = Some {| m_text := "."%char :: fp; m_group := "."%char :: fp;
                       m_rest := tail |}).
  { intro prev'. rewrite match_here_star_cons.
    replace (isdigit ".") with false by reflexivity.
    rewrite match_here_opt_cons.
    replace (lit "." ".") with true by reflexivity.
    rewrite (plus_digits_stop true fp tail (Some "."%char) Hne Hfp
               (stops_number_digits _ Ht)).
    reflexivity. }
  rewrite (star_digits_all true _ ip prev _ _ Hip Hrest). reflexivity.
Qed.

Lemma number_tail_decimal_stop (ip fp tail : str) (prev : option ascii) :
  stops_number tail ->
  ip <> [] -> all_digits ip = true -> all_digits fp = true ->
  match_here number_tail prev (decimal_text ip fp ++ tail)
  = Some {| m_text := decimal_text ip fp; m_group := decimal_text ip fp;
            m_rest := tail |}.
Proof.
  intros Ht Hne Hip Hfp. unfold decimal_text. destruct fp as [|d fp].
  - now apply number_tail_digits_stop.
  - apply number_tail_fraction_stop;
      [assumption|apply not_eq_sym, nil_cons|assumption..].
Qed.





(** [[-+]?\d*\.?\d+] on a signed decimal followed by a text that stops a
    number. *)
Lemma signed_decimal_match (sgn ip fp tail : str) (prev : option ascii) :
  sgn = [] \/ sgn = ["+"%char] \/ sgn = ["-"%char] ->
  ip <> [] -> all_digits ip = true -> all_digits fp = true ->
  stops_number tail ->
  match_here
    [Cls true Opt sign; Cls true Star isdigit; Cls true Opt (lit ".");
     Cls true Plus isdigit] prev (sgn ++ decimal_text ip fp ++ tail)
  = Some {| m_text := sgn ++ decimal_text ip fp;
            m_group := sgn ++ decimal_text ip fp;
            m_rest := tail |}.
Proof.
  intros Hs Hne Hip Hfp Ht.
  pose proof (fun prev => number_tail_decimal_stop ip fp tail prev Ht Hne Hip Hfp)
    as Hnum.
  unfold number_tail in Hnum.
  destruct Hs as [->|[->| ->]]; cbn [app].
  - destruct (decimal_text_head ip fp Hne Hip Hfp) as (d & t & E & Hd).
    assert (Hsd : sign d = false)
      by (apply (digit_class sign); [reflexivity|exact Hd]).
    rewrite <- (Hnum prev). rewrite E. cbn [app].
    now rewrite match_here_opt_cons, Hsd.
  - rewrite match_here_opt_cons.
    replace (sign "+") with true by reflexivity.
    now rewrite Hnum.
  - rewrite match_here_opt_cons.
    replace (sign "-") with true by reflexivity.
    now rewrite Hnum.
Qed.





(* ================================================================= *)
(** * Further properties of [convert_line] *)

Lemma option_map_orelse (A B : Type) (f : A -> B) (a b : option A) :
  option_map f (orelse a b) = orelse (option_map f a) (option_map f b).
Proof. now destruct a. Qed.

Lemma erase_take (cap : bool) (x : ascii) (o : option rmatch) :
  option_map erase (option_map (take cap x) o)
  = option_map (take false x) (option_map erase o).
Proof. destruct o as [m|]; [|reflexivity]. now destruct cap. Qed.

(** The group marks of a pattern do not change what it matches. *)
Lemma match_here_uncap (p : pattern) : forall (prev : option ascii) (s : str),
  match_here (uncap p) prev s = option_map erase (match_here p prev s).
Proof.
  induction p as [|i p IH]; intros prev s.
  - reflexivity.
  - destruct i as [cap q c| |]; cbn [uncap map uncap_item];
      fold (uncap p).
    + assert (Hstar : forall (s : str) (prev : option ascii),
                 match_here (Cls false Star c :: uncap p) prev s
                 = option_map erase (match_here (Cls cap Star c :: p) prev s)).
      { clear s prev. induction s as [|x s IHs]; intro prev.
        - rewrite !match_here_star_nil. apply IH.
        - rewrite !match_here_star_cons. destruct (c x); [|apply IH].
          now rewrite option_map_orelse, erase_take, IHs, IH. }
      destruct q.
      * destruct s as [|x s]; [reflexivity|].
        rewrite !match_here_one_cons. destruct (c x); [|reflexivity].
        now rewrite erase_take, IH.
      * destruct s as [|x s].
        { rewrite !match_here_opt_nil. apply IH. }
        rewrite !match_here_opt_cons. destruct (c x); [|apply IH].
        now rewrite option_map_orelse, erase_take, !IH.
      * apply Hstar.
      * destruct s as [|x s]; [reflexivity|].
        rewrite !match_here_plus_cons. destruct (c x); [|reflexivity].
        now rewrite erase_take, Hstar.
      * revert prev. induction s as [|x s IHs]; intro prev;
          rewrite (match_here_lazy_eq cap), (match_here_lazy_eq false),
            option_map_orelse, IH; [reflexivity|].
        destruct (c x); [|reflexivity].
        now rewrite erase_take, IHs.
    + cbn [match_here]. destruct (at_boundary prev s); [apply IH|reflexivity].
    + cbn [match_here]. destruct (at_end s); [apply IH|reflexivity].
Qed.

(** [c*] takes a run of [c] characters when the rest of the pattern matches
    after it. *)
Lemma star_class_all (cap : bool) (c : ascii -> bool) (p' : pattern) (run : str) :
  forall (prev : option ascii) (t : str) (m : rmatch),
    Forall (fun x => c x = true) run ->
    (forall prev' : option ascii,
        match_here (Cls cap Star c :: p') prev' t = Some m) ->
    match_here (Cls cap Star c :: p') prev (run ++ t)
    = Some {| m_text := run ++ m_text m;
              m_group := if cap then run ++ m_group m else m_group m;
              m_rest := m_rest m |}.
Proof.
  induction run as [|d run IH]; intros prev t m Hrun Hm.
  - cbn [app]. rewrite Hm. destruct m, cap; reflexivity.
  - inversion Hrun as [|? ? Hd Hr]; subst.
    cbn [app]. rewrite match_here_star_cons, Hd.
    rewrite (IH (Some d) t m Hr Hm). destruct cap; reflexivity.
Qed.

Lemma isspace_not_word (x : ascii) : isspace x = true -> isword x = false.
Proof.
  destruct x as [[] [] [] [] [] [] [] []]; cbv; intro H;
    first [reflexivity | discriminate].
Qed.

Lemma forallb_Forall_true (f : ascii -> bool) (s : str) :
  forallb f s = true -> Forall (fun x => f x = true) s.
Proof. intro H. apply Forall_forall. now apply forallb_forall. Qed.

(** After the characters of a match have been dropped the scan goes on. *)
Lemma sub_from_skip_all (p : pattern) (repl : str) (pre t r : str) :
  (forall prev : option ascii, sub_from p repl prev 0 t = r) ->
  forall prev : option ascii,
    sub_from p repl prev (List.length pre) (pre ++ t) = r.
Proof.
  intro H. induction pre as [|x pre IH]; intro prev; cbn [List.length app].
  - apply H.
  - rewrite sub_from_skip. apply IH.
Qed.

Lemma sub_from_drop_gen (p : pattern) (repl : str) (s : str) :
  (forall prev : option ascii, match_here p prev [] = None) ->
  forall prev : option ascii, sub_from p repl prev (List.length s) s = [].
Proof.
  intro Hp. induction s as [|x s IH]; intro prev; cbn [List.length sub_from].
  - now rewrite Hp.
  - apply IH.
Qed.

Lemma sub_from_whole_gen (p : pattern) (s : str) (m : rmatch)
  (prev : option ascii) :
  (forall prev' : option ascii, match_here p prev' [] = None) ->
  match_here p prev s = Some m ->
  m_text m = s ->
  sub_from p [] prev 0 s = [].
Proof.
  intros Hp Hm Ht. destruct s as [|x s].
  - now rewrite Hp in Hm.
  - rewrite (sub_from_hit _ _ _ _ _ m (List.length s) Hm) by now rewrite Ht.
    cbn [app]. now apply sub_from_drop_gen.
Qed.

(** [\s*F...] does not match inside a text without the letter F that ends
    with a character that is no white space. *)
Lemma feed_token_no_match (t rest : str) :
  t <> [] -> lacks "F" t -> ends_space t = false ->
  forall prev : option ascii, match_here Pat.feed_token prev (t ++ rest) = None.
Proof.
  unfold Pat.feed_token.
  induction t as [|x t IH]; intros Hne Hl He prev; [contradiction|].
  inversion Hl as [|? ? Hx Hr]; subst.
  cbn [app]. rewrite match_here_star_cons, match_here_one_cons, Hx.
  destruct (isspace x) eqn:Es; [|reflexivity].
  destruct t as [|y t].
  - cbn [ends_space rev app] in He. congruence.
  - rewrite (IH (not_eq_sym (@nil_cons _ _ _)) Hr
               (ends_space_tail _ _ He) (Some x)).
    reflexivity.
Qed.

Lemma sub_feed_prefix (a rest : str) :
  lacks "F" a -> ends_space a = false ->
  forall prev : option ascii,
    sub_from Pat.feed_token [] prev 0 (a ++ rest)
    = a ++ sub_from Pat.feed_token [] None 0 rest.
Proof.
  induction a as [|x a IH]; intros Hl He prev.
  - cbn [app]. now apply sub_from_prev_irrel.
  - cbn [app]. rewrite sub_from_miss.
    + f_equal. destruct a as [|y a].
      * cbn [app]. now apply sub_from_prev_irrel.
      * apply IH; [now inversion Hl|exact (ends_space_tail _ _ He)].
    + exact (feed_token_no_match (x :: a) rest (not_eq_sym (@nil_cons _ _ _))
               Hl He prev).
Qed.

Lemma feed_word_match (fw : str) :
  feed_word fw -> fw <> [] ->
  forall prev : option ascii,
    match_here Pat.feed_token prev fw
    = Some {| m_text := fw; m_group := []; m_rest := [] |}.
Proof.
  intros H Hne prev. destruct H as [|sp f sgn ip fp Hsp Hf Hs Hip0 Hip Hfp];
    [contradiction|].
  assert (Hfs : isspace f = false)
    by (destruct (ci_cases _ _ Hf) as [->| ->]; reflexivity).
  pose proof (match_here_uncap
                [Cls true Opt sign; Cls true Star isdigit; Cls true Opt (lit ".");
                 Cls true Plus isdigit] (Some f) (sgn ++ decimal_text ip fp ++ []))
    as Hu.
  rewrite (signed_decimal_match sgn ip fp [] (Some f) Hs Hip0 Hip Hfp I) in Hu.
  rewrite app_nil_r in Hu.
  cbn [uncap map uncap_item option_map erase m_text m_rest] in Hu.
  unfold Pat.feed_token.
  rewrite (star_class_all false isspace _ sp prev (f :: sgn ++ decimal_text ip fp)
             {| m_text := f :: sgn ++ decimal_text ip fp; m_group := [];
                m_rest := [] |} (forallb_Forall_true _ _ Hsp)).
  - reflexivity.
  - intro prev'. now rewrite match_here_star_cons, Hfs, match_here_one_cons, Hf, Hu.
Qed.

Lemma sub_feed_word (fw : str) :
  feed_word fw -> sub_from Pat.feed_token [] None 0 fw = [].
Proof.
  intro H. destruct fw as [|x fw]; [reflexivity|].
  apply (sub_from_whole_gen Pat.feed_token _ _ None (fun _ => eq_refl)
           (feed_word_match _ H (not_eq_sym (@nil_cons _ _ _)) None)).
  reflexivity.
Qed.

Lemma isspace_not_letter (u x : ascii) :
  In u (s2l "GF") -> isspace x = true -> ci u x = false.
Proof.
  intros Hu. cbn in Hu. destruct Hu as [<-|[<-|[]]];
    destruct x as [[] [] [] [] [] [] [] []]; cbv; intro H;
    first [reflexivity | discriminate].
Qed.

Lemma feed_word_lacks_g (fw : str) : feed_word fw -> lacks "G" fw.
Proof.
  intro H. destruct H as [|sp f sgn ip fp Hsp Hf Hs Hip0 Hip Hfp];
    [constructor|].
  unfold lacks. apply Forall_app. split.
  - apply forallb_Forall_true in Hsp. revert Hsp. apply Forall_impl.
    intros x Hx. apply isspace_not_letter; [now left|exact Hx].
  - constructor.
    + destruct (ci_cases _ _ Hf) as [->| ->]; reflexivity.
    + apply Forall_app. split.
      * destruct Hs as [->|[->| ->]]; repeat constructor.
      * apply (decimal_text_class ip fp Hip Hfp). reflexivity.
Qed.

Lemma feed_word_ends (a fw : str) :
  feed_word fw -> ends_space a = false -> ends_space (a ++ fw) = false.
Proof.
  intros H Ha. destruct H as [|sp f sgn ip fp Hsp Hf Hs Hip0 Hip Hfp].
  - now rewrite app_nil_r.
  - change (f :: sgn ++ decimal_text ip fp)
      with ([f] ++ sgn ++ decimal_text ip fp).
    rewrite !app_assoc. now apply ends_space_decimal.
Qed.

(** [\bG0*1\b] at the head of a line that begins with G, zeros, 1 and white
    space. *)
Lemma g1_token_match (g : ascii) (n : nat) (rest : str) :
  ci "G" g = true -> starts_space rest ->
  match_here Pat.g1_token None (g :: repeat "0"%char n ++ "1"%char :: rest)
  = Some {| m_text := g :: repeat "0"%char n ++ ["1"%char]; m_group := [];
            m_rest := rest |}.
Proof.
  intros Hg Hrest. unfold Pat.g1_token.
  assert (Hw : isword g = true)
    by (destruct (ci_cases _ _ Hg) as [->| ->]; reflexivity).
  assert (Hb : at_boundary (Some "1"%char) rest = true).
  { destruct rest as [|x r]; [contradiction|]. cbn [starts_space] in Hrest.
    unfold at_boundary. cbn [wordopt hd_error].
    now rewrite (isspace_not_word _ Hrest). }
  change (match_here
            [WordB; Cls false One (ci "G"); Cls false Star (lit "0");
             Cls false One (lit "1"); WordB] None
            (g :: repeat "0"%char n ++ "1"%char :: rest))
    with (if at_boundary None (g :: repeat "0"%char n ++ "1"%char :: rest)
          then match_here
                 [Cls false One (ci "G"); Cls false Star (lit "0");
                  Cls false One (lit "1"); WordB] None
                 (g :: repeat "0"%char n ++ "1"%char :: rest)
          else None).
  unfold at_boundary at 1. cbn [wordopt hd_error]. rewrite Hw. cbn [xorb].
  rewrite match_here_one_cons, Hg.
  rewrite (star_class_all false (lit "0") _ (repeat "0"%char n) (Some g)
             ("1"%char :: rest)
             {| m_text := ["1"%char]; m_group := []; m_rest := rest |}).
  - reflexivity.
  - clear. induction n as [|n IH]; constructor; [reflexivity|exact IH].
  - intro prev'. rewrite match_here_star_cons.
    replace (lit "0" "1") with false by reflexivity.
    rewrite match_here_one_cons.
    replace (lit "1" "1") with true by reflexivity.
    change (match_here [WordB] (Some "1"%char) rest)
      with (if at_boundary (Some "1"%char) rest
            then Some {| m_text := []; m_group := []; m_rest := rest |}
            else None).
    now rewrite Hb.
Qed.

Lemma has_g_match (g : ascii) (n : nat) (rest : str) :
  ci "G" g = true -> starts_space rest ->
  exists m : rmatch,
    Re.search Pat.has_g (g :: repeat "0"%char n ++ "1"%char :: rest) = Some m.
Proof.
  intros Hg Hrest.
  assert (Hw : isword g = true)
    by (destruct (ci_cases _ _ Hg) as [->| ->]; reflexivity).
  assert (Hstop : stops_digits rest).
  { destruct rest as [|x r]; [exact I|]. cbn [starts_space stops_digits] in *.
    destruct x as [[] [] [] [] [] [] [] []]; cbv in Hrest |- *;
      first [reflexivity | discriminate]. }
  destruct (zeros_digits_match (repeat "0"%char n ++ ["1"%char]) rest Hstop)
    with (prev := Some g) as (grp & Hm & _).
  - intro E. apply app_eq_nil in E as [_ E]. discriminate.
  - apply all_digits_app; [apply all_digits_zeros|reflexivity].
  - pose proof (match_here_uncap
                  [Cls false Star (lit "0"); Cls true Plus isdigit] (Some g)
                  ((repeat "0"%char n ++ ["1"%char]) ++ rest)) as Hu.
    rewrite Hm in Hu. cbn [uncap map uncap_item option_map] in Hu.
    rewrite <- app_assoc in Hu. cbn [app] in Hu.
    eexists. unfold Re.search. apply search_from_hit.
    unfold Pat.has_g.
    change (match_here
              [WordB; Cls false One (ci "G"); Cls false Star (lit "0");
               Cls false Plus isdigit] None
              (g :: repeat "0"%char n ++ "1"%char :: rest))
      with (if at_boundary None (g :: repeat "0"%char n ++ "1"%char :: rest)
            then match_here
                   [Cls false One (ci "G"); Cls false Star (lit "0");
                    Cls false Plus isdigit] None
                   (g :: repeat "0"%char n ++ "1"%char :: rest)
            else None).
    unfold at_boundary. cbn [wordopt hd_error]. rewrite Hw. cbn [xorb].
    rewrite match_here_one_cons, Hg, Hu. reflexivity.
Qed.

Lemma starts_space_app (a b : str) : starts_space a -> starts_space (a ++ b).
Proof. destruct a; [contradiction|auto]. Qed.

Lemma starts_space_nonempty (a : str) : starts_space a -> a <> [].
Proof. destruct a; [contradiction|discriminate]. Qed.

(** A line that begins with a character that is neither white space nor the
    start of a comment is a command. *)
Lemma parse_line_command (x : ascii) (t : str) :
  isspace x = false -> lit "(" x = false -> lit ";" x = false ->
  p_type (parse_line (x :: t)) = Command.
Proof.
  intros Hs Hp Hc. rewrite parse_line_clean.
  assert (H : exists t' : str, clean (x :: t) = x :: t').
  { unfold clean, strip at 2. cbn [lstrip]. rewrite Hs.
    destruct (rstrip_after_nonspace [] x t Hs) as (t1 & E1 & _).
    cbn [app] in E1. rewrite E1.
    unfold Re.sub at 2. unfold Pat.paren_comment.
    rewrite sub_from_miss by (rewrite match_here_one_cons; now rewrite Hp).
    unfold Re.sub, Pat.semi_comment.
    rewrite sub_from_miss by (rewrite match_here_one_cons; now rewrite Hc).
    unfold strip. cbn [lstrip]. rewrite Hs.
    destruct (rstrip_after_nonspace [] x
                (sub_from [Cls false One (lit ";"); Cls false Star dot; EndS] []
                   (Some x) 0
                   (sub_from [Cls false One (lit "("); Cls false LazyStar dot;
                              Cls false One (lit ")")] [] (Some x) 0 t1)) Hs)
      as (t2 & E2 & _).
    cbn [app] in E2. rewrite E2. now exists t2. }
  destruct H as (t' & ->). reflexivity.
Qed.

(** The rewriting of a line [G1 <words> F<number>]. *)
Lemma rewrite_rapid_g1_line (g : ascii) (n : nat) (body fword ws : str) :
  ci "G" g = true ->
  starts_space body -> ends_space body = false ->
  lacks "G" body -> lacks "F" body ->
  feed_word fword ->
  forallb isspace ws = true ->
  strip ((g :: repeat "0"%char n ++ "1"%char :: body ++ fword) ++ ws)
  = g :: repeat "0"%char n ++ "1"%char :: body ++ fword
  /\ rewrite_rapid ((g :: repeat "0"%char n ++ "1"%char :: body ++ fword) ++ ws)
     = keep_newline ((g :: repeat "0"%char n ++ "1"%char :: body ++ fword) ++ ws)
         (G0_ ++ body).
Proof.
  intros Hg Hstart Hend HG HF Hfw Hws.
  assert (Hgs : isspace g = false /\ ci "F" g = false)
    by (destruct (ci_cases _ _ Hg) as [->| ->]; split; reflexivity).
  destruct Hgs as [Hgs HgF].
  assert (Hbody : body <> []) by now apply starts_space_nonempty.
  set (core := g :: repeat "0"%char n ++ "1"%char :: body ++ fword).
  assert (Hstrip : strip (core ++ ws) = core).
  { rewrite (strip_app_spaces core ws Hws). unfold strip.
    rewrite (lstrip_fixed core Hgs). apply rstrip_fixed.
    unfold core.
    replace (g :: repeat "0"%char n ++ "1"%char :: body ++ fword)
      with ((g :: repeat "0"%char n ++ "1"%char :: body) ++ fword)
      by (cbn [app]; rewrite <- app_assoc; reflexivity).
    apply feed_word_ends; [exact Hfw|].
    replace (g :: repeat "0"%char n ++ "1"%char :: body)
      with ((g :: repeat "0"%char n ++ ["1"%char]) ++ body)
      by (cbn [app]; rewrite <- app_assoc; reflexivity).
    now rewrite ends_space_app. }
  split; [exact Hstrip|].
  unfold rewrite_rapid. rewrite Hstrip.
  destruct (has_g_match g n (body ++ fword) Hg (starts_space_app _ _ Hstart))
    as (m & Hm).
  fold core in Hm. rewrite Hm.
  assert (Hrest : forall prev : option ascii,
             sub_from Pat.g1_token G0_ prev 0 (body ++ fword) = body ++ fword).
  { intro prev. unfold Pat.g1_token.
    apply (sub_from_same _ (fun x => ci "G" x = false)
             (fun prev' t Ht => wordb_first_class_none false (ci "G") _ prev' t Ht)).
    apply Forall_app. split; [exact HG|now apply feed_word_lacks_g]. }
  assert (Hsub : Re.sub Pat.g1_token G0_ core = G0_ ++ body ++ fword).
  { unfold Re.sub, core.
    rewrite (sub_from_hit _ _ _ _ _ _ (List.length (repeat "0"%char n ++ ["1"%char]))
               (g1_token_match g n (body ++ fword) Hg
                  (starts_space_app _ _ Hstart)))
      by reflexivity.
    f_equal.
    replace (repeat "0"%char n ++ "1"%char :: body ++ fword)
      with ((repeat "0"%char n ++ ["1"%char]) ++ body ++ fword)
      by (rewrite <- app_assoc; reflexivity).
    now apply sub_from_skip_all. }
  rewrite Hsub. f_equal. unfold Re.sub.
  rewrite app_assoc.
  rewrite (sub_feed_prefix (G0_ ++ body) fword).
  - now rewrite (sub_feed_word fword Hfw), app_nil_r.
  - unfold lacks, G0_. cbn [s2l list_ascii_of_string app].
    constructor; [reflexivity|]. constructor; [reflexivity|exact HF].
  - now rewrite ends_space_app.
Qed.

(** X19. [convert_line] on a line of the usual form -- the word G1 (with
    any leading zeros, in either case), then white space and words among which
    there is no other G and no F, then an optional feed word at the end: when
    the move is to be converted the text returned is [G0] followed by the same
    words, the feed word removed and the newline kept; when it is not, the
    line is returned as it is. *)
Theorem convert_line_g1_line (self : GCodeConverter) (st : MachineState)
  (g : ascii) (n : nat) (body fword ws : str) :
  ci "G" g = true ->
  starts_space body -> ends_space body = false ->
  lacks "G" body -> lacks "F" body ->
  feed_word fword ->
  forallb isspace ws = true ->
  convert_line self ((g :: repeat "0"%char n ++ "1"%char :: body ++ fword) ++ ws) st
  = if should_convert_to_rapid self
         (parse_line ((g :: repeat "0"%char n ++ "1"%char :: body ++ fword) ++ ws))
         st
    then ((G0_ ++ body)
          ++ (if endswith_nl
                   ((g :: repeat "0"%char n ++ "1"%char :: body ++ fword) ++ ws)
              then [LF] else []),
          true)
    else ((g :: repeat "0"%char n ++ "1"%char :: body ++ fword) ++ ws, false).
Proof.
  intros Hg Hstart Hend HG HF Hfw Hws.
  destruct (rewrite_rapid_g1_line g n body fword ws Hg Hstart Hend HG HF Hfw Hws)
    as (Hstrip & Hrw).
  assert (Hgf : isspace g = false /\ lit "(" g = false /\ lit ";" g = false)
    by (destruct (ci_cases _ _ Hg) as [->| ->]; repeat split; reflexivity).
  destruct Hgf as (Hg1 & Hg2 & Hg3).
  unfold convert_line. rewrite parse_line_strip.
  rewrite <- (parse_line_strip
                ((g :: repeat "0"%char n ++ "1"%char :: body ++ fword) ++ ws)) at 1.
  rewrite Hstrip, (parse_line_command g _ Hg1 Hg2 Hg3).
  destruct (should_convert_to_rapid self
              (parse_line
                 ((g :: repeat "0"%char n ++ "1"%char :: body ++ fword) ++ ws)) st);
    cbn [negb]; [|reflexivity].
  rewrite Hrw. unfold keep_newline.
  destruct (endswith_nl
              ((g :: repeat "0"%char n ++ "1"%char :: body ++ fword) ++ ws));
    [reflexivity|now rewrite app_nil_r].
Qed.

Lemma convert_line_g1_line_witness :
  convert_line GCodeConverter_default
    (("G"%char :: repeat "0"%char 0 ++ "1"%char :: s2l " X10 Y10" ++ s2l " F600")
     ++ [LF])
    (set_z 20 MachineState_default)
  = (s2l "G0 X10 Y10" ++ [LF], true).
Proof.
  assert (H1 : lacks "G" (s2l " X10 Y10"))
    by (repeat (constructor; [reflexivity|]); constructor).
  assert (H2 : lacks "F" (s2l " X10 Y10"))
    by (repeat (constructor; [reflexivity|]); constructor).
  assert (H3 : feed_word (s2l " F600"))
    by exact (feed_word_some (s2l " ") "F" [] (s2l "600") [] eq_refl eq_refl
                (or_introl eq_refl) (not_eq_sym (@nil_cons _ _ _)) eq_refl eq_refl).
  exact (convert_line_g1_line GCodeConverter_default
           (set_z 20 MachineState_default) "G" 0 (s2l " X10 Y10") (s2l " F600")
           [LF] eq_refl eq_refl eq_refl H1 H2 H3 eq_refl).
Defined.

(** The rewriting of a line without G code: [G0 ] is put before it. *)
Lemma rewrite_rapid_modal_line (body fword ws : str) :
  body <> [] -> starts_dense body -> ends_space body = false ->
  lacks "G" body -> lacks "F" body ->
  feed_word fword ->
  forallb isspace ws = true ->
  strip ((body ++ fword) ++ ws) = body ++ fword
  /\ rewrite_rapid ((body ++ fword) ++ ws)
     = keep_newline ((body ++ fword) ++ ws) (G0_sp ++ body).
Proof.
  intros Hne Hdense Hend HG HF Hfw Hws.
  assert (Hstrip : strip ((body ++ fword) ++ ws) = body ++ fword).
  { rewrite (strip_app_spaces _ ws Hws). unfold strip.
    rewrite lstrip_fixed by (destruct body; [contradiction|exact Hdense]).
    apply rstrip_fixed. now apply feed_word_ends. }
  split; [exact Hstrip|].
  unfold rewrite_rapid. rewrite Hstrip.
  assert (Hnone : Re.search Pat.has_g (body ++ fword) = None).
  { unfold Re.search, Pat.has_g.
    apply (search_from_none _ (fun x => ci "G" x = false)
             (fun prev t Ht => wordb_first_class_none false (ci "G") _ prev t Ht)).
    apply Forall_app. split; [exact HG|now apply feed_word_lacks_g]. }
  rewrite Hnone. f_equal. unfold Re.sub. rewrite app_assoc.
  rewrite (sub_feed_prefix (G0_sp ++ body) fword).
  - now rewrite (sub_feed_word fword Hfw), app_nil_r.
  - unfold lacks, G0_sp. cbn [s2l list_ascii_of_string app].
    repeat (constructor; [reflexivity|]). exact HF.
  - now rewrite ends_space_app.
Qed.

(** X21. [convert_line] on a line without G code (a move under the modal
    G1): words among which there is no G and no F, then an optional feed word
    at the end.  When the move is to be converted the text returned is [G0 ]
    followed by the same words, the feed word removed and the newline kept;
    when it is not, the line is returned as it is. *)
Theorem convert_line_modal_line (self : GCodeConverter) (st : MachineState)
  (body fword ws : str) :
  body <> [] -> no_comment body ->
  starts_dense body -> ends_space body = false ->
  lacks "G" body -> lacks "F" body ->
  feed_word fword ->
  forallb isspace ws = true ->
  convert_line self ((body ++ fword) ++ ws) st
  = if should_convert_to_rapid self (parse_line ((body ++ fword) ++ ws)) st
    then ((G0_sp ++ body)
          ++ (if endswith_nl ((body ++ fword) ++ ws) then [LF] else []),
          true)
    else ((body ++ fword) ++ ws, false).
Proof.
  intros Hne Hnc Hdense Hend HG HF Hfw Hws.
  destruct (rewrite_rapid_modal_line body fword ws Hne Hdense Hend HG HF Hfw Hws)
    as (Hstrip & Hrw).
  unfold convert_line. rewrite parse_line_strip.
  rewrite <- (parse_line_strip ((body ++ fword) ++ ws)) at 1.
  rewrite Hstrip.
  assert (Hcmd : p_type (parse_line (body ++ fword)) = Command).
  { destruct body as [|x b]; [contradiction|].
    inversion Hnc as [|? ? [Hx1 Hx2] _]; subst.
    cbn [app]. now apply parse_line_command. }
  rewrite Hcmd.
  destruct (should_convert_to_rapid self (parse_line ((body ++ fword) ++ ws)) st);
    cbn [negb]; [|reflexivity].
  rewrite Hrw. unfold keep_newline.
  destruct (endswith_nl ((body ++ fword) ++ ws));
    [reflexivity|now rewrite app_nil_r].
Qed.

Lemma convert_line_modal_line_witness :
  convert_line GCodeConverter_default
    ((s2l "X10 Y-5" ++ s2l " f120.5") ++ [CR; LF])
    (set_current_g 1 (set_z 20 MachineState_default))
  = (s2l "G0 X10 Y-5" ++ [LF], true).
Proof.
  assert (H0 : no_comment (s2l "X10 Y-5"))
    by (repeat (constructor; [split; reflexivity|]); constructor).
  assert (H1 : lacks "G" (s2l "X10 Y-5"))
    by (repeat (constructor; [reflexivity|]); constructor).
  assert (H2 : lacks "F" (s2l "X10 Y-5"))
    by (repeat (constructor; [reflexivity|]); constructor).
  assert (H3 : feed_word (s2l " f120.5"))
    by exact (feed_word_some (s2l " ") "f" [] (s2l "120") (s2l "5") eq_refl eq_refl
                (or_introl eq_refl) (not_eq_sym (@nil_cons _ _ _)) eq_refl eq_refl).
  exact (convert_line_modal_line GCodeConverter_default
           (set_current_g 1 (set_z 20 MachineState_default))
           (s2l "X10 Y-5") (s2l " f120.5") [CR; LF]
           (not_eq_sym (@nil_cons _ _ _)) H0 eq_refl eq_refl H1 H2 H3 eq_refl).
Defined.

(* ================================================================= *)
(** * What the pass simulates *)

(** One iteration executes the line it writes. *)
Lemma convert_step_executes_output (ps : Pass) (n : nat) (line : str) :
  exists out : str,
    output_lines (convert_step ps (n, line)) = output_lines ps ++ [out]
    /\ simulator (ps_self (convert_step ps (n, line)))
       = fst (execute_line (simulator (ps_self ps)) out).
Proof.
  destruct (convert_step_cases ps n line)
    as [(_ & _ & E)|[(_ & _ & _ & E)|(_ & _ & E)]];
    rewrite E; eexists; split; reflexivity.
Qed.

Lemma run_from_simulates (ls : list str) : forall (ps : Pass) (n : nat),
  exists outs : list str,
    output_lines (run_from ps n ls) = output_lines ps ++ outs
    /\ simulator (ps_self (run_from ps n ls))
       = run_lines (simulator (ps_self ps)) outs.
Proof.
  induction ls as [|l ls IH]; intros ps n.
  - exists []. rewrite run_from_nil, app_nil_r. split; reflexivity.
  - rewrite run_from_cons.
    destruct (IH (convert_step ps (n, l)) (S n)) as (outs & Ho & Hs).
    destruct (convert_step_executes_output ps n l) as (out & Eo & Es).
    exists (out :: outs). rewrite Ho, Hs, Eo, Es, <- app_assoc.
    split; reflexivity.
Qed.

(** X22. The pass simulates the program it writes: the simulator after
    [convert_file] is the simulator before it with the output lines executed
    one after the other, so that the move history and the run time are those
    of the converted program. *)
Theorem convert_file_simulates_output (self : GCodeConverter) (lines : list str) :
  simulator (fst (fst (convert_file self lines)))
  = run_lines (simulator self) (snd (fst (convert_file self lines)))
  /\ sm_move_history (snd (convert_file self lines))
     = move_history (run_lines (simulator self)
                       (snd (fst (convert_file self lines))))
  /\ z_safe (fst (fst (convert_file self lines))) = z_safe self
  /\ conservative (fst (fst (convert_file self lines))) = conservative self.
Proof.
  unfold convert_file. cbn [fst snd sm_move_history].
  rewrite run_pass_run_from.
  destruct (run_from_simulates lines (pass_start self) 1) as (outs & Ho & Hs).
  cbn [pass_start output_lines ps_self app] in Ho, Hs.
  rewrite Ho, Hs. split; [reflexivity|]. split; [reflexivity|].
  clear Ho Hs outs.
  assert (H : forall (ls : list str) (ps : Pass) (n : nat),
             z_safe (ps_self (run_from ps n ls)) = z_safe (ps_self ps)
             /\ conservative (ps_self (run_from ps n ls))
                = conservative (ps_self ps)).
  { induction ls as [|l ls IH]; intros ps n.
    - rewrite run_from_nil. split; reflexivity.
    - rewrite run_from_cons.
      destruct (IH (convert_step ps (n, l)) (S n)) as (-> & ->).
      destruct (convert_step_simulator ps (n, l)) as (_ & _ & -> & ->).
      split; reflexivity. }
  exact (H lines (pass_start self) 1%nat).
Qed.

(* ================================================================= *)
(** * What the simulator does not read *)

Lemma update_modal_equiv (g : Z) (s1 s2 : MachineState) :
  motion_equiv s1 s2 -> motion_equiv (update_modal g s1) (update_modal g s2).
Proof.
  unfold motion_equiv, update_modal.
  intros (Hx & Hy & Hz & Hg & Hf & Hs & Ha & Ht).
  repeat match goal with
         | |- context [if ?b then _ else _] => destruct b
         end;
    cbn [x y z current_g feed_rate spindle_speed absolute_mode
         total_time_seconds set_current_g set_absolute_mode set_units_mm
         set_plane set_work_coordinate];
    repeat split; assumption || reflexivity.
Qed.

Lemma apply_settings_equiv (p1 p2 : Parsed) (s1 s2 : MachineState) :
  same_motion_words p1 p2 -> motion_equiv s1 s2 ->
  motion_equiv (apply_settings p1 s1) (apply_settings p2 s2).
Proof.
  intros (HG & _ & _ & _ & HF & HS) He. unfold apply_settings.
  rewrite HG, HF, HS.
  assert (H1 : motion_equiv
                 match pG p2 with Some g => update_modal g s1 | None => s1 end
                 match pG p2 with Some g => update_modal g s2 | None => s2 end)
    by (destruct (pG p2); [now apply update_modal_equiv|exact He]).
  set (a1 := match pG p2 with Some g => update_modal g s1 | None => s1 end) in *.
  set (a2 := match pG p2 with Some g => update_modal g s2 | None => s2 end) in *.
  clearbody a1 a2.
  destruct H1 as (Hx & Hy & Hz & Hg & Hf & Hs & Ha & Ht).
  unfold motion_equiv.
  destruct (pF p2); destruct (pS p2);
    cbn [x y z current_g feed_rate spindle_speed absolute_mode
         total_time_seconds set_feed_rate set_spindle_speed];
    repeat split; assumption || reflexivity.
Qed.

(** X23. The simulator reads neither the arc words nor the units: two
    lines with the same G, X, Y, Z, F and S words (whatever their I, J, K, R
    and M words), executed from states that differ at most in the units
    (G20/G21), the plane (G17-G19) and the work coordinate system (G54-G59),
    record the same move -- the same straight-line distance and time, also
    under G2 and G3 -- and lead to states that again differ at most there. *)
Theorem simulator_ignores_arcs_and_units (self1 self2 : GCodeSimulator)
  (line1 line2 : str) :
  motion_equiv (state self1) (state self2) ->
  move_history self1 = move_history self2 ->
  rapid_traverse_rate self1 = rapid_traverse_rate self2 ->
  same_motion_words (parse_line line1) (parse_line line2) ->
  snd (execute_line self1 line1) = snd (execute_line self2 line2)
  /\ move_history (fst (execute_line self1 line1))
     = move_history (fst (execute_line self2 line2))
  /\ motion_equiv (state (fst (execute_line self1 line1)))
       (state (fst (execute_line self2 line2))).
Proof.
  intros He Hh Hr Hw. unfold execute_line.
  pose proof (apply_settings_equiv _ _ _ _ Hw He) as Ha.
  destruct Hw as (HG & HX & HY & HZ & HF & HS).
  assert (Hprobe : probe_z (parse_line line1) = probe_z (parse_line line2))
    by (unfold probe_z; now rewrite HG, HZ).
  assert (Hmove : move_of (rapid_traverse_rate self1) (parse_line line1)
                    (apply_settings (parse_line line1) (state self1))
                  = move_of (rapid_traverse_rate self2) (parse_line line2)
                      (apply_settings (parse_line line2) (state self2))).
  { destruct Ha as (Hx & Hy & Hz & Hg & Hf & _ & Hab & _).
    unfold move_of, rate_per_minute. now rewrite Hx, Hy, Hz, Hg, Hf, Hab, HX, HY, HZ, Hr. }
  assert (Hdisp : displaced (parse_line line1)
                    (apply_settings (parse_line line1) (state self1))
                  = displaced (parse_line line2)
                      (apply_settings (parse_line line2) (state self2))).
  { destruct Ha as (Hx & Hy & Hz & _ & _ & _ & Hab & _).
    unfold displaced. now rewrite Hx, Hy, Hz, Hab, HX, HY, HZ. }
  assert (Hmode : in_motion_mode (apply_settings (parse_line line1) (state self1))
                  = in_motion_mode (apply_settings (parse_line line2) (state self2))).
  { destruct Ha as (_ & _ & _ & Hg & _). unfold in_motion_mode. now rewrite Hg. }
  destruct (execute_parsed_cases self1 (parse_line line1))
    as [(v1 & Hv1 & E1)|[(Hp1 & Hmd1 & E1)|(Hp1 & Hm1 & Hd1 & E1)]];
    destruct (execute_parsed_cases self2 (parse_line line2))
      as [(v2 & Hv2 & E2)|[(Hp2 & Hmd2 & E2)|(Hp2 & Hm2 & Hd2 & E2)]];
    try congruence;
    try (rewrite Hmode, Hdisp, Hm2, Hd2 in Hmd1; discriminate);
    try (rewrite <- Hmode, <- Hdisp, Hm1, Hd1 in Hmd2; discriminate);
    rewrite E1, E2; cbn [fst snd move_history state with_state].
  - assert (v1 = v2) by congruence. subst v2.
    split; [reflexivity|]. split; [exact Hh|].
    destruct He as (Hx & Hy & Hz & Hg & Hf & Hs & Hab & Ht).
    unfold motion_equiv, set_z.
    cbn [x y z current_g feed_rate spindle_speed absolute_mode
         total_time_seconds set_xyz].
    repeat split; assumption || reflexivity.
  - split; [reflexivity|]. split; [exact Hh|exact Ha].
  - rewrite Hmove, Hh. split; [reflexivity|]. split; [reflexivity|].
    destruct Ha as (Hx & Hy & Hz & Hg & Hf & Hs & Hab & Ht).
    unfold motion_equiv.
    cbn [x y z current_g feed_rate spindle_speed absolute_mode
         total_time_seconds set_xyz set_total_time_seconds].
    rewrite Hg, Hf, Hs, Hab, Ht. repeat split; reflexivity.
Qed.

Lemma simulator_ignores_arcs_and_units_witness :
  snd (execute_line
         (fst (execute_line (GCodeSimulator_init 5000) (s2l "G21 F100")))
         (s2l "G2 X10 Y0 I5 J0"))
  = snd (execute_line
           (fst (execute_line (GCodeSimulator_init 5000) (s2l "G20 F100")))
           (s2l "G2 X10 Y0 R5")).
Proof.
  exact (proj1 (simulator_ignores_arcs_and_units
                  (fst (execute_line (GCodeSimulator_init 5000) (s2l "G21 F100")))
                  (fst (execute_line (GCodeSimulator_init 5000) (s2l "G20 F100")))
                  (s2l "G2 X10 Y0 I5 J0") (s2l "G2 X10 Y0 R5")
                  (conj eq_refl (conj eq_refl (conj eq_refl (conj eq_refl
                     (conj eq_refl (conj eq_refl (conj eq_refl eq_refl)))))))
                  eq_refl eq_refl
                  (conj eq_refl (conj eq_refl (conj eq_refl (conj eq_refl
                     (conj eq_refl eq_refl))))))).
Defined.

(* ================================================================= *)
(** * C9 *)









(* ================================================================= *)
(** * C6 *)

Lemma huge_pos : (0 < Fl.huge)%R.
Proof. unfold Fl.huge. apply IZR_lt. reflexivity. Qed.

Lemma round_cases (r : R) :
  (Fl.round r = Fl.PInf /\ (Fl.huge <= r)%R)
  \/ (Fl.round r = Fl.NInf /\ (r <= - Fl.huge)%R)
  \/ (Fl.round r = Fl.Fin r /\ (- Fl.huge < r < Fl.huge)%R).
Proof.
  unfold Fl.round.
  destruct (Rle_dec Fl.huge r); [now left|].
  destruct (Rle_dec r (- Fl.huge)); [right; now left|].
  right. right. split; [reflexivity|lra].
Qed.

Lemma round_fin (r : R) :
  (- Fl.huge < r < Fl.huge)%R -> Fl.round r = Fl.Fin r.
Proof.
  intro H. destruct (round_cases r) as [[_ H1]|[[_ H1]|[E _]]];
    [lra|lra|exact E].
Qed.

Lemma round_huge (r : R) : (Fl.huge <= r)%R -> Fl.round r = Fl.PInf.
Proof.
  intro H. unfold Fl.round. now destruct (Rle_dec Fl.huge r).
Qed.

Lemma from_zero_not_neg (a : Fl.num) : from_zero a -> not_neg a.
Proof. now destruct a. Qed.

Lemma round_not_neg (r : R) : (0 <= r)%R -> from_zero (Fl.round r).
Proof.
  intro H. destruct (round_cases r) as [[-> _]|[[_ H1]|[-> _]]]; cbn;
    [exact I| |exact H].
  pose proof huge_pos. lra.
Qed.

Lemma sqr_not_neg (a b : Fl.num) : Fl.sqr a = Fl.Ok b -> not_neg b.
Proof.
  destruct a as [r| | |]; cbn [Fl.sqr].
  - destruct (Rle_dec Fl.huge (r * r)); [discriminate|].
    intro E. injection E as <-. cbn. nra.
  - intro E. now injection E as <-.
  - intro E. now injection E as <-.
  - intro E. now injection E as <-.
Qed.

Lemma sqr_from_zero (a b : Fl.num) :
  a <> Fl.NaN -> Fl.sqr a = Fl.Ok b -> from_zero b.
Proof.
  destruct a as [r| | |]; cbn [Fl.sqr]; intro Hn.
  - destruct (Rle_dec Fl.huge (r * r)); [discriminate|].
    intro E. injection E as <-. cbn. nra.
  - intro E. now injection E as <-.
  - intro E. now injection E as <-.
  - contradiction.
Qed.

Lemma add_not_neg (a b : Fl.num) :
  not_neg a -> not_neg b -> not_neg (Fl.add a b).
Proof.
  destruct a as [r| | |], b as [s| | |]; cbn; try tauto.
  intros Hr Hs. apply from_zero_not_neg, round_not_neg. lra.
Qed.

Lemma add_from_zero (a b : Fl.num) :
  from_zero a -> from_zero b -> from_zero (Fl.add a b).
Proof.
  destruct a as [r| | |], b as [s| | |]; cbn; try tauto.
  intros Hr Hs. apply round_not_neg. lra.
Qed.

Lemma root_not_neg (a : Fl.num) : not_neg a -> not_neg (Fl.root a).
Proof.
  destruct a as [r| | |]; cbn; try tauto. intros _. apply sqrt_pos.
Qed.

Lemma root_from_zero (a : Fl.num) : from_zero a -> from_zero (Fl.root a).
Proof.
  destruct a as [r| | |]; cbn; try tauto. intros _. apply sqrt_pos.
Qed.

Lemma scale_inf_pos (s : R) : (0 < s)%R -> Fl.scale_inf true s = Fl.PInf.
Proof.
  intro H. unfold Fl.scale_inf. destruct (Rlt_dec 0 s); [reflexivity|lra].
Qed.

Lemma gt_zero (b : Fl.num) :
  Fl.gt b (Fl.Fin 0) = true -> b = Fl.PInf \/ exists s, b = Fl.Fin s /\ (0 < s)%R.
Proof.
  destruct b as [s| | |]; cbn; try discriminate; [|now left].
  destruct (Rlt_dec 0 s); [|discriminate]. intros _. right. now exists s.
Qed.

Lemma div_not_neg (a b c : Fl.num) :
  not_neg a -> Fl.gt b (Fl.Fin 0) = true -> Fl.div a b = Fl.Ok c -> not_neg c.
Proof.
  intros Ha Hb. destruct (gt_zero b Hb) as [->|(s & -> & Hs)].
  - destruct a; cbn; intro E; injection E as <-; exact I || (cbn; lra).
  - cbn [Fl.div]. destruct (Req_EM_T s 0); [lra|].
    destruct a as [r| | |]; intro E; injection E as <-.
    + apply from_zero_not_neg, round_not_neg. cbn in Ha.
      apply Rmult_le_pos; [exact Ha|]. left. now apply Rinv_0_lt_compat.
    + now rewrite scale_inf_pos.
    + contradiction.
    + exact I.
Qed.

Lemma div_from_zero (a c : Fl.num) (s : R) :
  from_zero a -> (0 < s)%R -> Fl.div a (Fl.Fin s) = Fl.Ok c -> from_zero c.
Proof.
  intros Ha Hs. cbn [Fl.div]. destruct (Req_EM_T s 0); [lra|].
  destruct a as [r| | |]; intro E; injection E as <-.
  - apply round_not_neg. cbn in Ha.
    apply Rmult_le_pos; [exact Ha|]. left. now apply Rinv_0_lt_compat.
  - now rewrite scale_inf_pos.
  - contradiction.
  - contradiction.
Qed.

Lemma mul_60_not_neg (a : Fl.num) : not_neg a -> not_neg (Fl.mul a (Fl.Fin 60)).
Proof.
  destruct a as [r| | |]; cbn [Fl.mul not_neg]; try tauto.
  - intro H. apply from_zero_not_neg, round_not_neg. lra.
  - intros _. rewrite scale_inf_pos by lra. exact I.
Qed.

Lemma mul_60_from_zero (a : Fl.num) :
  from_zero a -> from_zero (Fl.mul a (Fl.Fin 60)).
Proof.
  destruct a as [r| | |]; cbn [Fl.mul from_zero]; try tauto.
  - intro H. apply round_not_neg. lra.
  - intros _. rewrite scale_inf_pos by lra. exact I.
Qed.

Lemma ge_refl (a : Fl.num) : Fl.ge a a = true \/ a = Fl.NaN.
Proof.
  destruct a as [r| | |]; cbn; auto.
  left. destruct (Rle_dec r r); [reflexivity|lra].
Qed.

(** Adding a number that is not negative to a float gives at least the float,
    or NaN. *)
Lemma add_ge (a t : Fl.num) :
  Fl.valid a -> not_neg t ->
  Fl.ge (Fl.add a t) a = true \/ Fl.add a t = Fl.NaN.
Proof.
  destruct a as [r| | |], t as [s| | |]; cbn [Fl.add Fl.valid not_neg];
    intros Hv Ht; try contradiction; auto.
  destruct (round_cases (r + s)) as [[-> _]|[[_ H1]|[-> _]]].
  - now left.
  - pose proof huge_pos. lra.
  - left. cbn. destruct (Rle_dec r (r + s)); [reflexivity|lra].
Qed.

Lemma add_ge_finite (a t : Fl.num) :
  Fl.finite a -> from_zero t -> Fl.ge (Fl.add a t) a = true.
Proof.
  destruct a as [r| | |], t as [s| | |]; cbn [Fl.add Fl.finite from_zero];
    intros Hv Ht; try contradiction; auto.
  destruct (round_cases (r + s)) as [[-> _]|[[_ H1]|[-> _]]].
  - reflexivity.
  - pose proof huge_pos. lra.
  - cbn. destruct (Rle_dec r (r + s)); [reflexivity|lra].
Qed.

Lemma fl_update_modal_frame (g : Z) (s : Fl.MachineState) :
  Fl.x (Fl.update_modal g s) = Fl.x s
  /\ Fl.y (Fl.update_modal g s) = Fl.y s
  /\ Fl.z (Fl.update_modal g s) = Fl.z s
  /\ Fl.feed_rate (Fl.update_modal g s) = Fl.feed_rate s
  /\ Fl.total_time_seconds (Fl.update_modal g s) = Fl.total_time_seconds s.
Proof.
  unfold Fl.update_modal.
  repeat match goal with
         | |- context [if ?b then _ else _] => destruct b
         end; repeat split; reflexivity.
Qed.

Lemma fl_apply_settings_frame (parsed : Parsed) (s : Fl.MachineState) :
  Fl.x (Fl.apply_settings parsed s) = Fl.x s
  /\ Fl.y (Fl.apply_settings parsed s) = Fl.y s
  /\ Fl.z (Fl.apply_settings parsed s) = Fl.z s
  /\ Fl.total_time_seconds (Fl.apply_settings parsed s) = Fl.total_time_seconds s
  /\ Fl.feed_rate (Fl.apply_settings parsed s)
     = match pF parsed with
       | Some f => Some (Fl.of_Q f)
       | None => Fl.feed_rate s
       end.
Proof.
  unfold Fl.apply_settings.
  destruct (pG parsed) as [g|]; destruct (pF parsed); destruct (pS parsed);
    cbn [Fl.x Fl.y Fl.z Fl.total_time_seconds Fl.feed_rate Fl.set_feed_rate
         Fl.set_spindle_speed];
    try (destruct (fl_update_modal_frame g s) as (H1 & H2 & H3 & H4 & H5);
         rewrite ?H1, ?H2, ?H3, ?H4, ?H5);
    repeat split; reflexivity.
Qed.

Lemma distance3_not_neg (dx dy dz d : Fl.num) :
  Fl.distance3 dx dy dz = Fl.Ok d -> not_neg d.
Proof.
  unfold Fl.distance3.
  destruct (Fl.sqr dx) as [a|] eqn:Ea; [|discriminate].
  destruct (Fl.sqr dy) as [b|] eqn:Eb; [|discriminate].
  destruct (Fl.sqr dz) as [c|] eqn:Ec; [|discriminate].
  intro E. injection E as <-.
  apply root_not_neg, add_not_neg; [apply add_not_neg|];
    eapply sqr_not_neg; eassumption.
Qed.

Lemma distance3_from_zero (dx dy dz d : Fl.num) :
  dx <> Fl.NaN -> dy <> Fl.NaN -> dz <> Fl.NaN ->
  Fl.distance3 dx dy dz = Fl.Ok d -> from_zero d.
Proof.
  intros Hx Hy Hz. unfold Fl.distance3.
  destruct (Fl.sqr dx) as [a|] eqn:Ea; [|discriminate].
  destruct (Fl.sqr dy) as [b|] eqn:Eb; [|discriminate].
  destruct (Fl.sqr dz) as [c|] eqn:Ec; [|discriminate].
  intro E. injection E as <-.
  apply root_from_zero, add_from_zero; [apply add_from_zero|].
  - exact (sqr_from_zero dx a Hx Ea).
  - exact (sqr_from_zero dy b Hy Eb).
  - exact (sqr_from_zero dz c Hz Ec).
Qed.

Lemma time_not_neg (d rate m : Fl.num) :
  not_neg d -> Fl.time_in_minutes d rate = Fl.Ok m ->
  not_neg (Fl.mul m (Fl.Fin 60)).
Proof.
  intros Hd. unfold Fl.time_in_minutes.
  destruct (Fl.gt rate (Fl.Fin 0)) eqn:Eg; intro E.
  - apply mul_60_not_neg. exact (div_not_neg d rate m Hd Eg E).
  - injection E as <-. apply mul_60_not_neg. cbn. lra.
Qed.

Lemma time_from_zero (d rate m : Fl.num) :
  from_zero d -> Fl.finite rate -> Fl.time_in_minutes d rate = Fl.Ok m ->
  from_zero (Fl.mul m (Fl.Fin 60)).
Proof.
  intros Hd Hr. unfold Fl.time_in_minutes.
  destruct (Fl.gt rate (Fl.Fin 0)) eqn:Eg; intro E.
  - apply mul_60_from_zero.
    destruct (gt_zero rate Eg) as [->|(s & -> & Hs)]; [contradiction|].
    exact (div_from_zero d m s Hd Hs E).
  - injection E as <-. apply mul_60_from_zero. cbn. lra.
Qed.

(** What [execute_line] does to the total, when it returns: it leaves it, or
    it adds the time of the move, which is no negative number. *)
Lemma fl_execute_line_total (self self' : Fl.GCodeSimulator) (line : str)
  (info : option Fl.MoveRecord) :
  Fl.execute_line self line = Fl.Ok (self', info) ->
  Fl.total_time_seconds (Fl.state self') = Fl.total_time_seconds (Fl.state self)
  \/ exists t : Fl.num,
       not_neg t
       /\ Fl.total_time_seconds (Fl.state self')
          = Fl.add (Fl.total_time_seconds (Fl.state self)) t.
Proof.
  unfold Fl.execute_line.
  destruct (fl_apply_settings_frame (parse_line line) (Fl.state self))
    as (_ & _ & _ & Ht & _).
  destruct (probe_z (parse_line line)) as [v|].
  { intro E. injection E as <- _. now left. }
  set (s := Fl.apply_settings (parse_line line) (Fl.state self)) in *.
  destruct (Fl.in_motion_mode s); [|intro E; injection E as <- _; now left].
  match goal with
  | |- context [if ?b then _ else _] => destruct b
  end; [|intro E; injection E as <- _; now left].
  match goal with
  | |- context [Fl.distance3 ?a ?b ?c] =>
      destruct (Fl.distance3 a b c) as [d|] eqn:Ed; [|discriminate]
  end.
  destruct (Fl.time_in_minutes d
              (Fl.rate_per_minute (Fl.rapid_traverse_rate self) s))
    as [m|] eqn:Em; [|discriminate].
  intro E. injection E as <- _. right.
  exists (Fl.mul m (Fl.Fin 60)). split.
  - exact (time_not_neg d _ m (distance3_not_neg _ _ _ d Ed) Em).
  - cbn [Fl.state Fl.total_time_seconds Fl.set_xyz Fl.set_total_time_seconds].
    now rewrite Ht.
Qed.

Lemma huge_gt_1 : (1 < Fl.huge)%R.
Proof. unfold Fl.huge. apply IZR_lt. reflexivity. Qed.

Lemma round_not_nan (r : R) : Fl.round r <> Fl.NaN.
Proof.
  destruct (round_cases r) as [[E _]|[[E _]|[E _]]]; rewrite E; discriminate.
Qed.

Lemma finite_not_nan (a : Fl.num) : Fl.finite a -> a <> Fl.NaN.
Proof. destruct a; cbn; intro H; try contradiction; discriminate. Qed.

Lemma target_not_nan (absolute : bool) (cur : Fl.num) (field : option Q) :
  Fl.finite cur -> Fl.finite_opt (option_map Fl.of_Q field) ->
  Fl.target_axis absolute cur field <> Fl.NaN.
Proof.
  intros Hc Hf. unfold Fl.target_axis.
  destruct field as [v|]; [|now apply finite_not_nan].
  cbn [option_map Fl.finite_opt] in Hf.
  destruct absolute; [now apply finite_not_nan|].
  destruct cur as [r| | |]; try contradiction.
  destruct (Fl.of_Q v) as [s| | |]; try contradiction.
  cbn [Fl.add]. apply round_not_nan.
Qed.

Lemma sub_not_nan (a b : Fl.num) :
  Fl.finite a -> b <> Fl.NaN -> Fl.sub b a <> Fl.NaN.
Proof.
  intros Ha Hb. destruct a as [r| | |]; try contradiction.
  destruct b as [s| | |]; cbn [Fl.sub Fl.neg Fl.add];
    [apply round_not_nan|discriminate|discriminate|congruence].
Qed.

Lemma rate_finite (rapid_rate : Fl.num) (s : Fl.MachineState) :
  Fl.finite rapid_rate -> Fl.finite_opt (Fl.feed_rate s) ->
  Fl.finite (Fl.rate_per_minute rapid_rate s).
Proof.
  intros Hr Hf. unfold Fl.rate_per_minute.
  pose proof huge_gt_1.
  destruct (Fl.current_g s) as [g|]; [|cbn; lra].
  destruct (g =? 0)%Z; [exact Hr|].
  destruct ((g =? 1) || (g =? 2) || (g =? 3))%Z; [|cbn; lra].
  destruct (Fl.feed_rate s) as [f|]; [exact Hf|cbn; lra].
Qed.

(** With finite numbers the time of the move is no NaN either. *)
Lemma fl_execute_line_total_finite (self self' : Fl.GCodeSimulator) (line : str)
  (info : option Fl.MoveRecord) :
  Fl.finite_state (Fl.state self) ->
  Fl.finite (Fl.rapid_traverse_rate self) ->
  Fl.finite_words (parse_line line) ->
  Fl.execute_line self line = Fl.Ok (self', info) ->
  Fl.total_time_seconds (Fl.state self') = Fl.total_time_seconds (Fl.state self)
  \/ exists t : Fl.num,
       from_zero t
       /\ Fl.total_time_seconds (Fl.state self')
          = Fl.add (Fl.total_time_seconds (Fl.state self)) t.
Proof.
  intros (Hx & Hy & Hz & Hfeed & _) Hrapid (Wx & Wy & Wz & Wf).
  unfold Fl.execute_line.
  destruct (fl_apply_settings_frame (parse_line line) (Fl.state self))
    as (Ex & Ey & Ez & Ht & Ef).
  destruct (probe_z (parse_line line)) as [v|].
  { intro E. injection E as <- _. now left. }
  set (s := Fl.apply_settings (parse_line line) (Fl.state self)) in *.
  destruct (Fl.in_motion_mode s); [|intro E; injection E as <- _; now left].
  match goal with
  | |- context [if ?b then _ else _] => destruct b
  end; [|intro E; injection E as <- _; now left].
  match goal with
  | |- context [Fl.distance3 ?a ?b ?c] =>
      destruct (Fl.distance3 a b c) as [d|] eqn:Ed; [|discriminate]
  end.
  destruct (Fl.time_in_minutes d
              (Fl.rate_per_minute (Fl.rapid_traverse_rate self) s))
    as [m|] eqn:Em; [|discriminate].
  intro E. injection E as <- _. right.
  exists (Fl.mul m (Fl.Fin 60)). split.
  - assert (Hd : from_zero d).
    { revert Ed. rewrite Ex, Ey, Ez.
      apply distance3_from_zero;
        apply sub_not_nan; try assumption; apply target_not_nan; assumption. }
    assert (Hrate : Fl.finite (Fl.rate_per_minute (Fl.rapid_traverse_rate self) s)).
    { apply rate_finite; [exact Hrapid|]. rewrite Ef.
      destruct (pF (parse_line line)); [exact Wf|exact Hfeed]. }
    exact (time_from_zero d _ m Hd Hrate Em).
  - cbn [Fl.state Fl.total_time_seconds Fl.set_xyz Fl.set_total_time_seconds].
    now rewrite Ht.
Qed.

Lemma sqr_raises (a : Fl.num) (e : Fl.exn) :
  Fl.sqr a = Fl.Raised e -> e = Fl.OverflowError.
Proof.
  destruct a as [r| | |]; cbn [Fl.sqr]; try discriminate.
  destruct (Rle_dec Fl.huge (r * r)); [|discriminate].
  intro E. now injection E as <-.
Qed.

Lemma distance3_raises (dx dy dz : Fl.num) (e : Fl.exn) :
  Fl.distance3 dx dy dz = Fl.Raised e -> e = Fl.OverflowError.
Proof.
  unfold Fl.distance3.
  destruct (Fl.sqr dx) eqn:Ea;
    [|intro E; injection E as <-; exact (sqr_raises dx _ Ea)].
  destruct (Fl.sqr dy) eqn:Eb;
    [|intro E; injection E as <-; exact (sqr_raises dy _ Eb)].
  destruct (Fl.sqr dz) eqn:Ec;
    [discriminate|intro E; injection E as <-; exact (sqr_raises dz _ Ec)].
Qed.

(** The guard [rate_per_minute > 0] keeps the division from a zero divisor. *)
Lemma time_in_minutes_returns (d rate : Fl.num) :
  exists m : Fl.num, Fl.time_in_minutes d rate = Fl.Ok m.
Proof.
  unfold Fl.time_in_minutes.
  destruct (Fl.gt rate (Fl.Fin 0)) eqn:Eg; [|now exists (Fl.Fin 0)].
  destruct rate as [s| | |]; cbn [Fl.div].
  - cbn [Fl.gt] in Eg. destruct (Rlt_dec 0 s) as [Hs|]; [|discriminate].
    destruct (Req_EM_T s 0) as [E0|_]; [lra|].
    destruct d; eexists; reflexivity.
  - destruct d; eexists; reflexivity.
  - discriminate.
  - discriminate.
Qed.

(** A rate that is zero or negative gives the time 0. *)
Lemma time_in_minutes_no_rate (d : Fl.num) (r : R) :
  (r <= 0)%R -> Fl.time_in_minutes d (Fl.Fin r) = Fl.Ok (Fl.Fin 0).
Proof.
  intro H. unfold Fl.time_in_minutes. cbn [Fl.gt].
  destruct (Rlt_dec 0 r); [lra|reflexivity].
Qed.

Lemma fl_execute_line_raises (self : Fl.GCodeSimulator) (line : str) (e : Fl.exn) :
  Fl.execute_line self line = Fl.Raised e -> e = Fl.OverflowError.
Proof.
  unfold Fl.execute_line.
  destruct (probe_z (parse_line line)); [discriminate|].
  set (s := Fl.apply_settings (parse_line line) (Fl.state self)).
  destruct (Fl.in_motion_mode s); [|discriminate].
  match goal with
  | |- context [if ?b then _ else _] => destruct b
  end; [|discriminate].
  match goal with
  | |- context [Fl.distance3 ?a ?b ?c] =>
      destruct (Fl.distance3 a b c) as [d|e'] eqn:Ed
  end.
  - destruct (time_in_minutes_returns d
                (Fl.rate_per_minute (Fl.rapid_traverse_rate self) s))
      as (m & Em).
    rewrite Em. discriminate.
  - intro E. injection E as <-. exact (distance3_raises _ _ _ _ Ed).
Qed.

Lemma of_Q_big (n : Z) :
  (2 ^ 1024 - 2 ^ 970 <= n)%Z -> Fl.of_Q (inject_Z n) = Fl.PInf.
Proof.
  intro H. unfold Fl.of_Q. apply round_huge. unfold Fl.huge, inject_Z, Q2R.
  cbn [Qnum Qden]. rewrite Rinv_1, Rmult_1_r. now apply IZR_le.
Qed.

Lemma of_Q_small (n : Z) :
  (- (2 ^ 1024 - 2 ^ 970) < n < 2 ^ 1024 - 2 ^ 970)%Z ->
  Fl.of_Q (inject_Z n) = Fl.Fin (IZR n).
Proof.
  intros [H1 H2]. unfold Fl.of_Q.
  assert (E : Q2R (inject_Z n) = IZR n).
  { unfold inject_Z, Q2R. cbn [Qnum Qden]. now rewrite Rinv_1, Rmult_1_r. }
  rewrite E. apply round_fin. unfold Fl.huge. rewrite <- opp_IZR.
  split; now apply IZR_lt.
Qed.

Lemma parse_overflowing_line :
  pG (parse_line overflowing_line) = Some 1%Z
  /\ pX (parse_line overflowing_line) = Some (inject_Z (10 ^ 400 - 1))
  /\ pY (parse_line overflowing_line) = None
  /\ pZ (parse_line overflowing_line) = None
  /\ pF (parse_line overflowing_line) = Some (inject_Z (10 ^ 400 - 1))
  /\ pS (parse_line overflowing_line) = None.
Proof. repeat apply conj; vm_compute; reflexivity. Qed.

Lemma round_zero : Fl.round (0 + - 0) = Fl.Fin (0 + - 0).
Proof. apply round_fin. pose proof huge_pos. lra. Qed.

Lemma sqr_zero :
  Fl.sqr (Fl.Fin (0 + - 0)) = Fl.Ok (Fl.Fin ((0 + - 0) * (0 + - 0))).
Proof.
  cbn [Fl.sqr]. destruct (Rle_dec Fl.huge ((0 + - 0) * (0 + - 0))); [|reflexivity].
  pose proof huge_pos. lra.
Qed.

(** The state and the move after [overflowing_line]: the target and the feed
    rate are infinite, and so is the distance; the time is [inf / inf]. *)
Lemma overflowing_line_run :
  Fl.execute_line (Fl.GCodeSimulator_init (Fl.Fin 5000)) overflowing_line
  = Fl.Ok
      (let mv :=
         {| Fl.mv_type := feed;
            Fl.mv_from := (Fl.Fin 0, Fl.Fin 0, Fl.Fin 0);
            Fl.mv_to := (Fl.PInf, Fl.Fin 0, Fl.Fin 0);
            Fl.mv_feed_rate := Some Fl.PInf;
            Fl.mv_distance := Fl.PInf;
            Fl.mv_time_s := Fl.NaN |} in
       ({| Fl.state :=
             Fl.set_xyz Fl.PInf (Fl.Fin 0) (Fl.Fin 0)
               (Fl.set_total_time_seconds Fl.NaN
                  (Fl.set_feed_rate Fl.PInf
                     (Fl.set_current_g 1 Fl.MachineState_default)));
           Fl.move_history := [mv];
           Fl.rapid_traverse_rate := Fl.Fin 5000 |},
        Some mv)).
Proof.
  unfold Fl.execute_line. cbv zeta.
  destruct parse_overflowing_line as (HG & HX & HY & HZ & HF & HS).
  unfold probe_z, Fl.apply_settings. rewrite HG, HX, HY, HZ, HF, HS.
  cbn [Z.eqb Pos.eqb Fl.update_modal is_motion_code orb Fl.state
       Fl.GCodeSimulator_init Fl.in_motion_mode Fl.current_g Fl.set_current_g
       Fl.set_feed_rate Fl.MachineState_default Fl.absolute_mode Fl.x Fl.y Fl.z
       Fl.target_axis Fl.feed_rate Fl.total_time_seconds
       Fl.rapid_traverse_rate Fl.move_history Fl.rate_per_minute].
  rewrite (of_Q_big (10 ^ 400 - 1)) by (vm_compute; discriminate).
  cbn [Fl.ne orb Fl.sub Fl.neg Fl.add].
  rewrite round_zero. unfold Fl.distance3. rewrite sqr_zero.
  cbn [Fl.sqr Fl.add Fl.root Fl.time_in_minutes Fl.gt Fl.div Fl.mul app].
  reflexivity.
Qed.

(** [G1 X3 Y4 F600] from the start returns, with a move. *)
Lemma feed_line_run :
  exists (self' : Fl.GCodeSimulator) (mv : Fl.MoveRecord),
    Fl.execute_line (Fl.GCodeSimulator_init (Fl.Fin 5000)) (s2l "G1 X3 Y4 F600")
    = Fl.Ok (self', Some mv).
Proof.
  assert (Hh : (1000000 < Fl.huge)%R) by (apply IZR_lt; reflexivity).
  unfold Fl.execute_line. cbv zeta.
  assert (HP : parse_line (s2l "G1 X3 Y4 F600")
               = {| pG := Some 1%Z; pM := None; pX := Some (inject_Z 3);
                    pY := Some (inject_Z 4); pZ := None; pI := None;
                    pJ := None; pK := None; pR := None;
                    pF := Some (inject_Z 600); pS := None |})
    by (vm_compute; reflexivity).
  rewrite HP. clear HP.
  unfold probe_z, Fl.apply_settings.
  cbn [pG pX pY pZ pF pS Z.eqb Pos.eqb Fl.update_modal is_motion_code orb andb
       Fl.state Fl.GCodeSimulator_init Fl.in_motion_mode Fl.current_g
       Fl.set_current_g Fl.set_feed_rate Fl.MachineState_default
       Fl.absolute_mode Fl.x Fl.y Fl.z Fl.target_axis Fl.feed_rate
       Fl.total_time_seconds Fl.rapid_traverse_rate Fl.move_history
       Fl.rate_per_minute].
  rewrite (of_Q_small 3), (of_Q_small 4), (of_Q_small 600)
    by (split; reflexivity).
  cbn [Fl.ne Fl.sub Fl.neg Fl.add].
  destruct (Req_EM_T 3 0) as [E|_]; [lra|]. cbn [orb].
  rewrite round_zero, (round_fin (3 + - 0)), (round_fin (4 + - 0)) by lra.
  unfold Fl.distance3. rewrite sqr_zero. cbn [Fl.sqr].
  destruct (Rle_dec Fl.huge ((3 + - 0) * (3 + - 0))); [lra|].
  destruct (Rle_dec Fl.huge ((4 + - 0) * (4 + - 0))); [lra|].
  unfold Fl.time_in_minutes. cbn [Fl.gt].
  destruct (Rlt_dec 0 600); [|lra].
  match goal with
  | |- context [Fl.div ?d (Fl.Fin 600)] =>
      destruct (time_in_minutes_returns d (Fl.Fin 600)) as (m & Em)
  end.
  unfold Fl.time_in_minutes in Em. cbn [Fl.gt] in Em.
  destruct (Rlt_dec 0 600); [|lra].
  rewrite Em. eexists. eexists. reflexivity.
Qed.

(** The exception is there: the square of a coordinate of 156 digits is
    beyond the range, and [execute_line] raises out of the line. *)
Lemma square_overflow_run :
  Fl.execute_line (Fl.GCodeSimulator_init (Fl.Fin 5000))
    (s2l "G0 X1" ++ repeat "0"%char 155)
  = Fl.Raised Fl.OverflowError.
Proof.
  unfold Fl.execute_line. cbv zeta.
  assert (HP : parse_line (s2l "G0 X1" ++ repeat "0"%char 155)
               = {| pG := Some 0%Z; pM := None;
                    pX := Some (inject_Z (10 ^ 155));
                    pY := None; pZ := None; pI := None;
                    pJ := None; pK := None; pR := None;
                    pF := None; pS := None |})
    by (vm_compute; reflexivity).
  rewrite HP. clear HP.
  unfold probe_z, Fl.apply_settings.
  cbn [pG pX pY pZ pF pS Z.eqb Pos.eqb Fl.update_modal is_motion_code orb andb
       Fl.state Fl.GCodeSimulator_init Fl.in_motion_mode Fl.current_g
       Fl.set_current_g Fl.set_feed_rate Fl.MachineState_default
       Fl.absolute_mode Fl.x Fl.y Fl.z Fl.target_axis Fl.feed_rate
       Fl.total_time_seconds Fl.rapid_traverse_rate Fl.move_history
       Fl.rate_per_minute].
  rewrite (of_Q_small (10 ^ 155)) by (split; reflexivity).
  cbn [Fl.ne Fl.sub Fl.neg Fl.add].
  destruct (Req_EM_T (IZR (10 ^ 155)) 0) as [E|_].
  { apply eq_IZR in E. discriminate E. }
  cbn [orb]. rewrite Ropp_0, Rplus_0_r.
  rewrite (round_fin (IZR (10 ^ 155)))
    by (unfold Fl.huge; rewrite <- opp_IZR; split; apply IZR_lt; reflexivity).
  unfold Fl.distance3. cbn [Fl.sqr].
  destruct (Rle_dec Fl.huge (IZR (10 ^ 155) * IZR (10 ^ 155))) as [_|H];
    [reflexivity|].
  exfalso. apply H. unfold Fl.huge. rewrite <- mult_IZR. apply IZR_le.
  vm_compute. discriminate.
Qed.

(** C6, amended.  On floats [total_time_seconds] is not always at least what
    it was.  What holds, whatever the state and the line:
    - when [execute_line] returns, the total is at least the total before,
      or it is NaN;
    - when the numbers of the state, the rapid rate and the numbers of the
      line are finite, the total is at least the total before;
    - [execute_line] raises nothing but the [OverflowError] of a square: no
      feed rate makes the division raise;
    - a rate that is zero or negative gives the move the time 0. *)
Theorem total_time_seconds_monotone_or_nan :
  (forall (self self' : Fl.GCodeSimulator) (line : str)
          (info : option Fl.MoveRecord),
      Fl.valid (Fl.total_time_seconds (Fl.state self)) ->
      Fl.execute_line self line = Fl.Ok (self', info) ->
      Fl.ge (Fl.total_time_seconds (Fl.state self'))
            (Fl.total_time_seconds (Fl.state self)) = true
      \/ Fl.total_time_seconds (Fl.state self') = Fl.NaN)
  /\ (forall (self self' : Fl.GCodeSimulator) (line : str)
             (info : option Fl.MoveRecord),
      Fl.finite_state (Fl.state self) ->
      Fl.finite (Fl.rapid_traverse_rate self) ->
      Fl.finite_words (parse_line line) ->
      Fl.execute_line self line = Fl.Ok (self', info) ->
      Fl.ge (Fl.total_time_seconds (Fl.state self'))
            (Fl.total_time_seconds (Fl.state self)) = true)
  /\ (forall (self : Fl.GCodeSimulator) (line : str) (e : Fl.exn),
      Fl.execute_line self line = Fl.Raised e -> e = Fl.OverflowError)
  /\ (forall (d : Fl.num) (r : R),
      (r <= 0)%R -> Fl.time_in_minutes d (Fl.Fin r) = Fl.Ok (Fl.Fin 0)).
Proof.
  split; [|split; [|split]].
  - intros self self' line info Hv E.
    destruct (fl_execute_line_total self self' line info E)
      as [->|(t & Ht & ->)].
    + apply ge_refl.
    + now apply add_ge.
  - intros self self' line info Hs Hr Hw E.
    destruct (fl_execute_line_total_finite self self' line info Hs Hr Hw E)
      as [->|(t & Ht & ->)].
    + destruct Hs as (_ & _ & _ & _ & Htot).
      destruct (ge_refl (Fl.total_time_seconds (Fl.state self))) as [H|H];
        [exact H|].
      rewrite H in Htot. contradiction.
    + apply add_ge_finite; [|exact Ht]. apply Hs.
  - exact fl_execute_line_raises.
  - exact time_in_minutes_no_rate.
Qed.

Lemma total_time_seconds_monotone_or_nan_witness :
  exists (self' : Fl.GCodeSimulator) (mv : Fl.MoveRecord),
    Fl.execute_line (Fl.GCodeSimulator_init (Fl.Fin 5000)) (s2l "G1 X3 Y4 F600")
    = Fl.Ok (self', Some mv)
    /\ Fl.ge (Fl.total_time_seconds (Fl.state self')) (Fl.Fin 0) = true.
Proof.
  destruct feed_line_run as (self' & mv & E).
  exists self', mv. split; [exact E|].
  assert (Hh : (1000000 < Fl.huge)%R) by (apply IZR_lt; reflexivity).
  refine (proj1 (proj2 total_time_seconds_monotone_or_nan)
            (Fl.GCodeSimulator_init (Fl.Fin 5000)) self'
            (s2l "G1 X3 Y4 F600") (Some mv) _ _ _ E).
  - cbn. repeat split; lra.
  - cbn. lra.
  - assert (HP : parse_line (s2l "G1 X3 Y4 F600")
                 = {| pG := Some 1%Z; pM := None; pX := Some (inject_Z 3);
                      pY := Some (inject_Z 4); pZ := None; pI := None;
                      pJ := None; pK := None; pR := None;
                      pF := Some (inject_Z 600); pS := None |})
      by (vm_compute; reflexivity).
    rewrite HP. unfold Fl.finite_words. cbn [pX pY pZ pF option_map].
    rewrite (of_Q_small 3), (of_Q_small 4), (of_Q_small 600)
      by (split; reflexivity).
    cbn. repeat split; lra.
Defined.

(** The line [G1 X99...9 F99...9] from the start: the total is 0 before and
    NaN after, and NaN is not at least 0. *)
Lemma total_time_becomes_nan :
  exists (self' : Fl.GCodeSimulator) (mv : Fl.MoveRecord),
    Fl.execute_line (Fl.GCodeSimulator_init (Fl.Fin 5000)) overflowing_line
    = Fl.Ok (self', Some mv)
    /\ Fl.mv_distance mv = Fl.PInf
    /\ Fl.mv_feed_rate mv = Some Fl.PInf
    /\ Fl.total_time_seconds (Fl.state (Fl.GCodeSimulator_init (Fl.Fin 5000)))
       = Fl.Fin 0
    /\ Fl.total_time_seconds (Fl.state self') = Fl.NaN
    /\ Fl.ge (Fl.total_time_seconds (Fl.state self'))
             (Fl.total_time_seconds
                (Fl.state (Fl.GCodeSimulator_init (Fl.Fin 5000)))) = false.
Proof.
  eexists. eexists. split; [exact overflowing_line_run|].
  repeat split; reflexivity.
Qed.
